(** * PathFinder (spider.go, main.go, render.go): a shallow embedding

    The crawler is written in Go.  A Go [string] is a sequence of bytes and
    is modelled by Rocq's [string] (a list of 8-bit [ascii] characters);
    Go's [int] is modelled by [Z]; [len] of a string by [len] below.

    The file is organised as the program is:
    - [strings]: the functions of Go's package strings that the crawler
      calls (their behaviour on ASCII input);
    - [url]: Go's package net/url ([Parse], [String], [Hostname], [Port],
      [QueryUnescape]);
    - [regexp]: a small regular-expression engine, enough for the patterns
      the crawler compiles itself;
    - then the crawler: deduper, emit filter, scope, canonicalisation, the
      collector callbacks, the sub-domain cleaner and the render loop. *)

From Stdlib Require Import String Ascii List ZArith Bool Arith Lia DecimalString.
Import ListNotations.
Open Scope string_scope.
Open Scope bool_scope.

(** ** Bytes and basic string operations *)

Definition len (s : string) : Z := Z.of_nat (String.length s).

Definition byte_in (c : ascii) (set : string) : bool :=
  existsb (Ascii.eqb c) (list_ascii_of_string set).

Definition in_range (lo hi c : ascii) : bool :=
  (N_of_ascii lo <=? N_of_ascii c)%N && (N_of_ascii c <=? N_of_ascii hi)%N.

Definition isLower (c : ascii) : bool := in_range "a" "z" c.
Definition isUpper (c : ascii) : bool := in_range "A" "Z" c.
Definition isDigit (c : ascii) : bool := in_range "0" "9" c.
Definition isAlpha (c : ascii) : bool := isLower c || isUpper c.
Definition isAlnum (c : ascii) : bool := isAlpha c || isDigit c.

(** The double quote, written by its code so that no literal has to
    escape it. *)
Definition dquote : ascii := "034"%char.

Fixpoint drop (n : nat) (s : string) : string :=
  match n, s with
  | S k, String _ s' => drop k s'
  | _, _ => s
  end.

Fixpoint take (n : nat) (s : string) : string :=
  match n, s with
  | S k, String c s' => String c (take k s')
  | _, _ => ""
  end.

Fixpoint rev_onto (s acc : string) : string :=
  match s with
  | "" => acc
  | String c s' => rev_onto s' (String c acc)
  end.

Definition srev (s : string) : string := rev_onto s "".

Module strings.

(** [strings.ToLower] on ASCII text: the letters A-Z are mapped, every
    other byte is kept.  On text with bytes from 128 on Go decodes UTF-8
    and maps Unicode letters as well (the Kelvin sign becomes [k]), which
    this definition does not follow; the properties that depend on the
    difference are stated for ASCII text. *)
Definition lower (c : ascii) : ascii :=
  if isUpper c then ascii_of_N (N_of_ascii c + 32) else c.

Fixpoint ToLower (s : string) : string :=
  match s with
  | "" => ""
  | String c s' => String (lower c) (ToLower s')
  end.

Definition EqualFold (a b : string) : bool := ToLower a =? ToLower b.

Definition HasPrefix (s pre : string) : bool := String.prefix pre s.

Definition HasSuffix (s suf : string) : bool :=
  (String.length suf <=? String.length s)%nat
  && (drop (String.length s - String.length suf) s =? suf).

Definition TrimPrefix (s pre : string) : string :=
  if HasPrefix s pre then drop (String.length pre) s else s.

(** [strings.Index]: the byte offset of the first occurrence of [sep]. *)
Fixpoint Index (s sep : string) : option nat :=
  if String.prefix sep s then Some 0%nat
  else match s with
       | "" => None
       | String _ s' => option_map S (Index s' sep)
       end.

Fixpoint LastIndex_from (i : nat) (s sep : string) (best : option nat) : option nat :=
  let best' := if String.prefix sep s then Some i else best in
  match s with
  | "" => best'
  | String _ s' => LastIndex_from (S i) s' sep best'
  end.

Definition LastIndex (s sep : string) : option nat := LastIndex_from 0 s sep None.

Definition Contains (s sub : string) : bool :=
  match Index s sub with Some _ => true | None => false end.

(** [strings.Cut]: the text before and after the first [sep], and whether
    [sep] was found. *)
Definition Cut (s sep : string) : string * string * bool :=
  match Index s sep with
  | Some i => (take i s, drop (i + String.length sep) s, true)
  | None => (s, "", false)
  end.

(** [strings.Count] for a non-empty [sep]: non-overlapping occurrences. *)
Fixpoint Count_skip (sep : string) (skip : nat) (s : string) : nat :=
  match s with
  | "" => 0
  | String _ s' =>
      match skip with
      | S k => Count_skip sep k s'
      | O => if String.prefix sep s
             then S (Count_skip sep (String.length sep - 1) s')
             else Count_skip sep 0 s'
      end
  end.

Definition Count (s sep : string) : nat := Count_skip sep 0 s.

(** [strings.ReplaceAll] for a non-empty [old]: every non-overlapping
    occurrence, left to right. *)
Fixpoint ReplaceAll_skip (old new : string) (skip : nat) (s : string) : string :=
  match s with
  | "" => ""
  | String c s' =>
      match skip with
      | S k => ReplaceAll_skip old new k s'
      | O => if String.prefix old s
             then new ++ ReplaceAll_skip old new (String.length old - 1) s'
             else String c (ReplaceAll_skip old new 0 s')
      end
  end.

Definition ReplaceAll (s old new : string) : string := ReplaceAll_skip old new 0 s.

Fixpoint TrimLeftFunc (f : ascii -> bool) (s : string) : string :=
  match s with
  | "" => ""
  | String c s' => if f c then TrimLeftFunc f s' else s
  end.

Definition TrimRightFunc (f : ascii -> bool) (s : string) : string :=
  srev (TrimLeftFunc f (srev s)).

Definition TrimFunc (f : ascii -> bool) (s : string) : string :=
  TrimRightFunc f (TrimLeftFunc f s).

(** [strings.Trim s cutset]: leading and trailing bytes of [cutset] removed. *)
Definition Trim (s cutset : string) : string :=
  TrimFunc (fun c => byte_in c cutset) s.

(** White space as [strings.TrimSpace] sees it in ASCII text:
    tab, line feed, vertical tab, form feed, carriage return, space.  In
    text with bytes from 128 on Go also trims the Unicode spaces (U+0085,
    U+00A0 and others), which this definition does not follow. *)
Definition isSpace (c : ascii) : bool :=
  in_range "009" "013" c || Ascii.eqb c " ".

Definition TrimSpace (s : string) : string := TrimFunc isSpace s.

(** [strings.Split] for a non-empty [sep]: the texts between the
    non-overlapping occurrences of [sep], left to right. *)
Fixpoint Split_skip (sep : string) (skip : nat) (cur : string) (s : string)
  : list string :=
  match s with
  | "" => [srev cur]
  | String c s' =>
      match skip with
      | S k => Split_skip sep k cur s'
      | O => if String.prefix sep s
             then srev cur :: Split_skip sep (String.length sep - 1) "" s'
             else Split_skip sep 0 (String c cur) s'
      end
  end.

Definition Split (s sep : string) : list string := Split_skip sep 0 "" s.

End strings.

(** ** Package net/url

    The crawler parses every discovered link with [url.Parse] and prints it
    back with [URL.String]; [canonicalizeURL] uses [Hostname] and [Port].
    The definitions below follow the Go standard library (the lenient host
    parsing of Go up to 1.25, which only validates the text after the last
    colon of the host). *)

Module url.

Inductive encoding :=
| encodePath | encodePathSegment | encodeHost | encodeZone
| encodeUserPassword | encodeQueryComponent | encodeFragment.

Definition encoding_eqb (a b : encoding) : bool :=
  match a, b with
  | encodePath, encodePath | encodePathSegment, encodePathSegment
  | encodeHost, encodeHost | encodeZone, encodeZone
  | encodeUserPassword, encodeUserPassword
  | encodeQueryComponent, encodeQueryComponent
  | encodeFragment, encodeFragment => true
  | _, _ => false
  end.

Definition ishex (c : ascii) : bool :=
  isDigit c || in_range "a" "f" c || in_range "A" "F" c.

Definition unhex (c : ascii) : N :=
  if isDigit c then N_of_ascii c - N_of_ascii "0"
  else if in_range "a" "f" c then N_of_ascii c - N_of_ascii "a" + 10
  else if in_range "A" "F" c then N_of_ascii c - N_of_ascii "A" + 10
  else 0.

Definition hexbyte (a b : ascii) : ascii := ascii_of_N (unhex a * 16 + unhex b).

Definition upperhex (n : N) : ascii :=
  if (n <? 10)%N then ascii_of_N (N_of_ascii "0" + n)
  else ascii_of_N (N_of_ascii "A" + (n - 10)).

(** [shouldEscape]: whether byte [c] must be percent-encoded in the given
    part of a URL. *)
Definition shouldEscape (c : ascii) (mode : encoding) : bool :=
  if isAlnum c then false
  else if (encoding_eqb mode encodeHost || encoding_eqb mode encodeZone)
          && (byte_in c "!$&'()*+,;=:[]<>" || Ascii.eqb c dquote) then false
  else if byte_in c "-_.~" then false
  else if byte_in c "$&+,/:;=?@" then
    match mode with
    | encodePath => Ascii.eqb c "?"
    | encodePathSegment => byte_in c "/;,?"
    | encodeUserPassword => byte_in c "@/?:"
    | encodeQueryComponent => true
    | encodeFragment => false
    | encodeHost | encodeZone => true
    end
  else if encoding_eqb mode encodeFragment && byte_in c "!()*" then false
  else true.

(** [unescape], first pass: every [%] is followed by two hex digits, and
    the host and zone restrictions hold. *)
Fixpoint unescape_ok (mode : encoding) (s : string) : bool :=
  match s with
  | "" => true
  | String c rest =>
      if Ascii.eqb c "%" then
        match rest with
        | String a (String b rest') =>
            ishex a && ishex b
            && negb (encoding_eqb mode encodeHost
                     && (unhex a <? 8)%N
                     && negb (Ascii.eqb a "2" && Ascii.eqb b "5"))
            && negb (encoding_eqb mode encodeZone
                     && negb (Ascii.eqb a "2" && Ascii.eqb b "5")
                     && negb (Ascii.eqb (hexbyte a b) " ")
                     && shouldEscape (hexbyte a b) encodeHost)
            && unescape_ok mode rest'
        | _ => false
        end
      else
        negb ((encoding_eqb mode encodeHost || encoding_eqb mode encodeZone)
              && (N_of_ascii c <? 128)%N
              && shouldEscape c encodeHost)
        && unescape_ok mode rest
  end.

(** [unescape], second pass: the decoding itself. *)
Fixpoint unescape_decode (mode : encoding) (s : string) : string :=
  match s with
  | "" => ""
  | String c rest =>
      if Ascii.eqb c "%" then
        match rest with
        | String a (String b rest') => String (hexbyte a b) (unescape_decode mode rest')
        | _ => String c (unescape_decode mode rest)
        end
      else if Ascii.eqb c "+" && encoding_eqb mode encodeQueryComponent
      then String " " (unescape_decode mode rest)
      else String c (unescape_decode mode rest)
  end.

Definition unescape (s : string) (mode : encoding) : option string :=
  if unescape_ok mode s then Some (unescape_decode mode s) else None.

Definition QueryUnescape (s : string) : option string :=
  unescape s encodeQueryComponent.

Fixpoint escape (s : string) (mode : encoding) : string :=
  match s with
  | "" => ""
  | String c rest =>
      if shouldEscape c mode then
        if Ascii.eqb c " " && encoding_eqb mode encodeQueryComponent
        then String "+" (escape rest mode)
        else String "%" (String (upperhex (N_of_ascii c / 16))
                          (String (upperhex (N_of_ascii c mod 16)) (escape rest mode)))
      else String c (escape rest mode)
  end.

Fixpoint validEncoded (s : string) (mode : encoding) : bool :=
  match s with
  | "" => true
  | String c rest =>
      (byte_in c "!$&'()*+,;=:@[]%" || negb (shouldEscape c mode))
      && validEncoded rest mode
  end.

Record Userinfo := {
  username : string;
  password : string;
  passwordSet : bool
}.

Definition Userinfo_String (ui : Userinfo) : string :=
  escape (username ui) encodeUserPassword
  ++ (if passwordSet ui then ":" ++ escape (password ui) encodeUserPassword else "").

Record URL := {
  Scheme : string;
  Opaque : string;
  User : option Userinfo;
  Host : string;
  Path : string;
  RawPath : string;
  OmitHost : bool;
  ForceQuery : bool;
  RawQuery : string;
  Fragment : string;
  RawFragment : string
}.

Definition emptyURL : URL :=
  {| Scheme := ""; Opaque := ""; User := None; Host := ""; Path := "";
     RawPath := ""; OmitHost := false; ForceQuery := false; RawQuery := "";
     Fragment := ""; RawFragment := "" |}.

(** [validOptionalPort]: empty, or a colon followed by digits only. *)
Definition validOptionalPort (port : string) : bool :=
  match port with
  | "" => true
  | String c digits =>
      Ascii.eqb c ":" && forallb isDigit (list_ascii_of_string digits)
  end.

(** [splitHostPort]: cut a valid [:port] off the end, then remove the
    square brackets of an IPv6 literal. *)
Definition splitHostPort (hostPort : string) : string * string :=
  let '(host, port) :=
    match strings.LastIndex hostPort ":" with
    | Some colon =>
        if validOptionalPort (drop colon hostPort)
        then (take colon hostPort, drop (colon + 1) hostPort)
        else (hostPort, "")
    | None => (hostPort, "")
    end in
  if strings.HasPrefix host "[" && strings.HasSuffix host "]"
  then (take (String.length host - 2) (drop 1 host), port)
  else (host, port).

Definition URL_Hostname (u : URL) : string := fst (splitHostPort (Host u)).
Definition URL_Port (u : URL) : string := snd (splitHostPort (Host u)).

Definition EscapedPath (u : URL) : string :=
  if negb (RawPath u =? "") && validEncoded (RawPath u) encodePath
     && match unescape (RawPath u) encodePath with
        | Some p => p =? Path u
        | None => false
        end
  then RawPath u
  else if Path u =? "*" then "*"
  else escape (Path u) encodePath.

Definition EscapedFragment (u : URL) : string :=
  if negb (RawFragment u =? "") && validEncoded (RawFragment u) encodeFragment
     && match unescape (RawFragment u) encodeFragment with
        | Some f => f =? Fragment u
        | None => false
        end
  then RawFragment u
  else escape (Fragment u) encodeFragment.

Definition isSome {A} (o : option A) : bool :=
  match o with Some _ => true | None => false end.

(** [URL.String]: scheme, authority, path, query and fragment written
    back in this order. *)
Definition URL_String (u : URL) : string :=
  let buf0 := if negb (Scheme u =? "") then Scheme u ++ ":" else "" in
  let buf1 :=
    if negb (Opaque u =? "") then buf0 ++ Opaque u
    else
      let auth :=
        if negb (Scheme u =? "") || negb (Host u =? "") || isSome (User u) then
          if OmitHost u && (Host u =? "") && negb (isSome (User u)) then ""
          else
            (if negb (Host u =? "") || negb (Path u =? "") || isSome (User u)
             then "//" else "")
            ++ match User u with
               | Some ui => Userinfo_String ui ++ "@"
               | None => ""
               end
            ++ (if negb (Host u =? "") then escape (Host u) encodeHost else "")
        else "" in
      let buf := buf0 ++ auth in
      let path := EscapedPath u in
      let buf :=
        if negb (path =? "") && negb (strings.HasPrefix path "/") && negb (Host u =? "")
        then buf ++ "/" else buf in
      let buf :=
        if (buf =? "") && strings.Contains (fst (fst (strings.Cut path "/"))) ":"
        then buf ++ "./" else buf in
      buf ++ path in
  let buf2 :=
    if ForceQuery u || negb (RawQuery u =? "") then buf1 ++ "?" ++ RawQuery u else buf1 in
  if negb (Fragment u =? "") then buf2 ++ "#" ++ EscapedFragment u else buf2.

(** [getScheme]: split a leading [scheme:] off; [None] is the error
    "missing protocol scheme". *)
Fixpoint getScheme_from (first : bool) (seen rest rawURL : string)
  : option (string * string) :=
  match rest with
  | "" => Some ("", rawURL)
  | String c rest' =>
      if isAlpha c then getScheme_from false (seen ++ String c "") rest' rawURL
      else if isDigit c || byte_in c "+-." then
        if first then Some ("", rawURL)
        else getScheme_from false (seen ++ String c "") rest' rawURL
      else if Ascii.eqb c ":" then
        if first then None else Some (seen, rest')
      else Some ("", rawURL)
  end.

Definition getScheme (rawURL : string) : option (string * string) :=
  getScheme_from true "" rawURL rawURL.

Definition stringContainsCTLByte (s : string) : bool :=
  existsb (fun c => (N_of_ascii c <? 32)%N || (N_of_ascii c =? 127)%N)
          (list_ascii_of_string s).

Definition validUserinfo (s : string) : bool :=
  forallb (fun c => isAlnum c || byte_in c "-._:~!$&'()*+,;=%@")
          (list_ascii_of_string s).

(** [parseHost]: an IPv6 literal in brackets (with an optional zone), or a
    name; in both cases what follows the host must be a valid port. *)
Definition parseHost (host : string) : option string :=
  if strings.HasPrefix host "[" then
    match strings.LastIndex host "]" with
    | None => None
    | Some i =>
        if negb (validOptionalPort (drop (i + 1) host)) then None
        else
          match strings.Index (take i host) "%25" with
          | Some zone =>
              match unescape (take zone host) encodeHost,
                    unescape (take (i - zone) (drop zone host)) encodeZone,
                    unescape (drop i host) encodeHost with
              | Some host1, Some host2, Some host3 => Some (host1 ++ host2 ++ host3)
              | _, _, _ => None
              end
          | None => unescape host encodeHost
          end
    end
  else
    match strings.LastIndex host ":" with
    | Some i =>
        if negb (validOptionalPort (drop i host)) then None
        else unescape host encodeHost
    | None => unescape host encodeHost
    end.

Definition parseAuthority (authority : string) : option (option Userinfo * string) :=
  match strings.LastIndex authority "@" with
  | None =>
      match parseHost authority with
      | Some host => Some (None, host)
      | None => None
      end
  | Some i =>
      match parseHost (drop (i + 1) authority) with
      | None => None
      | Some host =>
          let userinfo := take i authority in
          if negb (validUserinfo userinfo) then None
          else if negb (strings.Contains userinfo ":") then
            match unescape userinfo encodeUserPassword with
            | Some name =>
                Some (Some {| username := name; password := ""; passwordSet := false |}, host)
            | None => None
            end
          else
            let '(name, pass, _) := strings.Cut userinfo ":" in
            match unescape name encodeUserPassword, unescape pass encodeUserPassword with
            | Some name', Some pass' =>
                Some (Some {| username := name'; password := pass'; passwordSet := true |}, host)
            | _, _ => None
            end
      end
  end.

(** [parse] (with [viaRequest = false]): everything of a URL but the
    fragment. *)
Definition parse (rawURL : string) : option URL :=
  if stringContainsCTLByte rawURL then None
  else if rawURL =? "*" then
    Some {| Scheme := ""; Opaque := ""; User := None; Host := ""; Path := "*";
            RawPath := ""; OmitHost := false; ForceQuery := false; RawQuery := "";
            Fragment := ""; RawFragment := "" |}
  else
    match getScheme rawURL with
    | None => None
    | Some (scheme0, rest0) =>
        let scheme := strings.ToLower scheme0 in
        let '(rest1, rawQuery, forceQuery) :=
          if strings.HasSuffix rest0 "?" && (strings.Count rest0 "?" =? 1)%nat
          then (take (String.length rest0 - 1) rest0, "", true)
          else let '(r, q, _) := strings.Cut rest0 "?" in (r, q, false) in
        if negb (strings.HasPrefix rest1 "/") && negb (scheme =? "") then
          (* a rootless path after a scheme is opaque *)
          Some {| Scheme := scheme; Opaque := rest1; User := None; Host := "";
                  Path := ""; RawPath := ""; OmitHost := false;
                  ForceQuery := forceQuery; RawQuery := rawQuery;
                  Fragment := ""; RawFragment := "" |}
        else if negb (strings.HasPrefix rest1 "/")
                && strings.Contains (fst (fst (strings.Cut rest1 "/"))) ":" then
          None (* first path segment in URL cannot contain colon *)
        else
          let withAuthority :=
            (negb (scheme =? "") || negb (strings.HasPrefix rest1 "///"))
            && strings.HasPrefix rest1 "//" in
          let authority_rest :=
            if withAuthority then
              let a := drop 2 rest1 in
              match strings.Index a "/" with
              | Some i => (take i a, drop i a)
              | None => (a, "")
              end
            else ("", rest1) in
          let authority := fst authority_rest in
          let rest2 := snd authority_rest in
          match (if withAuthority then parseAuthority authority else Some (None, "")) with
          | None => None
          | Some (user, host) =>
              let omitHost :=
                negb withAuthority && negb (scheme =? "") && strings.HasPrefix rest2 "/" in
              (* setPath *)
              match unescape rest2 encodePath with
              | None => None
              | Some path =>
                  Some {| Scheme := scheme; Opaque := ""; User := user; Host := host;
                          Path := path;
                          RawPath := if rest2 =? escape path encodePath then "" else rest2;
                          OmitHost := omitHost;
                          ForceQuery := forceQuery; RawQuery := rawQuery;
                          Fragment := ""; RawFragment := "" |}
              end
          end
    end.

(** [url.Parse]: cut the fragment off, parse the rest, then set the
    fragment ([setFragment]). *)
Definition Parse (rawURL : string) : option URL :=
  let '(u, frag, _) := strings.Cut rawURL "#" in
  match parse u with
  | None => None
  | Some url =>
      if frag =? "" then Some url
      else
        match unescape frag encodeFragment with
        | None => None
        | Some f =>
            Some {| Scheme := Scheme url; Opaque := Opaque url; User := User url;
                    Host := Host url; Path := Path url; RawPath := RawPath url;
                    OmitHost := OmitHost url; ForceQuery := ForceQuery url;
                    RawQuery := RawQuery url; Fragment := f;
                    RawFragment := if frag =? escape f encodeFragment then "" else frag |}
        end
  end.

End url.

(** ** Package regexp

    The patterns the crawler compiles are written below as syntax trees.
    [run r st] lists, in the order a backtracking matcher tries them, the
    positions at which a match of [r] that starts at [st] can end.  A
    position is the text still to be read together with a flag telling
    whether it is the very beginning of the text (for [^]). *)

Module regexp.

Inductive Regexp :=
| Empty
| Class (p : ascii -> bool)      (* one byte of a class *)
| Lit (s : string)               (* literal text *)
| LitFold (s : string)           (* literal text under the flag (?i) *)
| Cat (a b : Regexp)
| Alt (a b : Regexp)
| Star (a : Regexp)              (* greedy, zero or more *)
| Bol                            (* ^ : beginning of text *)
| Eol.                           (* $ : end of text *)

Definition Plus (a : Regexp) : Regexp := Cat a (Star a).
Definition Opt (a : Regexp) : Regexp := Alt a Empty.

Fixpoint Alts (l : list Regexp) : Regexp :=
  match l with
  | [] => Class (fun _ => false)
  | [a] => a
  | a :: l' => Alt a (Alts l')
  end.

Fixpoint Cats (l : list Regexp) : Regexp :=
  match l with
  | [] => Empty
  | [a] => a
  | a :: l' => Cat a (Cats l')
  end.

Definition pos : Type := bool * string.

Definition shorter (st' st : pos) : bool :=
  (String.length (snd st') <? String.length (snd st))%nat.

(** Greedy iteration of [f]; an iteration that reads nothing is not
    repeated, so [fuel] = the length of the text is always enough. *)
Fixpoint star_run (f : pos -> list pos) (fuel : nat) (st : pos) : list pos :=
  match fuel with
  | O => [st]
  | S k => flat_map (star_run f k) (filter (fun st' => shorter st' st) (f st)) ++ [st]
  end.

Fixpoint run (r : Regexp) (st : pos) : list pos :=
  match r with
  | Empty => [st]
  | Class p =>
      match snd st with
      | String c t => if p c then [(false, t)] else []
      | "" => []
      end
  | Lit s =>
      if String.prefix s (snd st)
      then [(fst st && (s =? ""), drop (String.length s) (snd st))]
      else []
  | LitFold s =>
      if strings.ToLower (take (String.length s) (snd st)) =? strings.ToLower s
      then [(fst st && (s =? ""), drop (String.length s) (snd st))]
      else []
  | Cat a b => flat_map (run b) (run a st)
  | Alt a b => run a st ++ run b st
  | Star a => star_run (run a) (String.length (snd st)) st
  | Bol => if fst st then [st] else []
  | Eol => match snd st with "" => [st] | _ => [] end
  end.

Definition matches_at (r : Regexp) (st : pos) : bool :=
  match run r st with [] => false | _ :: _ => true end.

Fixpoint search (r : Regexp) (atStart : bool) (s : string) : bool :=
  matches_at r (atStart, s)
  || match s with
     | "" => false
     | String _ s' => search r false s'
     end.

(** [Regexp.MatchString]: does some substring of [s] match? *)
Definition MatchString (r : Regexp) (s : string) : bool := search r true s.

(** [FindStringIndex]: the leftmost match, as [start, end) offsets. *)
Fixpoint find_from (r : Regexp) (atStart : bool) (i : nat) (s : string)
  : option (nat * nat) :=
  match run r (atStart, s) with
  | (_, t) :: _ => Some (i, (i + (String.length s - String.length t))%nat)
  | [] =>
      match s with
      | "" => None
      | String _ s' => find_from r false (S i) s'
      end
  end.

Definition FindStringIndex (r : Regexp) (s : string) : option (nat * nat) :=
  find_from r true 0 s.

(** [ReplaceAllString(s, "")] for a pattern that matches no empty text:
    the leftmost match is cut out, then the leftmost match of what
    follows it, and so on; [fuel] bounds the number of matches. *)
Fixpoint removeAll (r : Regexp) (fuel : nat) (atStart : bool) (s : string) : string :=
  match fuel with
  | O => s
  | S k =>
      match find_from r atStart 0 s with
      | Some (i, e) =>
          if (i <? e)%nat then take i s ++ removeAll r k false (drop e s) else s
      | None => s
      end
  end.

Definition ReplaceAllString_empty (r : Regexp) (s : string) : string :=
  removeAll r (S (String.length s)) true s.

End regexp.

Import regexp.

(** ** Output, emit filter, deduper *)

(** [fmt.Sprintf("%d", n)]. *)
Definition itoa (n : Z) : string := NilZero.string_of_int (Z.to_int n).

Record SpiderOutput := {
  so_Input : string;
  so_Source : string;
  so_OutputType : string;
  so_Output : string;
  so_StatusCode : Z;
  so_Length : Z
}.

Definition mkOutput (input source type output : string) : SpiderOutput :=
  {| so_Input := input; so_Source := source; so_OutputType := type;
     so_Output := output; so_StatusCode := 0; so_Length := 0 |}.

Record EmitFilter := {
  allowAll : bool;
  allow : list string;
  deny : list string
}.

Definition mem (k : string) (l : list string) : bool := existsb (String.eqb k) l.

Definition EmitFilter_OK (f : EmitFilter) (kind : string) : bool :=
  let kind := strings.ToLower kind in
  if mem kind (deny f) then false
  else if allowAll f then true
  else mem kind (allow f).

(** [NewEmitFilter]: the keys of a comma-separated flag are its pieces,
    lower-cased and trimmed, the empty ones left out.  The two maps are
    kept as lists of keys. *)
Definition emitKey (s : string) : string := strings.TrimSpace (strings.ToLower s).

Definition addKeys (csv : string) (set : list string) : list string :=
  fold_left (fun set k => let k := emitKey k in
                          if negb (k =? "") then k :: set else set)
            (strings.Split csv ",") set.

Definition NewEmitFilter (includeCSV excludeCSV : string) : EmitFilter :=
  let all := strings.TrimSpace includeCSV =? "" in
  {| allowAll := all;
     allow := if all then [] else addKeys includeCSV [];
     deny := addKeys excludeCSV [] |}.

(** [StringFilter]: the keys seen so far, lower-cased.  [Duplicate] is
    the atomic load-or-store: it reports whether the key was present and
    stores it when it was not. *)
Definition StringFilter := list string.

Definition NewStringFilter : StringFilter := [].

Definition Duplicate (sf : StringFilter) (s : string) : bool * StringFilter :=
  let key := strings.ToLower s in
  if mem key sf then (true, sf) else (false, key :: sf).

(** ** What the crawler takes from libraries it does not contain

    JSON serialisation (jsoniter), reference resolution (net/url), the
    public-suffix list, and the searches of regexp with the three large
    extraction patterns are library code; the crawler is modelled over any
    implementation of them. *)
Class Libraries := {
  MarshalToString : SpiderOutput -> option string;
  ResolveReference : url.URL -> url.URL -> url.URL;
  EffectiveTLDPlusOne : string -> option string;
  FindAllString : string -> string -> list string;
  linkFinderRegex_FindAllStringSubmatch : string -> list (list string)
}.

(** ** Globals *)

Definition extensions : list string :=
  ["png"; "apng"; "bmp"; "gif"; "ico"; "cur"; "jpg"; "jpeg"; "jfif"; "pjp";
   "pjpeg"; "svg"; "tif"; "tiff"; "webp"; "xbm"; "3gp"; "aac"; "flac"; "mpg";
   "mpeg"; "mp3"; "mp4"; "m4a"; "m4v"; "m4p"; "oga"; "ogg"; "ogv"; "mov";
   "wav"; "webm"; "eot"; "woff"; "woff2"; "ttf"; "otf"; "css"].

(** [(?i)\.(png|apng|...|css)(?:\?|#|$)] *)
Definition disallowedExtRE : Regexp :=
  Cats [Lit "."; Alts (map LitFold extensions); Alts [Lit "?"; Lit "#"; Eol]].

Definition maxGrepBody : Z := 4 * 1024 * 1024.

(** [\s] of the pattern syntax: tab, line feed, form feed, carriage
    return, space; the dot is any byte but the line feed. *)
Definition isReSpace (c : ascii) : bool :=
  byte_in c (String "009" (String "010" (String "012" (String "013" " ")))).

Definition notNewline (c : ascii) : bool := negb (Ascii.eqb c "010").

(** [(?i).*llow:\s*] *)
Definition allowDisallowStripRE : Regexp :=
  Cats [Star (Class notNewline); LitFold "llow:"; Star (Class isReSpace)].

(** ** Scope *)

Record ScopeOverride := {
  Domain : string;
  AllowSubs : bool
}.

Definition notDot (c : ascii) : bool := negb (Ascii.eqb c ".").

(** The optional port and the end of the host: [(?::\d+)?(?:/|$)]. *)
Definition portAndEnd : Regexp :=
  Cat (Opt (Cat (Lit ":") (Plus (Class isDigit)))) (Alt (Lit "/") Eol).

(** ["^https?://([^.]+\.)*" + QuoteMeta(host) + "(?::\d+)?(?:/|$)"]; the
    quoted host matches itself, byte for byte. *)
Definition scopeWithSubs (host : string) : Regexp :=
  Cats [Bol; Lit "http"; Opt (Lit "s"); Lit "://";
        Star (Cat (Plus (Class notDot)) (Lit "."));
        Lit host; portAndEnd].

(** ["^https?://" + QuoteMeta(host) + "(?::\d+)?(?:/|$)"] *)
Definition scopeHostOnly (host : string) : Regexp :=
  Cats [Bol; Lit "http"; Opt (Lit "s"); Lit "://"; Lit host; portAndEnd].

Definition scopeRE (allowSubs : bool) (host : string) : Regexp :=
  if allowSubs then scopeWithSubs host else scopeHostOnly host.

Definition InScope (u : url.URL) (regexps : list Regexp) : bool :=
  existsb (fun r => MatchString r (url.URL_String u)) regexps.

(** ** Canonicalisation *)

Definition with_Fragment (u : url.URL) (f : string) : url.URL :=
  {| url.Scheme := url.Scheme u; url.Opaque := url.Opaque u; url.User := url.User u;
     url.Host := url.Host u; url.Path := url.Path u; url.RawPath := url.RawPath u;
     url.OmitHost := url.OmitHost u; url.ForceQuery := url.ForceQuery u;
     url.RawQuery := url.RawQuery u; url.Fragment := f;
     url.RawFragment := url.RawFragment u |}.

Definition with_Host (u : url.URL) (h : string) : url.URL :=
  {| url.Scheme := url.Scheme u; url.Opaque := url.Opaque u; url.User := url.User u;
     url.Host := h; url.Path := url.Path u; url.RawPath := url.RawPath u;
     url.OmitHost := url.OmitHost u; url.ForceQuery := url.ForceQuery u;
     url.RawQuery := url.RawQuery u; url.Fragment := url.Fragment u;
     url.RawFragment := url.RawFragment u |}.

Definition with_Path (u : url.URL) (p : string) : url.URL :=
  {| url.Scheme := url.Scheme u; url.Opaque := url.Opaque u; url.User := url.User u;
     url.Host := url.Host u; url.Path := p; url.RawPath := url.RawPath u;
     url.OmitHost := url.OmitHost u; url.ForceQuery := url.ForceQuery u;
     url.RawQuery := url.RawQuery u; url.Fragment := url.Fragment u;
     url.RawFragment := url.RawFragment u |}.

(** The copy [u2] that [canonicalizeURL] builds before printing it. *)
Definition canonical (u : url.URL) : url.URL :=
  let u2 := with_Fragment u "" in
  let u2 :=
    if ((url.Scheme u2 =? "http") && (url.URL_Port u2 =? "80"))
       || ((url.Scheme u2 =? "https") && (url.URL_Port u2 =? "443"))
    then with_Host u2 (url.URL_Hostname u2)
    else u2 in
  if url.Path u2 =? "" then with_Path u2 "/" else u2.

Definition canonicalizeURL (u : url.URL) : string := url.URL_String (canonical u).

(** ** The crawler *)

Record Crawler := {
  C_URLFilters : list Regexp;
  C_DisallowedURLFilters : list Regexp;
  LinkFinderCollector_URLFilters : list Regexp;
  site : url.URL;
  domain : string;
  Input : string;
  Quiet : bool;
  JsonOutput : bool;
  length : bool;
  raw : bool;
  hasOutput : bool;               (* crawler.Output != nil *)
  filterLengthSlice : list Z;
  emit : EmitFilter
}.

(** A line handed to [emitLine].  [kind] is the key [emitLine] was called
    with, the one the emit filter tests; it need not be the label the
    text carries ([feedLinkfinder] passes the key [javascript] also for a
    line labelled [linkfinder]). *)
Record Line := {
  kind : string;
  text : string
}.

Inductive Collector := MainCollector | LinkFinderCollector.

(** A request handed to a collector by [Visit]. *)
Record Request := {
  via : Collector;
  target : string
}.

(** The mutable state of one target's run: the dedupers, the lines
    printed so far, the lines written to the output file, and the
    requests queued, all oldest first. *)
Record State := {
  subSet : StringFilter;
  awsSet : StringFilter;
  jsSet : StringFilter;
  urlSet : StringFilter;
  formSet : StringFilter;
  uploadFormSet : StringFilter;
  out : list Line;
  file : list string;
  visits : list Request
}.

Definition initState : State :=
  {| subSet := []; awsSet := []; jsSet := []; urlSet := []; formSet := [];
     uploadFormSet := []; out := []; file := []; visits := [] |}.

Definition with_out (st : State) (o : list Line) (f : list string) : State :=
  {| subSet := subSet st; awsSet := awsSet st; jsSet := jsSet st; urlSet := urlSet st;
     formSet := formSet st; uploadFormSet := uploadFormSet st;
     out := o; file := f; visits := visits st |}.

Definition with_visits (st : State) (v : list Request) : State :=
  {| subSet := subSet st; awsSet := awsSet st; jsSet := jsSet st; urlSet := urlSet st;
     formSet := formSet st; uploadFormSet := uploadFormSet st;
     out := out st; file := file st; visits := v |}.

Definition with_sets (st : State) (sub aws js urls form upload : StringFilter) : State :=
  {| subSet := sub; awsSet := aws; jsSet := js; urlSet := urls;
     formSet := form; uploadFormSet := upload;
     out := out st; file := file st; visits := visits st |}.

Definition WriteToFile (cr : Crawler) (st : State) (msg : string) : State :=
  if hasOutput cr then with_out st (out st) (file st ++ [msg]) else st.

Definition emitLine (cr : Crawler) (st : State) (k line : string) : State :=
  if negb (EmitFilter_OK (emit cr) k) then st
  else WriteToFile cr (with_out st (out st ++ [{| kind := k; text := line |}]) (file st)) line.

Definition Visit (c : Collector) (u : string) (st : State) : State :=
  with_visits st (visits st ++ [{| via := c; target := u |}]).

Definition dup_js (st : State) (s : string) : bool * State :=
  let '(d, f) := Duplicate (jsSet st) s in
  (d, with_sets st (subSet st) (awsSet st) f (urlSet st) (formSet st) (uploadFormSet st)).

Definition dup_url (st : State) (s : string) : bool * State :=
  let '(d, f) := Duplicate (urlSet st) s in
  (d, with_sets st (subSet st) (awsSet st) (jsSet st) f (formSet st) (uploadFormSet st)).

Definition dup_sub (st : State) (s : string) : bool * State :=
  let '(d, f) := Duplicate (subSet st) s in
  (d, with_sets st f (awsSet st) (jsSet st) (urlSet st) (formSet st) (uploadFormSet st)).

Definition dup_aws (st : State) (s : string) : bool * State :=
  let '(d, f) := Duplicate (awsSet st) s in
  (d, with_sets st (subSet st) f (jsSet st) (urlSet st) (formSet st) (uploadFormSet st)).

Definition dup_form (st : State) (s : string) : bool * State :=
  let '(d, f) := Duplicate (formSet st) s in
  (d, with_sets st (subSet st) (awsSet st) (jsSet st) (urlSet st) f (uploadFormSet st)).

Definition dup_upload (st : State) (s : string) : bool * State :=
  let '(d, f) := Duplicate (uploadFormSet st) s in
  (d, with_sets st (subSet st) (awsSet st) (jsSet st) (urlSet st) (formSet st) f).

Section Crawl.
Context {libs : Libraries}.

(** The line for one record of a given type: the plain form
    ["[type] - output"], the JSON object when [--json] is set (and the
    encoder succeeds), the bare output when [--quiet] is. *)
Definition formatRecord (cr : Crawler) (plain : string) (sout : SpiderOutput) : string :=
  if JsonOutput cr then
    match MarshalToString sout with
    | Some data => data
    | None => plain
    end
  else if Quiet cr then so_Output sout
  else plain.

(** [emitURL]: the one place that prints records of kind url. *)
Definition urlLine (cr : Crawler) (status n : Z) (u : string) : string :=
  let out0 := "[url] - [code-" ++ itoa status ++ "] - " ++ u in
  let out1 :=
    if length cr
    then "[url] - [code-" ++ itoa status ++ "] - [len_" ++ itoa n ++ "] - " ++ u
    else out0 in
  formatRecord cr out1
    {| so_Input := Input cr; so_Source := "body"; so_OutputType := "url";
       so_Output := u; so_StatusCode := status; so_Length := n |}.

Definition emitURL (cr : Crawler) (st : State) (status n : Z) (u : string) : State :=
  emitLine cr st "url" (urlLine cr status n u).

Definition GetDomain (site : url.URL) : string :=
  match EffectiveTLDPlusOne (url.URL_Hostname site) with
  | Some d => d
  | None => ""
  end.

(** The flags [NewCrawler] reads; the three user patterns are given
    compiled ([None] for an empty flag). *)
Record Flags := {
  flag_quiet : bool;
  flag_json : bool;
  flag_length : bool;
  flag_raw : bool;
  flag_subs : bool;
  flag_output : bool;
  flag_blacklist : option Regexp;
  flag_whitelist : option Regexp;
  flag_whitelist_domain : string;
  flag_filter_length : list Z;
  flag_emit : EmitFilter
}.

(** The scope set-up of [NewCrawler]: the URL filters of the primary
    collector. *)
Definition primaryFilters (siteU : url.URL) (dom : string) (fl : Flags)
    (scopeOverride : option ScopeOverride) : list Regexp :=
  let filters0 :=
    match scopeOverride with
    | Some so => [scopeRE (AllowSubs so) (Domain so)]
    | None => []
    end in
  let flagSubs :=
    match scopeOverride with
    | Some _ => flag_subs fl
    | None => if strings.EqualFold (url.URL_Hostname siteU) dom then true else flag_subs fl
    end in
  let filters1 :=
    match flag_whitelist fl with
    | Some w => [w]
    | None => filters0
    end in
  let filters2 :=
    if negb (flag_whitelist_domain fl =? "")
    then [scopeHostOnly (flag_whitelist_domain fl)]
    else filters1 in
  match filters2 with
  | [] =>
      if flagSubs then [scopeWithSubs dom]
      else [scopeHostOnly (url.URL_Hostname siteU)]
  | _ :: _ => filters2
  end.

(** ... and those of the JS sub-collector. *)
Definition linkFinderFilters (fl : Flags) (scopeOverride : option ScopeOverride)
    (primary : list Regexp) : list Regexp :=
  let f0 := match flag_whitelist fl with Some w => [w] | None => [] end in
  let f1 :=
    if negb (flag_whitelist_domain fl =? "")
    then (f0 ++ [scopeHostOnly (flag_whitelist_domain fl)])%list
    else f0 in
  let f2 :=
    match scopeOverride, f1 with
    | Some so, [] => [scopeRE (AllowSubs so) (Domain so)]
    | _, _ => f1
    end in
  match f2 with
  | [] => primary
  | _ :: _ => f2
  end.

(** [NewCrawler]; [None] when the domain cannot be determined (the
    program exits). *)
Definition NewCrawler (siteU : url.URL) (fl : Flags)
    (scopeOverride : option ScopeOverride) : option Crawler :=
  let dom := GetDomain siteU in
  if dom =? "" then None
  else
    let primary := primaryFilters siteU dom fl scopeOverride in
    Some {| C_URLFilters := primary;
            C_DisallowedURLFilters :=
              disallowedExtRE ::
              match flag_blacklist fl with Some b => [b] | None => [] end;
            LinkFinderCollector_URLFilters := linkFinderFilters fl scopeOverride primary;
            site := siteU;
            domain := dom;
            Input := url.URL_String siteU;
            Quiet := flag_quiet fl;
            JsonOutput := flag_json fl;
            length := flag_length fl;
            raw := flag_raw fl;
            hasOutput := flag_output fl;
            filterLengthSlice := flag_filter_length fl;
            emit := flag_emit fl |}.

(** [normalizeTarget] (main.go). *)
Definition normalizeTarget (raw0 : string) : url.URL * option ScopeOverride :=
  let raw := strings.TrimSpace raw0 in
  if raw =? "" then (url.emptyURL, None)
  else if strings.Contains raw "://" then
    match url.Parse raw with
    | None => (url.emptyURL, None)
    | Some u => (u, None)
    end
  else
    match url.Parse ("https://" ++ raw) with
    | None => (url.emptyURL, None)
    | Some u =>
        let apex := GetDomain u in
        let apex := if apex =? "" then url.Host u else apex in
        (u, Some {| Domain := apex; AllowSubs := true |})
    end.

(** [feedLinkfinder]: always emit the asset, visit it only in scope. *)
Definition feedLinkfinder (cr : Crawler) (st : State)
    (jsFileUrl OutputType source : string) : State :=
  let '(dup, st) := dup_js st jsFileUrl in
  if dup then st
  else
    match url.Parse jsFileUrl with
    | None => st
    | Some abs =>
        let jsFileUrl := canonicalizeURL abs in
        let inScope := InScope abs (C_URLFilters cr) in
        let outputFormat :=
          formatRecord cr ("[" ++ OutputType ++ "] - " ++ jsFileUrl)
            (mkOutput (Input cr) source OutputType jsFileUrl) in
        let st := emitLine cr st "javascript" outputFormat in
        if negb inScope then st
        else
          let st :=
            if strings.Contains jsFileUrl ".min.js"
            then Visit LinkFinderCollector (strings.ReplaceAll jsFileUrl ".min.js" ".js") st
            else st in
          Visit LinkFinderCollector jsFileUrl st
    end.

(** ** Helpers *)

(** [decodeReplacer]: the two six-byte escapes, a backslash (byte 92)
    followed by [u002f] and by [u0026], replaced by [/] and [&] from left
    to right. *)
Definition escapedSlash : string := String "092" "u002f".
Definition escapedAmp : string := String "092" "u0026".

Fixpoint decodeReplacer_skip (skip : nat) (s : string) : string :=
  match s with
  | "" => ""
  | String c s' =>
      match skip with
      | S k => decodeReplacer_skip k s'
      | O =>
          if String.prefix escapedSlash s then String "/" (decodeReplacer_skip 5 s')
          else if String.prefix escapedAmp s then String "&" (decodeReplacer_skip 5 s')
          else String c (decodeReplacer_skip 0 s')
      end
  end.

Definition decodeReplacer_Replace (s : string) : string := decodeReplacer_skip 0 s.

Definition DecodeChars (s : string) : string :=
  decodeReplacer_Replace
    match url.QueryUnescape s with
    | Some source => source
    | None => s
    end.

Fixpoint contains (ii : list Z) (j : Z) : bool :=
  match ii with
  | [] => false
  | v :: rest => if (v =? j)%Z then true else contains rest j
  end.

Fixpoint Unique_from (seen : list string) (l : list string) : list string :=
  match l with
  | [] => []
  | x :: rest =>
      if mem x seen then Unique_from seen rest
      else x :: Unique_from (x :: seen) rest
  end.

Definition Unique (l : list string) : list string := Unique_from [] l.

(** [newlineRE.ReplaceAllString(s, " ")]: every run of tabs, carriage
    returns and line feeds becomes one space. *)
Fixpoint newlineRE_replace (inRun : bool) (s : string) : string :=
  match s with
  | "" => ""
  | String c s' =>
      if byte_in c (String "009" (String "013" (String "010" ""))) then
        if inRun then newlineRE_replace true s'
        else String " " (newlineRE_replace true s')
      else String c (newlineRE_replace false s')
  end.

Definition FilterNewLines (s : string) : string :=
  newlineRE_replace false (strings.TrimSpace s).

Definition FixUrl (mainSite : url.URL) (nextLoc : string) : string :=
  match url.Parse nextLoc with
  | None => ""
  | Some nextLocUrl => url.URL_String (ResolveReference mainSite nextLocUrl)
  end.

(** [path.Ext]: the suffix from the last dot of the last path element. *)
Fixpoint Ext_from (s : string) (best : string) : string :=
  match s with
  | "" => best
  | String c s' =>
      if Ascii.eqb c "/" then Ext_from s' ""
      else if Ascii.eqb c "." then Ext_from s' s
      else Ext_from s' best
  end.

Definition path_Ext (p : string) : string := Ext_from p "".

Definition GetExtType (rawUrl : string) : string :=
  match url.Parse rawUrl with
  | None => ""
  | Some u => path_Ext (url.Path u)
  end.

Definition mimeChar (c : ascii) : bool := isAlnum c || byte_in c ".+-".

(** [^[a-zA-Z][a-zA-Z0-9.+-]*/[a-zA-Z0-9.+-]+$] *)
Definition mimeRE : Regexp :=
  Cats [Bol; Class isAlpha; Star (Class mimeChar); Lit "/"; Plus (Class mimeChar); Eol].

Definition digit : Regexp := Class isDigit.

(** [^\d{1,2}/\d{1,2}/\d{2,4}$] *)
Definition dateRE : Regexp :=
  Cats [Bol; digit; Opt digit; Lit "/"; digit; Opt digit; Lit "/";
        digit; digit; Opt digit; Opt digit; Eol].

Definition isNoiseToken (s0 : string) : bool :=
  let s := strings.TrimSpace s0 in
  if s =? "" then true
  else if MatchString mimeRE s then true
  else if MatchString dateRE s then true
  else if strings.Contains s "{{" || strings.Contains s "}}" then true
  else if strings.Contains s "/:" then true
  else false.

Definition isAbsoluteURL (s : string) : bool :=
  match url.Parse s with
  | Some u => negb (url.Scheme u =? "") && negb (url.Host u =? "")
  | None => false
  end.

Definition LinkFinder (source0 : string) : list string :=
  let source :=
    if (1000000 <? len source0)%Z
    then strings.ReplaceAll (strings.ReplaceAll source0 ";" (";" ++ String "013" (String "010" "")))
                            "," ("," ++ String "013" (String "010" ""))
    else source0 in
  let source := DecodeChars source in
  let links :=
    flat_map (fun m =>
                let matchGroup1 := FilterNewLines (nth 1 m "") in
                if matchGroup1 =? "" then [] else [matchGroup1])
             (linkFinderRegex_FindAllStringSubmatch source) in
  Unique links.

(** [fmt.Sscanf(s, "%d", &n)] on a text of signs and digits: one optional
    sign, then the longest run of digits, which must not be empty and must
    denote a number of the 64-bit range.  What follows the digits is not
    read. *)
Fixpoint digitsOf (s : string) : string :=
  match s with
  | "" => ""
  | String c s' => if isDigit c then String c (digitsOf s') else ""
  end.

Definition digitValue (c : ascii) : Z := Z.of_N (N_of_ascii c) - 48.

Fixpoint decimal (acc : Z) (s : string) : Z :=
  match s with
  | "" => acc
  | String c s' => decimal (10 * acc + digitValue c) s'
  end.

Definition Sscanf_d (s : string) : option Z :=
  let '(neg, rest) :=
    match s with
    | "" => (false, "")
    | String c r =>
        if Ascii.eqb c "+" then (false, r)
        else if Ascii.eqb c "-" then (true, r)
        else (false, s)
    end in
  let ds := digitsOf rest in
  if ds =? "" then None
  else
    let v := (if neg then - decimal 0 ds else decimal 0 ds)%Z in
    if (- 2 ^ 63 <=? v)%Z && (v <? 2 ^ 63)%Z then Some v else None.

Definition signOrDigit (ch : ascii) : bool :=
  Ascii.eqb ch "+" || Ascii.eqb ch "-" || isDigit ch.

Definition strconvAtoiSafe (s0 : string) : option Z :=
  let s := strings.TrimSpace s0 in
  if forallb signOrDigit (list_ascii_of_string s) then Sscanf_d s else None.

(** The loop of [NewCrawler] over the pieces of [--filter-length]: what
    is not a number is left out. *)
Definition parseFilterLength (filterLengthStr : string) : list Z :=
  if filterLengthStr =? "" then []
  else flat_map (fun s => match strconvAtoiSafe s with
                          | Some v => [v]
                          | None => []
                          end)
                (strings.Split filterLengthStr ",").

(** ** Grep *)

Definition SUBRE : string :=
  "(?i)(([a-zA-Z0-9]{1}|[_a-zA-Z0-9]{1}[_a-zA-Z0-9-]{0,61}[a-zA-Z0-9]{1})[.]{1})+".

Definition AWSS3 : string :=
  "(?i)[a-z0-9.-]+\.s3\.amazonaws\.com|[a-z0-9.-]+\.s3-[a-z0-9-]\.amazonaws\.com|[a-z0-9.-]+\.s3-website[.-](eu|ap|us|ca|sa|cn)|//s3\.amazonaws\.com/[a-z0-9._-]+|//s3-[a-z0-9-]+\.amazonaws\.com/[a-z0-9._-]+".

Definition residues : list string := ["20"; "25"; "2b"; "2f"; "3d"; "3a"; "40"].

(** [(?i)^((20)|(25)|(2b)|(2f)|(3d)|(3a)|(40))+] *)
Definition nameStripRE : Regexp :=
  Cat Bol (Plus (Alts (map LitFold residues))).

(** The loop of [cleanName]: cut the match off the front until the
    pattern no longer matches. *)
Fixpoint cleanName_loop (fuel : nat) (name : string) : string :=
  match fuel with
  | O => name
  | S k =>
      match FindStringIndex nameStripRE name with
      | Some (_, e) => cleanName_loop k (drop e name)
      | None => name
      end
  end.

Definition cleanName (name0 : string) : string :=
  let name := cleanName_loop (S (String.length name0)) name0 in
  let name := strings.Trim name "-" in
  match name with
  | String c (String _ _ as rest) => if Ascii.eqb c "." then rest else name
  | _ => name
  end.

Definition CleanSubdomain (s : string) : string :=
  let s := strings.TrimSpace (strings.ToLower s) in
  let s := strings.TrimPrefix s "*." in
  cleanName s.

Definition subdomainRegex (dom : string) : string :=
  SUBRE ++ strings.ReplaceAll dom "." "[.]".

Definition GetSubdomains (source dom : string) : list string :=
  map CleanSubdomain (FindAllString (subdomainRegex dom) source).

Definition GetAWSS3 (source : string) : list string :=
  map DecodeChars (FindAllString AWSS3 source).

Definition findSubdomains_one (cr : Crawler) (st : State) (sub : string) : State :=
  let '(dup, st) := dup_sub st sub in
  if dup then st
  else if JsonOutput cr then
    match MarshalToString (mkOutput (Input cr) "body" "subdomain" sub) with
    | Some data => emitLine cr st "subdomains" data
    | None => st
    end
  else if negb (Quiet cr) then
    let st := emitLine cr st "subdomains" ("[subdomains] - http://" ++ sub) in
    emitLine cr st "subdomains" ("[subdomains] - https://" ++ sub)
  else emitLine cr st "subdomains" sub.

Definition findSubdomains (cr : Crawler) (st : State) (resp : string) : State :=
  fold_left (findSubdomains_one cr) (GetSubdomains resp (domain cr)) st.

Definition findAWSS3_one (cr : Crawler) (st : State) (e : string) : State :=
  let '(dup, st) := dup_aws st e in
  if dup then st
  else emitLine cr st "aws"
         (formatRecord cr ("[aws-s3] - " ++ e) (mkOutput (Input cr) "body" "aws" e)).

Definition findAWSS3 (cr : Crawler) (st : State) (resp : string) : State :=
  fold_left (findAWSS3_one cr) (GetAWSS3 resp) st.

(** ** The collector callbacks of [Start] and [setupLinkFinder] *)

Record Response := {
  StatusCode : Z;
  Body : string;
  Request_URL : url.URL;
  ContentType : string            (* Headers.Get("Content-Type") *)
}.

Record HTMLElement := {
  Name : string;
  Attr : string -> string;
  AbsoluteURL : string -> string;  (* e.Request.AbsoluteURL *)
  PageURL : url.URL                (* e.Request.URL *)
}.

Definition scriptLike (ext : string) : bool :=
  (ext =? ".js") || (ext =? ".xml") || (ext =? ".json") || (ext =? ".map").

(** The line of a linkfinder hit; empty when the JSON encoder fails. *)
Definition linkfinderLine (cr : Crawler) (source u : string) : string :=
  if JsonOutput cr then
    match MarshalToString (mkOutput (Input cr) source "linkfinder" u) with
    | Some data => data
    | None => ""
    end
  else if Quiet cr then u
  else "[linkfinder] - " ++ u.

Definition emitLinkfinder (cr : Crawler) (st : State) (source u : string) : State :=
  let out := linkfinderLine cr source u in
  let st := if negb (out =? "") then emitLine cr st "linkfinder" out else st in
  Visit MainCollector u st.

(** One token found by [LinkFinder] in a body.  The two response
    callbacks run the same steps; they differ in the base the token is
    resolved against, in the source they report and in the source they
    pass on to [feedLinkfinder]. *)
Definition linkfinderToken (cr : Crawler) (base : url.URL) (source feedSource : string)
    (st : State) (relPath : string) : State :=
  if isNoiseToken relPath then st
  else if isAbsoluteURL relPath then
    match url.Parse relPath with
    | None => st
    | Some uAbs =>
        if negb (InScope uAbs (C_URLFilters cr)) then st
        else
          let absURL := canonicalizeURL uAbs in
          let '(dup, st) := dup_url st absURL in
          if dup then st else emitLinkfinder cr st source absURL
    end
  else
    let rebuildURL := FixUrl base relPath in
    if rebuildURL =? "" then st
    else
      match url.Parse rebuildURL with
      | None => st
      | Some uReb =>
          if negb (InScope uReb (C_URLFilters cr)) then st
          else
            let rebuildURL := canonicalizeURL uReb in
            if scriptLike (GetExtType rebuildURL)
            then feedLinkfinder cr st rebuildURL "linkfinder" feedSource
            else
              let '(dup, st) := dup_url st rebuildURL in
              if dup then st else emitLinkfinder cr st source rebuildURL
      end.

Definition emitRaw (cr : Crawler) (st : State) (respStr : string) : State :=
  if raw cr then
    let rawLine := "[Raw] - " ++ String "010" respStr ++ String "010" "" in
    if negb (Quiet cr) then emitLine cr st "raw" rawLine
    else WriteToFile cr st rawLine
  else st.

Definition passesLengthFilter (cr : Crawler) (bodyLen : Z) : bool :=
  match filterLengthSlice cr with
  | [] => true
  | _ :: _ => negb (contains (filterLengthSlice cr) bodyLen)
  end.

(** [crawler.C.OnResponse]: the response callback of the primary
    collector. *)
Definition OnResponse (cr : Crawler) (st : State) (response : Response) : State :=
  let body := Body response in
  let u := url.URL_String (Request_URL response) in
  let decoded := (len body <=? maxGrepBody)%Z in
  let respStr := if decoded then DecodeChars body else "" in
  let bodyLen := if decoded then len respStr else len body in
  if passesLengthFilter cr bodyLen then
    let st := emitURL cr st (StatusCode response) bodyLen u in
    if decoded && InScope (Request_URL response) (C_URLFilters cr) then
      let st := findSubdomains cr st respStr in
      let st := findAWSS3 cr st respStr in
      let ct := strings.ToLower (ContentType response) in
      let st :=
        if strings.Contains ct "text/html" || strings.Contains ct "application/xhtml"
           || (ct =? "")
        then fold_left (linkfinderToken cr (Request_URL response) u "html")
                       (LinkFinder respStr) st
        else st in
      emitRaw cr st respStr
    else st
  else st.

(** [crawler.C.OnError]: the error callback of the primary collector. *)
Definition OnError (cr : Crawler) (st : State) (response : Response) : State :=
  if (StatusCode response =? 404)%Z || (StatusCode response =? 429)%Z
     || (StatusCode response <? 100)%Z || (500 <=? StatusCode response)%Z
  then st
  else emitURL cr st (StatusCode response) (len (Body response))
                (url.URL_String (Request_URL response)).

(** [crawler.LinkFinderCollector.OnResponse]: the response callback of the
    JS sub-collector, installed by [setupLinkFinder]. *)
Definition LinkFinder_OnResponse (cr : Crawler) (st : State) (response : Response) : State :=
  if (StatusCode response =? 404)%Z || (StatusCode response =? 429)%Z
     || (StatusCode response <? 100)%Z
  then st
  else
    let body := Body response in
    let u := url.URL_String (Request_URL response) in
    if (maxGrepBody <? len body)%Z then
      emitURL cr st (StatusCode response) (len body) u
    else
      let respStr := DecodeChars body in
      let bodyLen := len respStr in
      if passesLengthFilter cr bodyLen then
        let st := emitURL cr st (StatusCode response) bodyLen u in
        if InScope (Request_URL response) (C_URLFilters cr) then
          let st := findSubdomains cr st respStr in
          let st := findAWSS3 cr st respStr in
          let base :=
            match url.Parse u with
            | Some currentPathURL => currentPathURL
            | None => site cr
            end in
          let st := fold_left (linkfinderToken cr base u "javascript")
                              (LinkFinder respStr) st in
          emitRaw cr st respStr
        else st
      else st.

(** [crawler.C.OnHTML]: the element callback for
    [a[href], link[href], script[src], form[action], input[type='file']]. *)
Definition OnHTML (cr : Crawler) (st : State) (e : HTMLElement) : State :=
  if (Name e =? "a") || (Name e =? "link") then
    let urlString := FixUrl (site cr) (AbsoluteURL e (Attr e "href")) in
    if urlString =? "" then st
    else if MatchString disallowedExtRE urlString then st
    else
      match url.Parse urlString with
      | None => st
      | Some abs =>
          if negb (InScope abs (C_URLFilters cr)) then st
          else
            let urlString := canonicalizeURL abs in
            let '(dup, st) := dup_url st urlString in
            if dup then st
            else
              let st :=
                emitLine cr st "href"
                  (formatRecord cr ("[href] - " ++ urlString)
                     (mkOutput (Input cr) "body" "href" urlString)) in
              Visit MainCollector urlString st
      end
  else if Name e =? "form" then
    let formUrl := url.URL_String (PageURL e) in
    let '(dup, st) := dup_form st formUrl in
    if dup then st
    else emitLine cr st "form"
           (formatRecord cr ("[form] - " ++ formUrl)
              (mkOutput (Input cr) "body" "form" formUrl))
  else if Name e =? "input" then
    let uploadUrl := url.URL_String (PageURL e) in
    let '(dup, st) := dup_upload st uploadUrl in
    if dup then st
    else emitLine cr st "upload-form"
           (formatRecord cr ("[upload-form] - " ++ uploadUrl)
              (mkOutput (Input cr) "body" "upload-form" uploadUrl))
  else if Name e =? "script" then
    let jsFileUrl := FixUrl (site cr) (AbsoluteURL e (Attr e "src")) in
    if jsFileUrl =? "" then st
    else
      let fileExt := GetExtType jsFileUrl in
      if (fileExt =? ".js") || (fileExt =? ".xml") || (fileExt =? ".json")
      then feedLinkfinder cr st jsFileUrl "javascript" "body"
      else st
  else st.

(** ** The render manager (render.go)

    [StartRenderManager] keeps a budget, a queue of at most 64 URLs seeded
    with the start URL, and a deduper of its own.  Its goroutine runs
    [for budget > 0 { select { ... } }]; one turn of that loop either takes
    a URL from the queue or, the queue being empty, lets the idle timer
    fire.  Real time (the per-page timeout, the three-second idle tick) is
    not modelled. *)

Record RenderManager := {
  budget : Z;
  queue : list string;
  seenRender : StringFilter
}.

Definition StartRenderManager (cr : Crawler) (budget0 : Z) : RenderManager :=
  {| budget := if (budget0 <=? 0)%Z then 6 else budget0;
     queue := [url.URL_String (site cr)];
     seenRender := NewStringFilter |}.

Definition inScopeStr (raw : string) (filters : list Regexp) : bool :=
  match url.Parse raw with
  | None => false
  | Some u => InScope u filters
  end.

(** The [OnResponse] hook that feeds small HTML pages to the queue. *)
Definition render_OnResponse (rm : RenderManager) (r : Response) : RenderManager :=
  if (budget rm <=? 0)%Z then rm
  else
    let ct := strings.ToLower (ContentType r) in
    if strings.Contains ct "text/html" && (len (Body r) <? 60 * 1024)%Z then
      if (List.length (queue rm) <? 64)%nat
      then {| budget := budget rm;
              queue := (queue rm ++ [url.URL_String (Request_URL r)])%list;
              seenRender := seenRender rm |}
      else rm
    else rm.

(** One turn of the render loop. *)
Definition render_turn (cr : Crawler) (rm : RenderManager) (st : State)
  : RenderManager * State :=
  if (budget rm <=? 0)%Z then (rm, st)
  else
    match queue rm with
    | [] => (rm, st)
    | u :: rest =>
        if u =? "" then
          ({| budget := budget rm; queue := rest; seenRender := seenRender rm |}, st)
        else
          let '(dup, seen) := Duplicate (seenRender rm) u in
          if dup then ({| budget := budget rm; queue := rest; seenRender := seen |}, st)
          else if negb (inScopeStr u (C_URLFilters cr)) then
            ({| budget := budget rm; queue := rest; seenRender := seen |}, st)
          else
            ({| budget := (budget rm - 1)%Z; queue := rest; seenRender := seen |},
             emitLine cr st "render" ("[render] - " ++ u))
    end.

(** The listener for [network.EventRequestWillBeSent]. *)
Definition render_network (cr : Crawler) (st : State) (xhrOrFetch : bool)
    (reqURL : string) : State :=
  if xhrOrFetch && inScopeStr reqURL (C_URLFilters cr) then
    let '(dup, st) := dup_url st reqURL in
    if dup then st
    else emitLine cr (Visit MainCollector reqURL st) "network" ("[network] - " ++ reqURL)
  else st.

(** ** One target's run

    The collectors and the renderer call the callbacks above as responses
    and elements arrive; a run is the sequence of these calls.  [render]
    is [None] when the render pass is disabled.

    The program runs the callbacks concurrently ([colly.Async], the
    parallelism of the limit rule); a run here is one interleaving of
    whole callbacks, each taken as one step, and the events are not
    restricted to those the collectors can produce.  What is proved of
    every run is stated for every sequence of events, so it does not
    depend on which interleaving takes place; the order of lines between
    callbacks, and of the file against the screen, is not claimed.  The
    file of the state lists what this run appends (the program opens the
    file for appending). *)

Inductive Event :=
| HTMLEvent (e : HTMLElement)
| ResponseEvent (r : Response)
| ErrorEvent (r : Response)
| LinkFinderResponseEvent (r : Response)
| RenderTurn
| NetworkEvent (xhrOrFetch : bool) (reqURL : string).

Record Run := {
  crawl : State;
  render : option RenderManager
}.

Definition step (cr : Crawler) (linkfinder : bool) (w : Run) (ev : Event) : Run :=
  match ev with
  | HTMLEvent e => {| crawl := OnHTML cr (crawl w) e; render := render w |}
  | ResponseEvent r =>
      {| crawl := OnResponse cr (crawl w) r;
         render := option_map (fun rm => render_OnResponse rm r) (render w) |}
  | ErrorEvent r => {| crawl := OnError cr (crawl w) r; render := render w |}
  | LinkFinderResponseEvent r =>
      if linkfinder
      then {| crawl := LinkFinder_OnResponse cr (crawl w) r; render := render w |}
      else w
  | RenderTurn =>
      match render w with
      | Some rm =>
          let '(rm', st') := render_turn cr rm (crawl w) in
          {| crawl := st'; render := Some rm' |}
      | None => w
      end
  | NetworkEvent x reqURL =>
      match render w with
      | Some rm =>
          if (0 <? budget rm)%Z
          then {| crawl := render_network cr (crawl w) x reqURL; render := render w |}
          else w
      | None => w
      end
  end.

(** A run from a fresh state; [renderBudget] is [Some b] when [--render]
    is set with [--render-budget b]. *)
Definition startRun (cr : Crawler) (renderBudget : option Z) : Run :=
  {| crawl := initState;
     render := option_map (StartRenderManager cr) renderBudget |}.

Definition run (cr : Crawler) (linkfinder : bool) (renderBudget : option Z)
    (events : list Event) : Run :=
  fold_left (step cr linkfinder) events (startRun cr renderBudget).

Definition linesOfKind (k : string) (l : list Line) : list Line :=
  filter (fun ln => kind ln =? k) l.

(** ** Which callback a fetch reaches

    The callbacks are called by the colly collectors, and which one a
    finished fetch reaches is decided there ([Collector.fetch] and
    [handleOnError] of the library), not in this repository.  A fetch
    that failed in transport, or that was answered with a status of 203
    or more, goes to the error callbacks of its collector, with a
    response that carries the status (0 and an empty body after a
    transport failure); its response callbacks are not called.  Every
    other fetch goes to the response callbacks.  The collector field
    [ParseHTTPErrorResponse], which would send every answer to the
    response callbacks, is never set by [NewCrawler].

    The primary collector has the error callback [OnError].  The JS
    sub-collector is [c.Clone()], which copies no callbacks, and
    [setupLinkFinder] registers a response callback only: a fetch of the
    sub-collector that goes to the error callbacks reaches no callback at
    all.  ([fetchOnce] registers both callbacks on its own clone.)  An
    error met after the response callbacks, while the body is parsed for
    the element callbacks, is not modelled. *)
Inductive Fetch :=
| Failed (u : url.URL)            (* err != nil: no answer was read *)
| Answered (r : Response).

Definition delivered (f : Fetch) : Response :=
  match f with
  | Failed u => {| StatusCode := 0; Body := ""; Request_URL := u; ContentType := "" |}
  | Answered r => r
  end.

Definition toErrorCallbacks (f : Fetch) : bool :=
  match f with
  | Failed _ => true
  | Answered r => (203 <=? StatusCode r)%Z
  end.

Definition deliver (cr : Crawler) (linkfinder : bool) (w : Run) (c : Collector)
    (f : Fetch) : Run :=
  match c with
  | MainCollector =>
      if toErrorCallbacks f
      then step cr linkfinder w (ErrorEvent (delivered f))
      else step cr linkfinder w (ResponseEvent (delivered f))
  | LinkFinderCollector =>
      if toErrorCallbacks f then w
      else step cr linkfinder w (LinkFinderResponseEvent (delivered f))
  end.

(** ** Robots

    One line of robots.txt in [ParseRobots]: what follows the last
    [Allow:] or [Disallow:] is resolved against the start URL, printed and
    handed to the primary collector. *)
Definition robots_line (cr : Crawler) (st : State) (line : string) : State :=
  if strings.Contains (strings.ToLower line) "llow:" then
    let u := ReplaceAllString_empty allowDisallowStripRE line in
    let u := FixUrl (site cr) (strings.TrimSpace u) in
    if u =? "" then st
    else
      let outputFormat :=
        formatRecord cr ("[robots] - " ++ u) (mkOutput (Input cr) "robots" "url" u) in
      Visit MainCollector u (emitLine cr st "robots" outputFormat)
  else st.

(** [ParseRobots]; [fetched] is what [fetchOnce] returned for
    [site.String() + "/robots.txt"]: [None] for an error, else the body
    and the status. *)
Definition ParseRobots (cr : Crawler) (st : State) (fetched : option (string * Z))
  : State :=
  match fetched with
  | None => st
  | Some (body, status) =>
      if negb (status =? 200)%Z || (body =? "") then st
      else fold_left (robots_line cr) (strings.Split body (String "010" "")) st
  end.

(** ** Other sources (main.go)

    The body of the loop of [run] over the URLs that [OtherSources]
    returns.  With [--include-other-source] the line is printed with
    [fmt.Println] and written to the output file directly, not through
    [emitLine]; the URL is handed to the primary collector in any case. *)
Definition otherSource_one (cr : Crawler) (includeOtherSourceResult : bool)
    (st : State) (u0 : string) : State :=
  let u := strings.TrimSpace u0 in
  if u =? "" then st
  else
    let outputFormat :=
      formatRecord cr ("[other-sources] - " ++ u)
        (mkOutput (Input cr) "other-sources" "url" u) in
    let st :=
      if includeOtherSourceResult
      then WriteToFile cr
             (with_out st (out st ++ [{| kind := "other-sources"; text := outputFormat |}])
                       (file st))
             outputFormat
      else st in
    Visit MainCollector u st.

Definition otherSources_loop (cr : Crawler) (includeOtherSourceResult : bool)
    (urls : list string) (st : State) : State :=
  fold_left (otherSource_one cr includeOtherSourceResult) urls st.

End Crawl.

(** * Specifications and example inputs

    The predicates the properties below are stated with, the second
    definitions that follow the specification's words, and the concrete
    crawlers, responses and elements the examples run on. *)

(** [extends P st st']: the output of [st'] is that of [st] followed by
    lines that satisfy [P]. *)
Definition extends (P : Line -> Prop) (st st' : State) : Prop :=
  exists l, out st' = (out st ++ l)%list /\ Forall P l.

(** The URL [http://[::80]:80/], parsed. *)
Definition ipv6_default_port : url.URL :=
  {| url.Scheme := "http"; url.Opaque := ""; url.User := None;
     url.Host := "[::80]:80"; url.Path := "/"; url.RawPath := "";
     url.OmitHost := false; url.ForceQuery := false; url.RawQuery := "";
     url.Fragment := ""; url.RawFragment := "" |}.

(** Canonical idempotence as the specification states it: the canonical
    string of a parseable URL parses again, and canonicalises to itself. *)
Definition canonical_idempotence : Prop :=
  forall raw u, url.Parse raw = Some u ->
    option_map canonicalizeURL (url.Parse (canonicalizeURL u))
    = Some (canonicalizeURL u).

(** The test of [canonicalizeURL] for the default port of the scheme. *)
Definition hasDefaultPort (u : url.URL) : bool :=
  ((url.Scheme u =? "http") && (url.URL_Port u =? "80"))
  || ((url.Scheme u =? "https") && (url.URL_Port u =? "443")).

(** The default rule of the public-suffix list: the suffix is the last
    label, the registrable domain the last two. *)
Definition defaultRule_TLDPlusOne (d : string) : option string :=
  match strings.LastIndex d "." with
  | None => None
  | Some i =>
      match strings.LastIndex (take i d) "." with
      | None => Some d
      | Some j => Some (drop (j + 1) d)
      end
  end.

(** An implementation of the libraries for the concrete runs: plain
    output (the JSON encoder is never reached), absolute references
    without dot segments (resolving them gives the reference itself),
    domains under a one-label public suffix, bodies in which the
    extraction patterns find nothing. *)
Definition exampleLibs : Libraries :=
  {| MarshalToString := fun _ => None;
     ResolveReference := fun _ ref => ref;
     EffectiveTLDPlusOne := defaultRule_TLDPlusOne;
     FindAllString := fun _ _ => [];
     linkFinderRegex_FindAllStringSubmatch := fun _ => [] |}.

Definition emitAll : EmitFilter := {| allowAll := true; allow := []; deny := [] |}.

Definition plainFlags : Flags :=
  {| flag_quiet := false; flag_json := false; flag_length := false;
     flag_raw := false; flag_subs := false; flag_output := false;
     flag_blacklist := None; flag_whitelist := None; flag_whitelist_domain := "";
     flag_filter_length := []; flag_emit := emitAll |}.

Definition httpsURL (host path query : string) : url.URL :=
  {| url.Scheme := "https"; url.Opaque := ""; url.User := None;
     url.Host := host; url.Path := path; url.RawPath := "";
     url.OmitHost := false; url.ForceQuery := false; url.RawQuery := query;
     url.Fragment := ""; url.RawFragment := "" |}.

(** The crawler for the target [https://a.test/] with default flags. *)
Definition crawler_a_test (fl : Flags) : Crawler :=
  {| C_URLFilters := [scopeWithSubs "a.test"];
     C_DisallowedURLFilters := [disallowedExtRE];
     LinkFinderCollector_URLFilters := [scopeWithSubs "a.test"];
     site := httpsURL "a.test" "/" "";
     domain := "a.test";
     Input := "https://a.test/";
     Quiet := flag_quiet fl; JsonOutput := flag_json fl; length := flag_length fl;
     raw := flag_raw fl; hasOutput := flag_output fl;
     filterLengthSlice := flag_filter_length fl;
     emit := flag_emit fl |}.

(** A body of [2^n] times the length of [s], for responses larger than
    the 4 MB cap. *)
Fixpoint doubled (n : nat) (s : string) : string :=
  match n with
  | O => s
  | S k => doubled k (s ++ s)
  end.

Definition response5xx : Response :=
  {| StatusCode := 500; Body := "oops";
     Request_URL := httpsURL "a.test" "/app.js" ""; ContentType := "text/plain" |}.

(** The answer 403 to the request for a script asset. *)
Definition response403 : Response :=
  {| StatusCode := 403; Body := "denied";
     Request_URL := httpsURL "a.test" "/app.js" ""; ContentType := "text/plain" |}.

Definition bigBody : string := doubled 23 "a".

Definition bigResponse : Response :=
  {| StatusCode := 403; Body := bigBody;
     Request_URL := httpsURL "a.test" "/big.js" ""; ContentType := "text/plain" |}.

Definition filterFlags : Flags :=
  {| flag_quiet := false; flag_json := false; flag_length := false;
     flag_raw := false; flag_subs := false; flag_output := false;
     flag_blacklist := None; flag_whitelist := None; flag_whitelist_domain := "";
     flag_filter_length := [8388608%Z]; flag_emit := emitAll |}.




(** A byte of ASCII text.  On such text the case folding of the patterns
    and of [strings.ToLower] is the byte-wise one of the definitions
    above. *)
Definition isAsciiByte (c : ascii) : bool := (N_of_ascii c <? 128)%N.


(** The page [https://a.test/] whose body is the one anchor
    [<a href="/file.png">], and libraries for it: a reference with an
    absolute path is resolved against the host of the base, and the
    linkfinder pattern finds the quoted path in the body (the match, its
    first group, and the five groups of the alternatives, of which the
    one for relative paths took part). *)
Definition quoted (s : string) : string := String dquote (s ++ String dquote "").


Definition assetLibs : Libraries :=
  {| MarshalToString := fun _ => None;
     ResolveReference := fun base ref =>
       if url.Host ref =? ""
       then httpsURL (url.Host base) (url.Path ref) (url.RawQuery ref)
       else ref;
     EffectiveTLDPlusOne := defaultRule_TLDPlusOne;
     FindAllString := fun _ _ => [];
     linkFinderRegex_FindAllStringSubmatch := fun source =>
       if strings.Contains source (quoted "/file.png")
       then [[quoted "/file.png"; "/file.png"; ""; "/file.png"; ""; ""; ""]] else [] |}.

(** The steps of the sub-domain cleaner as the claim words them, written
    without the library calls and the pattern of the code.

    Lower-casing: the 26 letters, by table. *)
Fixpoint translate (c : ascii) (from to : string) : ascii :=
  match from, to with
  | String a from', String b to' => if Ascii.eqb c a then b else translate c from' to'
  | _, _ => c
  end.

Definition lowerLetter (c : ascii) : ascii :=
  translate c "ABCDEFGHIJKLMNOPQRSTUVWXYZ" "abcdefghijklmnopqrstuvwxyz".

Fixpoint lowercase (s : string) : string :=
  match s with
  | "" => ""
  | String c s' => String (lowerLetter c) (lowercase s')
  end.

(** The residues of percent-encoding the claim lists, in either letter
    case. *)
Definition claimedResidues : list string := ["20"; "25"; "2b"; "2f"; "3d"; "3a"; "40"].

Definition isResidue (a b : ascii) : bool :=
  existsb (String.eqb (String (lowerLetter a) (String (lowerLetter b) ""))) claimedResidues.

Definition startsWithResidue (s : string) : bool :=
  match s with
  | String a (String b _) => isResidue a b
  | _ => false
  end.

Fixpoint dropResidues (s : string) : string :=
  match s with
  | String a (String b rest) => if isResidue a b then dropResidues rest else s
  | _ => s
  end.

Inductive ResidueRun : string -> Prop :=
| ResidueRun_nil : ResidueRun ""
| ResidueRun_cons a b rest :
    isResidue a b = true -> ResidueRun rest -> ResidueRun (String a (String b rest)).

Definition dropLeadingDot (name : string) : string :=
  match name with
  | String c (String _ _ as rest) => if Ascii.eqb c "." then rest else name
  | _ => name
  end.

Definition residueRE : Regexp := Alts (map LitFold residues).

(** A regexp search standing for the sub-domain pattern on one body: the
    body below holds a doubly encoded URL, so that the decoded text still
    carries the residue [2F] in front of the name; the match of the
    pattern is [2F-WWW.a.test]. *)
Definition matchLibs : Libraries :=
  {| MarshalToString := fun _ => None;
     ResolveReference := fun _ ref => ref;
     EffectiveTLDPlusOne := defaultRule_TLDPlusOne;
     FindAllString := fun pattern text =>
       if (pattern =? SUBRE ++ "a[.]test") && strings.Contains text "%2F-WWW.a.test"
       then ["2F-WWW.a.test"] else [];
     linkFinderRegex_FindAllStringSubmatch := fun _ => [] |}.

Definition encodedBody : Response :=
  {| StatusCode := 200; Body := "next=https%253A%252F%252F-WWW.a.test/";
     Request_URL := httpsURL "a.test" "/" ""; ContentType := "text/plain" |}.

(** [ends r b t t']: a match of [r] that starts at the text [t] (at the
    beginning of the whole text iff [b]) can stop with [t'] left. *)
Definition ends (r : Regexp) (b : bool) (t t' : string) : Prop :=
  exists b', In (b', t') (regexp.run r (b, t)).

(** Repetition of a relation between a text and what is left of it. *)
Inductive Iter (R : string -> string -> Prop) : string -> string -> Prop :=
| Iter_nil t : Iter R t t
| Iter_cons t tm t' : R t tm -> Iter R tm t' -> Iter R t t'.

Definition consumes (R : string -> string -> Prop) : Prop :=
  forall t t', R t t' -> (String.length t' < String.length t)%nat.

Definition allOf (p : ascii -> bool) (w : string) : Prop :=
  forallb p (list_ascii_of_string w) = true.

Definition isScheme (sch : string) : Prop := sch = "http" \/ sch = "https".

(** An optional port: nothing, or a colon and at least one digit. *)
Definition isPort (port : string) : Prop :=
  port = "" \/ exists ds, port = ":" ++ ds /\ ds <> "" /\ allOf isDigit ds.

(** What follows host and port: the end of the text, or a slash. *)
Definition endsHost (tail : string) : Prop := tail = "" \/ exists t, tail = "/" ++ t.

(** What [[^.]+] accepts: any non-empty run of bytes other than the dot. *)
Definition isLabel (l : string) : Prop := l <> "" /\ allOf notDot l.

Fixpoint dotted (labels : list string) : string :=
  match labels with
  | [] => ""
  | l :: rest => l ++ "." ++ dotted rest
  end.

Definition oneOf (p : ascii -> bool) (t t' : string) : Prop :=
  exists c, t = String c t' /\ p c = true.

Definition oneLabel (t t' : string) : Prop :=
  exists l, isLabel l /\ t = l ++ "." ++ t'.

Definition portThenEnd (t t' : string) : Prop :=
  exists port, isPort port /\ (t = port ++ "/" ++ t' \/ (t = port /\ t' = "")).

Definition digitsThen (t tm : string) : Prop :=
  exists ds, ds <> "" /\ allOf isDigit ds /\ t = ":" ++ ds ++ tm.

Definition schemePrefix (t t' : string) : Prop :=
  exists sch, isScheme sch /\ t = sch ++ "://" ++ t'.

Definition hostThenEnd (host : string) (t t' : string) : Prop :=
  exists tp, t = host ++ tp /\ portThenEnd tp t'.

Definition labelsThenHost (host : string) (t t' : string) : Prop :=
  exists tl, Iter oneLabel t tl /\ hostThenEnd host tl t'.

(** The host test of the redirect policy in [NewCrawler]
    ([client.CheckRedirect]): the target host is the base host or, with
    sub-domains allowed, ends in a dot and the base host. *)
Definition sameHost (tgt base : string) (allowSubs : bool) : bool :=
  (tgt =? base) || (allowSubs && strings.HasSuffix tgt ("." ++ base)).

Definition script (src : string) : HTMLElement :=
  {| Name := "script";
     Attr := fun a => if a =? "src" then src else "";
     AbsoluteURL := fun h => h;
     PageURL := httpsURL "example.com" "/" "" |}.

Definition link (href : string) : HTMLElement :=
  {| Name := "a";
     Attr := fun a => if a =? "href" then href else "";
     AbsoluteURL := fun h => h;
     PageURL := httpsURL "example.com" "/" "" |}.

(** The crawler [NewCrawler] builds for the bare-domain target
    [example.com] with default flags. *)
Definition crawler_example_com : Crawler :=
  {| C_URLFilters := [scopeWithSubs "example.com"];
     C_DisallowedURLFilters := [disallowedExtRE];
     LinkFinderCollector_URLFilters := [scopeWithSubs "example.com"];
     site := httpsURL "example.com" "" "";
     domain := "example.com";
     Input := "https://example.com";
     Quiet := false; JsonOutput := false; length := false; raw := false;
     hasOutput := false; filterLengthSlice := []; emit := emitAll |}.

(** Default flags with [--exclude-types csv]. *)
Definition excludeFlags (csv : string) : Flags :=
  {| flag_quiet := false; flag_json := false; flag_length := false;
     flag_raw := false; flag_subs := false; flag_output := false;
     flag_blacklist := None; flag_whitelist := None; flag_whitelist_domain := "";
     flag_filter_length := []; flag_emit := NewEmitFilter "" csv |}.

(** The three bytes of [newlineRE]: tab, carriage return, line feed. *)
Definition isNewlineByte (c : ascii) : bool :=
  byte_in c (String "009" (String "013" (String "010" ""))).

Definition notDotOrSlash (c : ascii) : bool :=
  negb (Ascii.eqb c ".") && negb (Ascii.eqb c "/").

(** A key that a comma-separated flag lists: a non-empty text that is
    the lower-cased, trimmed form of one of the flag's pieces. *)
Definition listed (csv k : string) : Prop :=
  k <> "" /\ exists p, In p (strings.Split csv ",") /\ emitKey p = k.

(** What [mimeRE] accepts: a letter, then letters, digits, dots, plus and
    minus signs, one slash, and at least one more byte of that class. *)
Definition mimeLike (s : string) : Prop :=
  exists a w1 w2,
    s = String a (w1 ++ "/" ++ w2)
    /\ isAlpha a = true /\ allOf mimeChar w1 /\ w2 <> "" /\ allOf mimeChar w2.

(** Bytes that [DecodeChars] leaves alone wherever they stand: all but
    the percent sign, the plus sign and the backslash (byte 92). *)
Definition plainByte (c : ascii) : bool :=
  negb (Ascii.eqb c "%") && negb (Ascii.eqb c "+") && negb (Ascii.eqb c "092").

(** Default flags with a length filter. *)
Definition lengthFlags (l : list Z) : Flags :=
  {| flag_quiet := false; flag_json := false; flag_length := false;
     flag_raw := false; flag_subs := false; flag_output := false;
     flag_blacklist := None; flag_whitelist := None; flag_whitelist_domain := "";
     flag_filter_length := l; flag_emit := emitAll |}.

(** The kinds of the lines that the scans of a body print, the
    linkfinder left out. *)
Definition grepLine (ln : Line) : Prop :=
  kind ln = "url" \/ kind ln = "subdomains" \/ kind ln = "aws" \/ kind ln = "raw".

(** Flags with [--types href]. *)
Definition hrefOnlyFlags : Flags :=
  {| flag_quiet := false; flag_json := false; flag_length := false;
     flag_raw := false; flag_subs := false; flag_output := false;
     flag_blacklist := None; flag_whitelist := None; flag_whitelist_domain := "";
     flag_filter_length := []; flag_emit := NewEmitFilter "href" "" |}.

(** Where the keyword of [allowDisallowStripRE] stands: [allowAt t] when
    [t] starts with [llow:] in any letter case, [noAllow t] when no
    position of [t] does. *)
Definition allowAt (t : string) : bool := strings.ToLower (take 5 t) =? "llow:".

Fixpoint noAllow (t : string) : bool :=
  negb (allowAt t)
  && match t with
     | "" => true
     | String _ t' => noAllow t'
     end.

(** The pattern after its leading [.*]. *)
Definition robotsTail : Regexp := Cat (LitFold "llow:") (Star (Class isReSpace)).

(** White space and the dash, by enumeration. *)
Definition isBlank (c : ascii) : bool :=
  byte_in c (String "009" (String "010" (String "011" (String "012" (String "013" " "))))).

Definition isDash (c : ascii) : bool := Ascii.eqb c "-".

(** [noEdge p t]: the text [t] neither starts nor ends with a byte of the
    class [p]. *)
Definition noEdge (p : ascii -> bool) (t : string) : Prop :=
  (forall c r, t = String c r -> p c = false)
  /\ (forall r c, t = r ++ String c "" -> p c = false).

(** [trimmedOf p s t]: [t] is [s] without the bytes of class [p] around
    it. *)
Definition trimmedOf (p : ascii -> bool) (s t : string) : Prop :=
  exists a b, s = a ++ t ++ b /\ allOf p a /\ allOf p b /\ noEdge p t.

(** [t] is [s] without a leading [*.], if it has one. *)
Definition withoutStar (s t : string) : Prop :=
  s = "*." ++ t \/ (t = s /\ forall r, s <> "*." ++ r).

(** [t] is [s] without its leading run of residues. *)
Definition withoutResidues (s t : string) : Prop :=
  exists pre, s = pre ++ t /\ ResidueRun pre /\ startsWithResidue t = false.

(** [t] is [s] without a leading dot, if more text follows the dot. *)
Definition withoutLeadingDot (s t : string) : Prop :=
  (exists c r, s = "." ++ String c r /\ t = String c r)
  \/ (t = s /\ forall c r, s <> "." ++ String c r).

(** [cleaned s r]: [r] is what the steps of the claim make of [s], in
    their order. *)
Definition cleaned (s r : string) : Prop :=
  exists t1 t2 t3 t4,
    trimmedOf isBlank (lowercase s) t1
    /\ withoutStar t1 t2
    /\ withoutResidues t2 t3
    /\ trimmedOf isDash t3 t4
    /\ withoutLeadingDot t4 r.

Section Predicates.
Context {libs : Libraries}.

Definition kindIs (k : string) (ln : Line) : Prop := kind ln = k.

(** A subdomains line carries the cleaned form of a match of the
    sub-domain pattern, in the shape of the output mode. *)
Definition subdomainText (cr : Crawler) (sub t : string) : Prop :=
  if JsonOutput cr
  then MarshalToString (mkOutput (Input cr) "body" "subdomain" sub) = Some t
  else if Quiet cr then t = sub
  else t = "[subdomains] - http://" ++ sub \/ t = "[subdomains] - https://" ++ sub.

Definition cleanedSubdomain (cr : Crawler) (ln : Line) : Prop :=
  kind ln = "subdomains"
  /\ exists body m,
       In m (FindAllString (subdomainRegex (domain cr)) body)
       /\ subdomainText cr (CleanSubdomain m) (text ln).

(** A linkfinder line is printed only for the canonical form of a URL
    that passed the scope check. *)
Definition scopedLinkfinder (cr : Crawler) (ln : Line) : Prop :=
  kind ln = "linkfinder"
  /\ exists abs source,
       InScope abs (C_URLFilters cr) = true
       /\ text ln = linkfinderLine cr source (canonicalizeURL abs).

(** The kinds a body scan can print: everything that follows the url
    record in the two response callbacks. *)
Definition scanLine (cr : Crawler) (ln : Line) : Prop :=
  cleanedSubdomain cr ln \/ kindIs "aws" ln \/ kindIs "javascript" ln
  \/ scopedLinkfinder cr ln \/ kindIs "raw" ln.

(** The length the primary callback [OnResponse] filters on and prints:
    of the decoded body up to the 4 MB cap, of the raw body above it. *)
Definition bodyLen (r : Response) : Z :=
  if (len (Body r) <=? maxGrepBody)%Z then len (DecodeChars (Body r)) else len (Body r).

Definition urlRecord (cr : Crawler) (r : Response) (n : Z) : Line :=
  {| kind := "url";
     text := urlLine cr (StatusCode r) n (url.URL_String (Request_URL r)) |}.

Definition suppressedStatus (status : Z) : bool :=
  (status =? 404)%Z || (status =? 429)%Z || (status <? 100)%Z || (500 <=? status)%Z.

(** The line [feedLinkfinder] prints for the canonical URL [c]. *)
Definition jsRecord (cr : Crawler) (OutputType source c : string) : Line :=
  {| kind := "javascript";
     text := formatRecord cr ("[" ++ OutputType ++ "] - " ++ c)
               (mkOutput (Input cr) source OutputType c) |}.

(** The un-minified counterpart the code asks for: every occurrence of
    [.min.js] replaced. *)
Definition unminified (c : string) : Request :=
  {| via := LinkFinderCollector; target := strings.ReplaceAll c ".min.js" ".js" |}.

(** An href line is printed only for the canonical form of a URL that
    passed the scope check and is not a static asset. *)
Definition scopedHref (cr : Crawler) (ln : Line) : Prop :=
  kind ln = "href"
  /\ exists abs,
       InScope abs (C_URLFilters cr) = true
       /\ text ln = formatRecord cr ("[href] - " ++ canonicalizeURL abs)
                      (mkOutput (Input cr) "body" "href" (canonicalizeURL abs)).

(** The lines of the collector callbacks. *)
Definition crawlLine (cr : Crawler) (ln : Line) : Prop :=
  kindIs "url" ln \/ scanLine cr ln \/ scopedHref cr ln
  \/ kindIs "form" ln \/ kindIs "upload-form" ln.

(** The lines of a run: those, and the two kinds of the renderer. *)
Definition runLine (cr : Crawler) (ln : Line) : Prop :=
  crawlLine cr ln \/ kindIs "render" ln \/ kindIs "network" ln.

Definition renderCount (st : State) : Z :=
  Z.of_nat (List.length (linesOfKind "render" (out st))).

Definition budgetOf (w : Run) : Z :=
  match render w with
  | Some rm => budget rm
  | None => 0
  end.

(** A request the callbacks may queue: the canonical form of a URL that
    passed the scope filters; for the JS collector also the un-minified
    counterpart of such a URL; for the primary collector also a network
    URL of the render pass that passed the filters as a string. *)
Definition scopedRequest (cr : Crawler) (r : Request) : Prop :=
  (exists abs,
     InScope abs (C_URLFilters cr) = true
     /\ (target r = canonicalizeURL abs
         \/ (via r = LinkFinderCollector
             /\ strings.Contains (canonicalizeURL abs) ".min.js" = true
             /\ target r = strings.ReplaceAll (canonicalizeURL abs) ".min.js" ".js")))
  \/ (via r = MainCollector /\ inScopeStr (target r) (C_URLFilters cr) = true).

(** The render lines of an output, lower-cased. *)
Definition renderKeys (l : list Line) : list string :=
  map (fun ln => strings.ToLower (text ln)) (linesOfKind "render" l).

(** The render lines printed so far are those of URL texts stored in the
    deduper of the render manager, each printed once. *)
Definition renderedOnce (w : Run) : Prop :=
  NoDup (renderKeys (out (crawl w)))
  /\ match render w with
     | Some rm =>
         forall k, In k (renderKeys (out (crawl w))) ->
           exists u, k = strings.ToLower ("[render] - " ++ u)
                     /\ mem (strings.ToLower u) (seenRender rm) = true
     | None => renderKeys (out (crawl w)) = []
     end.

(** A sign. *)
Definition isSign (c : ascii) : bool := Ascii.eqb c "+" || Ascii.eqb c "-".

End Predicates.

(** * Properties *)

(** ** Strings *)

Lemma append_nil_r (s : string) : s ++ "" = s.
Proof. induction s; simpl; congruence. Qed.

Lemma append_assoc (a b c : string) : (a ++ b) ++ c = a ++ (b ++ c).
Proof. induction a; simpl; congruence. Qed.

Lemma length_append (a b : string) :
  String.length (a ++ b) = (String.length a + String.length b)%nat.
Proof. induction a; simpl; congruence. Qed.

Lemma prefix_iff (p s : string) :
  String.prefix p s = true <-> exists r, s = p ++ r.
Proof.
  revert s; induction p as [|c p IH]; intros s; simpl.
  - destruct s; split; eauto.
  - destruct s as [|d s].
    + split; [discriminate | intros [r H]; discriminate].
    + simpl. destruct (ascii_dec c d) as [->|Hne].
      * rewrite IH. split; intros [r H]; exists r; congruence.
      * split; [discriminate | intros [r H]; congruence].
Qed.

Lemma prefix_append (p r : string) : String.prefix p (p ++ r) = true.
Proof. apply prefix_iff; eauto. Qed.

Lemma drop_append (a b : string) : drop (String.length a) (a ++ b) = b.
Proof. induction a; simpl; [destruct b|]; auto. Qed.

Lemma take_append (a b : string) : take (String.length a) (a ++ b) = a.
Proof. induction a; simpl; [destruct b|]; congruence. Qed.

Lemma take_drop (n : nat) (s : string) : take n s ++ drop n s = s.
Proof.
  revert s; induction n; intros [|c s]; simpl; auto. now rewrite IHn.
Qed.

Lemma length_drop (n : nat) (s : string) :
  String.length (drop n s) = (String.length s - n)%nat.
Proof. revert s; induction n; intros [|c s]; simpl; auto. Qed.

Lemma Index_unfold (s sep : string) :
  strings.Index s sep =
  if String.prefix sep s then Some 0%nat
  else match s with
       | "" => None
       | String _ s' => option_map S (strings.Index s' sep)
       end.
Proof. destruct s; reflexivity. Qed.

Lemma Index_Some (s sep : string) (i : nat) :
  strings.Index s sep = Some i ->
  exists a b, s = a ++ sep ++ b /\ String.length a = i.
Proof.
  revert i; induction s as [|c s IH]; intros i; rewrite Index_unfold;
    destruct (String.prefix sep _) eqn:E.
  - intros [= <-]. apply prefix_iff in E as [r E]. exists "", r; auto.
  - discriminate.
  - intros [= <-]. apply prefix_iff in E as [r E]. exists "", r; auto.
  - destruct (strings.Index s sep) as [j|]; [|discriminate].
    intros [= <-]. destruct (IH j eq_refl) as (a & b & -> & Hl).
    exists (String c a), b; simpl; auto.
Qed.

Lemma Index_None (a sep b : string) : strings.Index (a ++ sep ++ b) sep <> None.
Proof.
  induction a as [|c a IH]; rewrite Index_unfold.
  - simpl. rewrite prefix_append; discriminate.
  - destruct (String.prefix sep _); [discriminate|]. simpl.
    destruct (strings.Index (a ++ sep ++ b) sep); [discriminate | congruence].
Qed.

(** [strings.Contains] finds exactly the substrings. *)
Lemma Contains_iff (s sub : string) :
  strings.Contains s sub = true <-> exists a b, s = a ++ sub ++ b.
Proof.
  unfold strings.Contains. split.
  - destruct (strings.Index s sub) eqn:E; [|discriminate].
    intros _. destruct (Index_Some _ _ _ E) as (a & b & H & _); eauto.
  - intros (a & b & ->).
    destruct (strings.Index (a ++ sub ++ b) sub) eqn:E; auto.
    now apply Index_None in E.
Qed.

Lemma HasSuffix_iff (s suf : string) :
  strings.HasSuffix s suf = true <-> exists a, s = a ++ suf.
Proof.
  unfold strings.HasSuffix. rewrite andb_true_iff, Nat.leb_le, String.eqb_eq. split.
  - intros [_ H]. exists (take (String.length s - String.length suf) s).
    pose proof (take_drop (String.length s - String.length suf) s) as T.
    rewrite H in T. now symmetry.
  - intros [a ->]. rewrite length_append. split; [lia|].
    replace (String.length a + String.length suf - String.length suf)%nat
      with (String.length a) by lia.
    apply drop_append.
Qed.

Lemma HasSuffix_Contains (s suf : string) :
  strings.HasSuffix s suf = true -> strings.Contains s suf = true.
Proof.
  rewrite HasSuffix_iff, Contains_iff. intros [a ->]. exists a, "".
  now rewrite append_nil_r.
Qed.

(** ** Lines only accumulate

    [extends P st st']: the run went from [st] to [st'] by printing more
    lines, each of which satisfies [P]. *)

Lemma extends_refl P st : extends P st st.
Proof. exists []. now rewrite app_nil_r. Qed.

Lemma extends_same_out P st st' : out st' = out st -> extends P st st'.
Proof. intros H. exists []. now rewrite app_nil_r. Qed.

Lemma extends_trans P st1 st2 st3 :
  extends P st1 st2 -> extends P st2 st3 -> extends P st1 st3.
Proof.
  intros (l1 & H1 & F1) (l2 & H2 & F2). exists (l1 ++ l2)%list.
  rewrite H2, H1, app_assoc. split; auto. apply Forall_app; auto.
Qed.

Lemma extends_weaken (P Q : Line -> Prop) st st' :
  (forall ln, P ln -> Q ln) -> extends P st st' -> extends Q st st'.
Proof.
  intros HPQ (l & H & F). exists l; split; auto.
  eapply Forall_impl; eauto.
Qed.

Lemma extends_In P st st' ln :
  extends P st st' -> In ln (out st') -> In ln (out st) \/ P ln.
Proof.
  intros (l & H & F) Hin. rewrite H in Hin. apply in_app_or in Hin as [|Hin]; auto.
  right. rewrite Forall_forall in F; auto.
Qed.

Lemma extends_keeps P st st' ln :
  extends P st st' -> In ln (out st) -> In ln (out st').
Proof. intros (l & H & _) Hin. rewrite H. apply in_or_app; auto. Qed.

Lemma out_WriteToFile cr st msg : out (WriteToFile cr st msg) = out st.
Proof. unfold WriteToFile. now destruct (hasOutput cr). Qed.

Lemma out_emitLine cr st k line :
  out (emitLine cr st k line) =
  if EmitFilter_OK (emit cr) k
  then (out st ++ [{| kind := k; text := line |}])%list
  else out st.
Proof.
  unfold emitLine. destruct (EmitFilter_OK (emit cr) k); simpl; auto.
  now rewrite out_WriteToFile.
Qed.

Lemma visits_WriteToFile cr st msg : visits (WriteToFile cr st msg) = visits st.
Proof. unfold WriteToFile. now destruct (hasOutput cr). Qed.

Lemma visits_emitLine cr st k line : visits (emitLine cr st k line) = visits st.
Proof.
  unfold emitLine. destruct (EmitFilter_OK (emit cr) k); simpl; auto.
  now rewrite visits_WriteToFile.
Qed.

Lemma emitLine_extends (P : Line -> Prop) cr st k line :
  P {| kind := k; text := line |} -> extends P st (emitLine cr st k line).
Proof.
  intros HP. unfold extends. rewrite out_emitLine.
  destruct (EmitFilter_OK (emit cr) k).
  - eexists; split; eauto.
  - exists []. now rewrite app_nil_r.
Qed.

Lemma fold_left_extends {A} (P : Line -> Prop) (f : State -> A -> State) l :
  (forall st x, extends P st (f st x)) ->
  forall st, extends P st (fold_left f l st).
Proof.
  intros Hf. induction l as [|x l IH]; intros st; simpl.
  - apply extends_refl.
  - eapply extends_trans; [apply Hf | apply IH].
Qed.

Lemma fold_left_extends_In {A} (P : Line -> Prop) (f : State -> A -> State) l :
  (forall st x, In x l -> extends P st (f st x)) ->
  forall st, extends P st (fold_left f l st).
Proof.
  induction l as [|x l IH]; intros Hf st; simpl.
  - apply extends_refl.
  - eapply extends_trans; [apply Hf; now left | apply IH].
    intros st' y Hy. apply Hf. now right.
Qed.

Lemma fold_left_map {A B C} (f : A -> B -> A) (g : C -> B) (l : list C) (a : A) :
  fold_left f (map g l) a = fold_left (fun x c => f x (g c)) l a.
Proof. revert a; induction l; simpl; auto. Qed.

Lemma dup_js_out st s : out (snd (dup_js st s)) = out st.
Proof. unfold dup_js. now destruct (Duplicate (jsSet st) s). Qed.

Lemma dup_url_out st s : out (snd (dup_url st s)) = out st.
Proof. unfold dup_url. now destruct (Duplicate (urlSet st) s). Qed.

Lemma dup_sub_out st s : out (snd (dup_sub st s)) = out st.
Proof. unfold dup_sub. now destruct (Duplicate (subSet st) s). Qed.

Lemma dup_aws_out st s : out (snd (dup_aws st s)) = out st.
Proof. unfold dup_aws. now destruct (Duplicate (awsSet st) s). Qed.

Lemma dup_form_out st s : out (snd (dup_form st s)) = out st.
Proof. unfold dup_form. now destruct (Duplicate (formSet st) s). Qed.

Lemma dup_upload_out st s : out (snd (dup_upload st s)) = out st.
Proof. unfold dup_upload. now destruct (Duplicate (uploadFormSet st) s). Qed.

Lemma dup_js_visits st s : visits (snd (dup_js st s)) = visits st.
Proof. unfold dup_js. now destruct (Duplicate (jsSet st) s). Qed.

Lemma dup_url_visits st s : visits (snd (dup_url st s)) = visits st.
Proof. unfold dup_url. now destruct (Duplicate (urlSet st) s). Qed.

(** The deduper: a key is new exactly once. *)
Lemma Duplicate_fresh sf s :
  mem (strings.ToLower s) sf = false ->
  Duplicate sf s = (false, strings.ToLower s :: sf).
Proof. unfold Duplicate. now intros ->. Qed.

Lemma Duplicate_seen sf s :
  mem (strings.ToLower s) sf = true -> Duplicate sf s = (true, sf).
Proof. unfold Duplicate. now intros ->. Qed.

Lemma mem_cons_eq k l : mem k (k :: l) = true.
Proof. unfold mem; simpl. now rewrite String.eqb_refl. Qed.

Lemma mem_cons_neq k k' l : k <> k' -> mem k (k' :: l) = mem k l.
Proof.
  intros H. unfold mem; simpl. apply String.eqb_neq in H. now rewrite H.
Qed.

(** ** Canonicalisation *)

(** C6 (the code breaks the claim).  For the URL [http://[::80]:80/], an
    IPv6 literal with the default port, [canonicalizeURL] replaces the host
    by [Hostname()], which also strips the brackets: the result is
    [http://::80/].  Parsed again, its host is [::80], read as host [:]
    with port [80], and the second canonicalisation gives [http://:/].  So
    Canonicalize(Canonicalize(u)) differs from Canonicalize(u). *)
Theorem canonicalizeURL_not_idempotent_ipv6 :
  url.Parse "http://[::80]:80/" = Some ipv6_default_port
  /\ canonicalizeURL ipv6_default_port = "http://::80/"
  /\ option_map canonicalizeURL (url.Parse "http://::80/") = Some "http://:/"
  /\ ~ canonical_idempotence.
Proof.
  assert (H1 : url.Parse "http://[::80]:80/" = Some ipv6_default_port)
    by (vm_compute; reflexivity).
  assert (H2 : canonicalizeURL ipv6_default_port = "http://::80/")
    by (vm_compute; reflexivity).
  assert (H3 : option_map canonicalizeURL (url.Parse "http://::80/") = Some "http://:/")
    by (vm_compute; reflexivity).
  repeat split; auto.
  intros H. specialize (H _ _ H1). rewrite H2, H3 in H. discriminate.
Qed.

Lemma LastIndex_from_None (s sep : string) (i : nat) (best : option nat) :
  strings.Index s sep = None ->
  strings.LastIndex_from i s sep best = best.
Proof.
  revert i best; induction s as [|c s IH]; intros i best H;
    rewrite Index_unfold in H;
    destruct (String.prefix sep _) eqn:E; try discriminate;
    cbn [strings.LastIndex_from]; rewrite E; auto.
  apply IH. now destruct (strings.Index s sep).
Qed.

Lemma splitHostPort_no_colon (h : string) :
  strings.Contains h ":" = false -> snd (url.splitHostPort h) = "".
Proof.
  unfold strings.Contains, url.splitHostPort, strings.LastIndex.
  destruct (strings.Index h ":") eqn:E; [discriminate|]. intros _.
  rewrite LastIndex_from_None by assumption.
  now destruct (strings.HasPrefix h "[" && strings.HasSuffix h "]").
Qed.

(** The fields of the canonical copy, one by one. *)
Lemma canonical_fields (u : url.URL) :
  canonical u =
  {| url.Scheme := url.Scheme u; url.Opaque := url.Opaque u; url.User := url.User u;
     url.Host := if hasDefaultPort u then url.URL_Hostname u else url.Host u;
     url.Path := if url.Path u =? "" then "/" else url.Path u;
     url.RawPath := url.RawPath u; url.OmitHost := url.OmitHost u;
     url.ForceQuery := url.ForceQuery u; url.RawQuery := url.RawQuery u;
     url.Fragment := ""; url.RawFragment := url.RawFragment u |}.
Proof.
  destruct u as [sch op us h p rp oh fq rq fr rf].
  unfold canonical, hasDefaultPort, url.URL_Port, url.URL_Hostname, with_Fragment.
  cbn [url.Scheme url.Host url.Path].
  destruct (_ || _); unfold with_Host; cbn [url.Path]; destruct (p =? ""); reflexivity.
Qed.

Lemma canonical_twice (u : url.URL) :
  url.URL_Port (canonical u) = "" \/ hasDefaultPort u = false ->
  canonical (canonical u) = canonical u.
Proof.
  intros H. rewrite (canonical_fields (canonical u)).
  assert (Hd : hasDefaultPort (canonical u) = false).
  { unfold hasDefaultPort. destruct H as [H|H].
    - rewrite H. now rewrite !andb_false_r.
    - revert H. rewrite canonical_fields. unfold hasDefaultPort, url.URL_Port.
      cbn [url.Scheme url.Host]. intros H. rewrite H. exact H. }
  rewrite Hd. rewrite (canonical_fields u) at 1 2 3 4 5 6 7 8 9 10 11.
  cbn [url.Scheme url.Opaque url.User url.Host url.Path url.RawPath url.OmitHost
       url.ForceQuery url.RawQuery url.Fragment url.RawFragment].
  rewrite (canonical_fields u).
  destruct (url.Path u =? "") eqn:EP; [reflexivity|]. now rewrite EP.
Qed.

(** X1.  Where the host carries no IPv6 literal and no second colon (its
    [Hostname()] has no colon at all), canonicalising a canonical URL
    changes nothing. *)
Lemma canonical_idempotent_plain_host (u : url.URL) :
  strings.Contains (url.URL_Hostname u) ":" = false ->
  canonical (canonical u) = canonical u
  /\ canonicalizeURL (canonical u) = canonicalizeURL u.
Proof.
  intros Hh. assert (G : canonical (canonical u) = canonical u).
  { apply canonical_twice. destruct (hasDefaultPort u) eqn:E; auto. left.
    rewrite canonical_fields. unfold url.URL_Port. cbn [url.Host]. rewrite E.
    now apply splitHostPort_no_colon. }
  split; auto. unfold canonicalizeURL. now rewrite G.
Qed.

Lemma canonical_idempotent_plain_host_witness :
  canonical (canonical (with_Host ipv6_default_port "a.test:80"))
  = canonical (with_Host ipv6_default_port "a.test:80")
  /\ canonicalizeURL (canonical (with_Host ipv6_default_port "a.test:80"))
     = canonicalizeURL (with_Host ipv6_default_port "a.test:80").
Proof.
  apply (canonical_idempotent_plain_host (with_Host ipv6_default_port "a.test:80")).
  vm_compute; reflexivity.
Defined.

(** ** The example crawler *)

(** The crawler of the examples is the one [NewCrawler] builds. *)
Lemma crawler_a_test_is_NewCrawler (fl : Flags) :
  flag_whitelist fl = None -> flag_whitelist_domain fl = "" ->
  flag_blacklist fl = None ->
  NewCrawler (libs := exampleLibs) (httpsURL "a.test" "/" "") fl None
  = Some (crawler_a_test fl).
Proof.
  intros Hw Hd Hb. unfold NewCrawler, primaryFilters, linkFinderFilters.
  rewrite Hw, Hd, Hb. reflexivity.
Qed.

Lemma len_doubled (n : nat) (s : string) :
  len (doubled n s) = (2 ^ Z.of_nat n * len s)%Z.
Proof.
  revert s; induction n as [|n IH]; intros s.
  - cbn [doubled]. change (Z.of_nat 0) with 0%Z. rewrite Z.pow_0_r. lia.
  - cbn [doubled]. rewrite IH. unfold len. rewrite length_append.
    rewrite Nat2Z.inj_succ, Z.pow_succ_r by lia. lia.
Qed.

(** ** What each callback prints *)

Section CallbackLines.
Context {libs : Libraries}.

Lemma emitURL_out cr st status n u :
  out (emitURL cr st status n u) =
  if EmitFilter_OK (emit cr) "url"
  then (out st ++ [{| kind := "url"; text := urlLine cr status n u |}])%list
  else out st.
Proof. unfold emitURL. apply out_emitLine. Qed.

Lemma feedLinkfinder_extends cr st js ot src :
  extends (kindIs "javascript") st (feedLinkfinder cr st js ot src).
Proof.
  unfold feedLinkfinder.
  pose proof (dup_js_out st js) as Ho. destruct (dup_js st js) as [d st1].
  simpl in Ho. destruct d; [now apply extends_same_out|].
  destruct (url.Parse js) as [abs|]; [|now apply extends_same_out].
  eapply extends_trans; [now apply extends_same_out; eauto|].
  eapply extends_trans; [apply emitLine_extends; reflexivity|].
  apply extends_same_out.
  destruct (InScope abs (C_URLFilters cr)); simpl; auto.
  destruct (strings.Contains _ _); reflexivity.
Qed.

Lemma findSubdomains_extends cr st resp :
  extends (cleanedSubdomain cr) st (findSubdomains cr st resp).
Proof.
  unfold findSubdomains, GetSubdomains. rewrite fold_left_map.
  apply fold_left_extends_In. clear st. intros st m Hm.
  unfold findSubdomains_one.
  pose proof (dup_sub_out st (CleanSubdomain m)) as Ho.
  destruct (dup_sub st (CleanSubdomain m)) as [d st1].
  simpl in Ho. destruct d; [now apply extends_same_out|].
  eapply extends_trans; [now apply extends_same_out; eauto|].
  assert (G : forall t, subdomainText cr (CleanSubdomain m) t ->
                cleanedSubdomain cr {| kind := "subdomains"; text := t |})
    by (intros t Ht; split; [reflexivity | exists resp, m; auto]).
  unfold subdomainText in G.
  destruct (JsonOutput cr).
  - destruct (MarshalToString _) eqn:E; [|apply extends_refl].
    apply emitLine_extends; auto.
  - destruct (Quiet cr); simpl.
    + apply emitLine_extends; auto.
    + eapply extends_trans; apply emitLine_extends; auto.
Qed.

Lemma findAWSS3_extends cr st resp :
  extends (kindIs "aws") st (findAWSS3 cr st resp).
Proof.
  unfold findAWSS3. apply fold_left_extends. clear st. intros st e.
  unfold findAWSS3_one.
  pose proof (dup_aws_out st e) as Ho. destruct (dup_aws st e) as [d st1].
  simpl in Ho. destruct d; [now apply extends_same_out|].
  eapply extends_trans; [now apply extends_same_out; eauto|].
  apply emitLine_extends; reflexivity.
Qed.

Lemma emitRaw_extends cr st s : extends (kindIs "raw") st (emitRaw cr st s).
Proof.
  unfold emitRaw. destruct (raw cr); [|apply extends_refl].
  destruct (Quiet cr); simpl.
  - apply extends_same_out, out_WriteToFile.
  - apply emitLine_extends; reflexivity.
Qed.

Lemma emitLinkfinder_extends cr st source abs :
  InScope abs (C_URLFilters cr) = true ->
  extends (scopedLinkfinder cr) st (emitLinkfinder cr st source (canonicalizeURL abs)).
Proof.
  intros Hs. unfold emitLinkfinder.
  destruct (negb (linkfinderLine cr source (canonicalizeURL abs) =? "")).
  - eapply extends_trans; [|now apply extends_same_out].
    apply emitLine_extends. split; [reflexivity|]. exists abs, source; auto.
  - now apply extends_same_out.
Qed.

Lemma linkfinderToken_extends cr base source feedSource st relPath :
  extends (fun ln => kindIs "javascript" ln \/ scopedLinkfinder cr ln)
          st (linkfinderToken cr base source feedSource st relPath).
Proof.
  unfold linkfinderToken.
  destruct (isNoiseToken relPath); [apply extends_refl|].
  destruct (isAbsoluteURL relPath).
  - destruct (url.Parse relPath) as [uAbs|]; [|apply extends_refl].
    destruct (InScope uAbs (C_URLFilters cr)) eqn:Hs; simpl; [|apply extends_refl].
    pose proof (dup_url_out st (canonicalizeURL uAbs)) as Ho.
    destruct (dup_url st (canonicalizeURL uAbs)) as [d st1].
    simpl in Ho. destruct d; [now apply extends_same_out|].
    eapply extends_trans; [now apply extends_same_out; eauto|].
    eapply extends_weaken; [|now apply emitLinkfinder_extends]. auto.
  - destruct (FixUrl base relPath =? ""); [apply extends_refl|].
    destruct (url.Parse (FixUrl base relPath)) as [uReb|]; [|apply extends_refl].
    destruct (InScope uReb (C_URLFilters cr)) eqn:Hs; simpl; [|apply extends_refl].
    destruct (scriptLike _).
    + eapply extends_weaken; [|apply feedLinkfinder_extends]. auto.
    + pose proof (dup_url_out st (canonicalizeURL uReb)) as Ho.
      destruct (dup_url st (canonicalizeURL uReb)) as [d st1].
      simpl in Ho. destruct d; [now apply extends_same_out|].
      eapply extends_trans; [now apply extends_same_out; eauto|].
      eapply extends_weaken; [|now apply emitLinkfinder_extends]. auto.
Qed.

Lemma scan_extends cr st respStr base source feedSource (html : bool) :
  extends (scanLine cr) st
    (emitRaw cr
       (let st2 := findAWSS3 cr (findSubdomains cr st respStr) respStr in
        if html
        then fold_left (linkfinderToken cr base source feedSource) (LinkFinder respStr) st2
        else st2)
       respStr).
Proof.
  apply extends_trans with (st2 := findSubdomains cr st respStr);
    [apply extends_weaken with (P := cleanedSubdomain cr);
       [unfold scanLine; auto | apply findSubdomains_extends]|].
  apply extends_trans with (st2 := findAWSS3 cr (findSubdomains cr st respStr) respStr);
    [apply extends_weaken with (P := kindIs "aws");
       [unfold scanLine; auto | apply findAWSS3_extends]|].
  eapply extends_trans;
    [|apply extends_weaken with (P := kindIs "raw");
       [unfold scanLine; auto | apply emitRaw_extends]].
  cbv zeta. destruct html; [|apply extends_refl].
  apply fold_left_extends. intros st' x.
  eapply extends_weaken; [|apply linkfinderToken_extends].
  unfold scanLine. intros ln [|]; auto.
Qed.

End CallbackLines.

(** ** The url record of a response *)

Section UrlRecords.
Context {libs : Libraries}.

Lemma scanLine_not_url cr ln : scanLine cr ln -> kind ln <> "url".
Proof.
  unfold scanLine, kindIs, scopedLinkfinder, cleanedSubdomain.
  intros [[H _]|[H|[H|[[H _]|H]]]]; rewrite H; discriminate.
Qed.

(** [OnResponse]: nothing at all when the length is filtered; otherwise
    the url record followed by what the body scan prints. *)
Lemma OnResponse_out cr st r :
  exists l, Forall (scanLine cr) l
    /\ out (OnResponse cr st r) =
       if passesLengthFilter cr (bodyLen r)
       then ((if EmitFilter_OK (emit cr) "url"
              then out st ++ [urlRecord cr r (bodyLen r)] else out st) ++ l)%list
       else out st.
Proof.
  unfold OnResponse, bodyLen, urlRecord.
  destruct (len (Body r) <=? maxGrepBody)%Z; cbn [andb].
  - destruct (passesLengthFilter cr _) eqn:Hp; [|exists []; auto].
    set (st1 := emitURL cr st _ _ _).
    assert (H1 : out st1 = out (emitURL cr st (StatusCode r) (len (DecodeChars (Body r)))
                                  (url.URL_String (Request_URL r)))) by reflexivity.
    rewrite emitURL_out in H1. rewrite <- H1.
    destruct (InScope _ _).
    + destruct (scan_extends cr st1 (DecodeChars (Body r)) (Request_URL r)
                  (url.URL_String (Request_URL r)) "html"
                  (strings.Contains (strings.ToLower (ContentType r)) "text/html"
                   || strings.Contains (strings.ToLower (ContentType r)) "application/xhtml"
                   || (strings.ToLower (ContentType r) =? ""))) as (l & Hl & Fl).
      exists l; split; auto.
    + exists []. rewrite app_nil_r. auto.
  - destruct (passesLengthFilter cr _) eqn:Hp; [|exists []; auto].
    exists []. rewrite app_nil_r. split; auto. apply emitURL_out.
Qed.

(** [OnError]: nothing for a suppressed status, the url record (whatever
    its length) for every other status. *)
Lemma OnError_out cr st r :
  out (OnError cr st r) =
  if suppressedStatus (StatusCode r) then out st
  else if EmitFilter_OK (emit cr) "url"
       then (out st ++ [urlRecord cr r (len (Body r))])%list
       else out st.
Proof.
  unfold OnError, suppressedStatus.
  destruct (_ || _ || _ || _); auto. apply emitURL_out.
Qed.

(** [LinkFinder_OnResponse]: only 404, 429 and codes below 100 are
    suppressed; a body above the cap is reported without consulting the
    length filter. *)
Lemma LinkFinder_OnResponse_out cr st r :
  exists l, Forall (scanLine cr) l
    /\ out (LinkFinder_OnResponse cr st r) =
       if (StatusCode r =? 404)%Z || (StatusCode r =? 429)%Z || (StatusCode r <? 100)%Z
       then out st
       else if (maxGrepBody <? len (Body r))%Z
       then (if EmitFilter_OK (emit cr) "url"
             then (out st ++ [urlRecord cr r (len (Body r))])%list else out st)
       else if passesLengthFilter cr (len (DecodeChars (Body r)))
       then ((if EmitFilter_OK (emit cr) "url"
              then out st ++ [urlRecord cr r (len (DecodeChars (Body r)))]
              else out st) ++ l)%list
       else out st.
Proof.
  unfold LinkFinder_OnResponse.
  destruct (_ || _ || _); [exists []; auto|].
  destruct (maxGrepBody <? len (Body r))%Z; [exists []; split; auto; apply emitURL_out|].
  destruct (passesLengthFilter cr _) eqn:Hp; [|exists []; auto].
  set (st1 := emitURL cr st _ _ _).
  assert (H1 : out st1 = if EmitFilter_OK (emit cr) "url"
                         then (out st ++ [urlRecord cr r (len (DecodeChars (Body r)))])%list
                         else out st)
    by (subst st1; rewrite emitURL_out; reflexivity).
  rewrite <- H1.
  destruct (InScope _ _).
  - destruct (scan_extends cr st1 (DecodeChars (Body r))
                match url.Parse (url.URL_String (Request_URL r)) with
                | Some currentPathURL => currentPathURL
                | None => site cr
                end
                (url.URL_String (Request_URL r)) "javascript" true) as (l & Hl & Fl).
    exists l; split; auto.
  - exists []. rewrite app_nil_r. auto.
Qed.

End UrlRecords.

(** ** The JS asset feed *)

Section Feed.
Context {libs : Libraries}.

Lemma with_sets_same st :
  with_sets st (subSet st) (awsSet st) (jsSet st) (urlSet st) (formSet st)
           (uploadFormSet st) = st.
Proof. now destruct st. Qed.

Lemma feedLinkfinder_duplicate cr st js ot src :
  mem (strings.ToLower js) (jsSet st) = true ->
  feedLinkfinder cr st js ot src = st.
Proof.
  intros H. unfold feedLinkfinder, dup_js. rewrite (Duplicate_seen _ _ H).
  apply with_sets_same.
Qed.

Lemma feedLinkfinder_jsSet cr st js ot src :
  mem (strings.ToLower js) (jsSet (feedLinkfinder cr st js ot src)) = true.
Proof.
  destruct (mem (strings.ToLower js) (jsSet st)) eqn:H.
  - now rewrite feedLinkfinder_duplicate.
  - unfold feedLinkfinder, dup_js. rewrite (Duplicate_fresh _ _ H).
    assert (G : forall st', jsSet st' = strings.ToLower js :: jsSet st ->
                mem (strings.ToLower js) (jsSet st') = true)
      by (intros st' ->; apply mem_cons_eq).
    destruct (url.Parse js); [|now apply G].
    unfold emitLine, WriteToFile.
    destruct (InScope _ _), (EmitFilter_OK _ _), (hasOutput cr), (strings.Contains _ _);
      now apply G.
Qed.

(** A new, parseable asset: one line, then the requests. *)
Lemma feedLinkfinder_fresh cr st js ot src abs :
  mem (strings.ToLower js) (jsSet st) = false ->
  url.Parse js = Some abs ->
  let c := canonicalizeURL abs in
  let st' := feedLinkfinder cr st js ot src in
  out st' = (out st ++ if EmitFilter_OK (emit cr) "javascript"
                       then [jsRecord cr ot src c] else [])%list
  /\ visits st' =
     (visits st ++
      if InScope abs (C_URLFilters cr)
      then (if strings.Contains c ".min.js" then [unminified c] else [])
           ++ [{| via := LinkFinderCollector; target := c |}]
      else [])%list
  /\ jsSet st' = strings.ToLower js :: jsSet st.
Proof.
  intros H HP. cbv zeta. unfold feedLinkfinder, dup_js.
  rewrite (Duplicate_fresh _ _ H), HP.
  unfold emitLine, WriteToFile, jsRecord, unminified.
  destruct (InScope _ _), (EmitFilter_OK _ _), (hasOutput cr), (strings.Contains _ _);
    cbn; rewrite ?app_nil_r, <- ?app_assoc; auto.
Qed.

End Feed.

(** ** Status codes and the length filter in the response callbacks *)

Section ResponseClaims.
Context {libs : Libraries}.

(** C4 (the code breaks the claim).  Two response paths print the url
    record of a response whose body length is in [filterLength]: the JS
    sub-collector's callback when the body exceeds the 4 MB cap (it
    returns before the filter is read), and the error callback of the
    primary collector (it never reads the filter). *)
Theorem length_filter_bypassed cr st r :
  contains (filterLengthSlice cr) (len (Body r)) = true ->
  EmitFilter_OK (emit cr) "url" = true ->
  suppressedStatus (StatusCode r) = false ->
  ((maxGrepBody < len (Body r))%Z ->
   out (LinkFinder_OnResponse cr st r)
   = (out st ++ [urlRecord cr r (len (Body r))])%list)
  /\ out (OnError cr st r) = (out st ++ [urlRecord cr r (len (Body r))])%list.
Proof.
  intros _ Hok Hs. split.
  - intros Hbig. destruct (LinkFinder_OnResponse_out cr st r) as (l & _ & ->).
    unfold suppressedStatus in Hs. apply orb_false_iff in Hs as [-> _].
    apply Z.ltb_lt in Hbig. now rewrite Hbig, Hok.
  - now rewrite OnError_out, Hs, Hok.
Qed.

(** X2.  Where the length filter does hold: the response callback of the
    primary collector prints nothing at all for a filtered length, below
    and above the cap; the JS callback does so up to the cap. *)
Lemma length_filter_respected cr st r :
  contains (filterLengthSlice cr) (bodyLen r) = true ->
  out (OnResponse cr st r) = out st
  /\ ((len (Body r) <= maxGrepBody)%Z -> out (LinkFinder_OnResponse cr st r) = out st).
Proof.
  intros Hc.
  assert (Hp : passesLengthFilter cr (bodyLen r) = false).
  { unfold passesLengthFilter. destruct (filterLengthSlice cr); [discriminate|].
    now rewrite Hc. }
  split.
  - destruct (OnResponse_out cr st r) as (l & _ & ->). now rewrite Hp.
  - intros Hsmall. destruct (LinkFinder_OnResponse_out cr st r) as (l & _ & ->).
    unfold bodyLen in Hp.
    replace (len (Body r) <=? maxGrepBody)%Z with true in Hp
      by (symmetry; now apply Z.leb_le).
    replace (maxGrepBody <? len (Body r))%Z with false
      by (symmetry; apply Z.ltb_ge; lia).
    rewrite Hp. now destruct (_ || _ || _).
Qed.

(** Statuses in the two callbacks: [OnError] suppresses 404, 429, the
    codes below 100 and those from 500 on, and reports every other
    status; the JS callback suppresses 404, 429 and the codes below
    100. *)
Lemma status_suppression cr st r :
  (suppressedStatus (StatusCode r) = true -> OnError cr st r = st)
  /\ (suppressedStatus (StatusCode r) = false ->
      OnError cr st r
      = emitURL cr st (StatusCode r) (len (Body r)) (url.URL_String (Request_URL r)))
  /\ ((StatusCode r = 404 \/ StatusCode r = 429 \/ StatusCode r < 100)%Z ->
      LinkFinder_OnResponse cr st r = st).
Proof.
  unfold OnError, LinkFinder_OnResponse, suppressedStatus. repeat split.
  - now intros ->.
  - now intros ->.
  - intros H.
    replace ((StatusCode r =? 404)%Z || (StatusCode r =? 429)%Z || (StatusCode r <? 100)%Z)
      with true; auto.
    symmetry. rewrite !orb_true_iff, !Z.eqb_eq, Z.ltb_lt. tauto.
Qed.

(** C3 (the code breaks the claim).  A fetch reaches the callbacks through
    the collector ([deliver]).  For the statuses 404, 429, below 100 and
    from 500 on no url record is printed, in the error callback of the
    primary collector and for every fetch of the JS sub-collector (whose
    response callback lists 404, 429 and the codes below 100 only, but
    receives no status from 203 on).  For every other status that goes to
    the error callbacks (403, say) the primary collector prints the url
    record with the status, and the JS sub-collector prints nothing: it
    has no error callback, so the fetch reaches no callback and the state
    of the run is unchanged. *)
Theorem script_asset_errors_are_unreported cr lf w f :
  (suppressedStatus (StatusCode (delivered f)) = true ->
   out (crawl (deliver cr lf w LinkFinderCollector f)) = out (crawl w)
   /\ (toErrorCallbacks f = true ->
       out (crawl (deliver cr lf w MainCollector f)) = out (crawl w)))
  /\ (suppressedStatus (StatusCode (delivered f)) = false ->
      toErrorCallbacks f = true ->
      EmitFilter_OK (emit cr) "url" = true ->
      out (crawl (deliver cr lf w MainCollector f))
      = (out (crawl w) ++ [urlRecord cr (delivered f) (len (Body (delivered f)))])%list
      /\ deliver cr lf w LinkFinderCollector f = w).
Proof.
  split.
  - intros Hs. split.
    + unfold deliver. destruct (toErrorCallbacks f) eqn:E; [reflexivity|].
      destruct f as [u|r]; [discriminate|]. cbn [toErrorCallbacks delivered] in *.
      cbn [step]. destruct lf; [|reflexivity]. cbn [crawl].
      apply Z.leb_gt in E. unfold suppressedStatus in Hs.
      rewrite !orb_true_iff, !Z.eqb_eq, Z.ltb_lt, Z.leb_le in Hs.
      destruct (status_suppression cr (crawl w) r) as (_ & _ & H).
      rewrite H; [reflexivity|]. lia.
    + intros E. unfold deliver. rewrite E. cbn [step crawl].
      destruct (status_suppression cr (crawl w) (delivered f)) as (H & _).
      now rewrite (H Hs).
  - intros Hs E Hok. unfold deliver. rewrite E. split; [|reflexivity].
    cbn [step crawl]. now rewrite OnError_out, Hs, Hok.
Qed.

End ResponseClaims.

Lemma script_asset_errors_are_unreported_witness :
  out (crawl (deliver (libs := exampleLibs) (crawler_a_test plainFlags) true
                (startRun (crawler_a_test plainFlags) None) MainCollector
                (Answered response403)))
  = [{| kind := "url"; text := "[url] - [code-403] - https://a.test/app.js" |}]
  /\ deliver (libs := exampleLibs) (crawler_a_test plainFlags) true
       (startRun (crawler_a_test plainFlags) None) LinkFinderCollector
       (Answered response403)
     = startRun (crawler_a_test plainFlags) None.
Proof.
  apply (proj2 (script_asset_errors_are_unreported (libs := exampleLibs)
                  (crawler_a_test plainFlags) true
                  (startRun (crawler_a_test plainFlags) None) (Answered response403)));
    reflexivity.
Defined.

Lemma len_bigBody : len bigBody = 8388608%Z.
Proof. unfold bigBody. rewrite len_doubled. reflexivity. Qed.

Lemma length_filter_bypassed_witness :
  out (LinkFinder_OnResponse (libs := exampleLibs)
         (crawler_a_test filterFlags) initState bigResponse)
  = (out initState
     ++ [urlRecord (libs := exampleLibs) (crawler_a_test filterFlags) bigResponse
           (len (Body bigResponse))])%list
  /\ out (OnError (libs := exampleLibs) (crawler_a_test filterFlags) initState bigResponse)
     = (out initState
        ++ [urlRecord (libs := exampleLibs) (crawler_a_test filterFlags) bigResponse
              (len (Body bigResponse))])%list.
Proof.
  assert (Hlen : len (Body bigResponse) = 8388608%Z) by exact len_bigBody.
  destruct (length_filter_bypassed (libs := exampleLibs)
              (crawler_a_test filterFlags) initState bigResponse) as [H1 H2].
  - rewrite Hlen. reflexivity.
  - reflexivity.
  - reflexivity.
  - split; [apply H1 | exact H2].
    rewrite Hlen. reflexivity.
Defined.

(** ** Claims about the JS asset feed *)

Section FeedClaims.
Context {libs : Libraries}.

(** C7 (amended).  For a script asset URL routed to [feedLinkfinder] for
    the first time, parseable and in scope, the requests issued are the
    un-minified counterpart (every occurrence of [.min.js] in the
    canonical URL replaced by [.js]) exactly when the canonical URL
    contains [.min.js] anywhere, followed by the canonical URL itself; in
    particular the counterpart is requested whenever the URL ends in
    [.min.js]. *)
Theorem feedLinkfinder_unminified_iff_contains cr st js ot src abs :
  mem (strings.ToLower js) (jsSet st) = false ->
  url.Parse js = Some abs ->
  InScope abs (C_URLFilters cr) = true ->
  let c := canonicalizeURL abs in
  visits (feedLinkfinder cr st js ot src)
  = (visits st
     ++ (if strings.Contains c ".min.js" then [unminified c] else [])
     ++ [{| via := LinkFinderCollector; target := c |}])%list
  /\ (strings.HasSuffix c ".min.js" = true ->
      In (unminified c) (visits (feedLinkfinder cr st js ot src))).
Proof.
  intros Hf Hp Hs c.
  destruct (feedLinkfinder_fresh cr st js ot src abs Hf Hp) as (_ & Hv & _).
  fold c in Hv. rewrite Hs in Hv. split; auto.
  intros Hsuf. rewrite Hv, (HasSuffix_Contains _ _ Hsuf).
  apply in_or_app; right. now left.
Qed.

(** C9.  [feedLinkfinder] dedupes on the lower-cased raw argument,
    before parsing.  (1) After a call with [a], a call with any [b] that
    differs from [a] in letter case only changes nothing; when [a] is new
    and parseable the two calls together print exactly one javascript
    line.  (2) Two new arguments that differ by more than letter case
    print one javascript line each, even when they canonicalise to the
    same URL: the second line repeats the output of the first. *)
Theorem feedLinkfinder_dedupes_on_raw_lowercase cr st a b ot1 s1 ot2 s2 :
  EmitFilter_OK (emit cr) "javascript" = true ->
  (strings.ToLower a = strings.ToLower b ->
   feedLinkfinder cr (feedLinkfinder cr st a ot1 s1) b ot2 s2
   = feedLinkfinder cr st a ot1 s1
   /\ (mem (strings.ToLower a) (jsSet st) = false ->
       forall ua, url.Parse a = Some ua ->
       out (feedLinkfinder cr (feedLinkfinder cr st a ot1 s1) b ot2 s2)
       = (out st ++ [jsRecord cr ot1 s1 (canonicalizeURL ua)])%list))
  /\ (strings.ToLower a <> strings.ToLower b ->
      mem (strings.ToLower a) (jsSet st) = false ->
      mem (strings.ToLower b) (jsSet st) = false ->
      forall ua ub, url.Parse a = Some ua -> url.Parse b = Some ub ->
      canonicalizeURL ua = canonicalizeURL ub ->
      out (feedLinkfinder cr (feedLinkfinder cr st a ot1 s1) b ot2 s2)
      = (out st ++ [jsRecord cr ot1 s1 (canonicalizeURL ua);
                    jsRecord cr ot2 s2 (canonicalizeURL ua)])%list).
Proof.
  intros Hok. split.
  - intros Hab.
    assert (E : feedLinkfinder cr (feedLinkfinder cr st a ot1 s1) b ot2 s2
                = feedLinkfinder cr st a ot1 s1).
    { apply feedLinkfinder_duplicate. rewrite <- Hab. apply feedLinkfinder_jsSet. }
    split; auto. intros Hf ua Hp. rewrite E.
    destruct (feedLinkfinder_fresh cr st a ot1 s1 ua Hf Hp) as (Ho & _ & _).
    now rewrite Ho, Hok.
  - intros Hne Hfa Hfb ua ub Hpa Hpb Hc.
    destruct (feedLinkfinder_fresh cr st a ot1 s1 ua Hfa Hpa) as (Ho & _ & Hj).
    assert (Hfb' : mem (strings.ToLower b)
                     (jsSet (feedLinkfinder cr st a ot1 s1)) = false).
    { rewrite Hj, mem_cons_neq; auto. }
    destruct (feedLinkfinder_fresh cr _ b ot2 s2 ub Hfb' Hpb) as (Ho2 & _ & _).
    rewrite Ho2, Ho, Hok, <- Hc, <- app_assoc. reflexivity.
Qed.

End FeedClaims.

Lemma feedLinkfinder_unminified_iff_contains_witness :
  visits (feedLinkfinder (libs := exampleLibs) (crawler_a_test plainFlags) initState
            "https://a.test/js/app.min.js" "javascript" "body")
  = [{| via := LinkFinderCollector; target := "https://a.test/js/app.js" |};
     {| via := LinkFinderCollector; target := "https://a.test/js/app.min.js" |}].
Proof.
  destruct (feedLinkfinder_unminified_iff_contains (libs := exampleLibs)
              (crawler_a_test plainFlags) initState "https://a.test/js/app.min.js"
              "javascript" "body" (httpsURL "a.test" "/js/app.min.js" "")) as [H _];
    [vm_compute; reflexivity ..|].
  vm_compute in H. exact H.
Defined.

(** The claim's "only if" fails: this URL does not end in [.min.js], and
    its counterpart is requested all the same. *)
Lemma feedLinkfinder_unminified_without_suffix :
  strings.HasSuffix "https://a.test/js/app.min.js?v=3" ".min.js" = false
  /\ visits (feedLinkfinder (libs := exampleLibs) (crawler_a_test plainFlags) initState
               "https://a.test/js/app.min.js?v=3" "javascript" "body")
     = [{| via := LinkFinderCollector; target := "https://a.test/js/app.js?v=3" |};
        {| via := LinkFinderCollector; target := "https://a.test/js/app.min.js?v=3" |}].
Proof. split; vm_compute; reflexivity. Qed.

Lemma feedLinkfinder_dedupes_on_raw_lowercase_witness :
  (* letter case only: one line *)
  out (feedLinkfinder (libs := exampleLibs) (crawler_a_test plainFlags)
         (feedLinkfinder (libs := exampleLibs) (crawler_a_test plainFlags) initState
            "https://a.test/App.js" "javascript" "body")
         "https://a.test/app.JS" "javascript" "body")
  = [{| kind := "javascript"; text := "[javascript] - https://a.test/App.js" |}]
  (* a fragment more: the same URL printed twice *)
  /\ out (feedLinkfinder (libs := exampleLibs) (crawler_a_test plainFlags)
            (feedLinkfinder (libs := exampleLibs) (crawler_a_test plainFlags) initState
               "https://a.test/app.js" "javascript" "body")
            "https://a.test/app.js#top" "javascript" "body")
     = [{| kind := "javascript"; text := "[javascript] - https://a.test/app.js" |};
        {| kind := "javascript"; text := "[javascript] - https://a.test/app.js" |}]
  (* an explicit default port: again twice *)
  /\ out (feedLinkfinder (libs := exampleLibs) (crawler_a_test plainFlags)
            (feedLinkfinder (libs := exampleLibs) (crawler_a_test plainFlags) initState
               "https://a.test/app.js" "javascript" "body")
            "https://a.test:443/app.js" "javascript" "body")
     = [{| kind := "javascript"; text := "[javascript] - https://a.test/app.js" |};
        {| kind := "javascript"; text := "[javascript] - https://a.test/app.js" |}].
Proof.
  pose proof (feedLinkfinder_dedupes_on_raw_lowercase (libs := exampleLibs)
                (crawler_a_test plainFlags) initState) as T.
  split; [|split].
  - destruct (T "https://a.test/App.js" "https://a.test/app.JS"
                "javascript" "body" "javascript" "body" eq_refl) as [[_ H] _];
      [vm_compute; reflexivity|].
    specialize (H eq_refl (httpsURL "a.test" "/App.js" "")).
    vm_compute in H. apply H. reflexivity.
  - destruct (T "https://a.test/app.js" "https://a.test/app.js#top"
                "javascript" "body" "javascript" "body" eq_refl) as [_ H].
    specialize (H ltac:(vm_compute; discriminate) eq_refl eq_refl
                  (httpsURL "a.test" "/app.js" "")
                  {| url.Scheme := "https"; url.Opaque := ""; url.User := None;
                     url.Host := "a.test"; url.Path := "/app.js"; url.RawPath := "";
                     url.OmitHost := false; url.ForceQuery := false; url.RawQuery := "";
                     url.Fragment := "top"; url.RawFragment := "" |}).
    vm_compute in H. apply H; reflexivity.
  - destruct (T "https://a.test/app.js" "https://a.test:443/app.js"
                "javascript" "body" "javascript" "body" eq_refl) as [_ H].
    specialize (H ltac:(vm_compute; discriminate) eq_refl eq_refl
                  (httpsURL "a.test" "/app.js" "") (httpsURL "a.test:443" "/app.js" "")).
    vm_compute in H. apply H; reflexivity.
Defined.

(** ** Regular expressions: what [run] and [MatchString] compute *)

Lemma ToLower_length (s : string) : String.length (strings.ToLower s) = String.length s.
Proof. induction s; simpl; congruence. Qed.

Lemma ToLower_append (a b : string) :
  strings.ToLower (a ++ b) = strings.ToLower a ++ strings.ToLower b.
Proof. induction a; simpl; congruence. Qed.



Lemma run_Empty st st' : In st' (regexp.run Empty st) <-> st' = st.
Proof. simpl. intuition. Qed.

Lemma run_Class p st st' :
  In st' (regexp.run (Class p) st) <->
  exists c t, snd st = String c t /\ p c = true /\ st' = (false, t).
Proof.
  simpl. destruct (snd st) as [|c t].
  - split; [intros [] | intros (c & t & H & _); discriminate].
  - destruct (p c) eqn:E; simpl.
    + split.
      * intros [<-|[]]. eauto.
      * intros (c' & t' & [= <- <-] & _ & ->). auto.
    + split; [intros [] | intros (c' & t' & [= <- <-] & H & _); congruence].
Qed.

Lemma append_inv_head (s a b : string) : s ++ a = s ++ b -> a = b.
Proof. induction s; simpl; [auto | intros [= H]; auto]. Qed.

Lemma run_Lit s st st' :
  In st' (regexp.run (Lit s) st) <->
  exists t, snd st = s ++ t /\ st' = (fst st && (s =? ""), t).
Proof.
  simpl. destruct (String.prefix s (snd st)) eqn:E.
  - apply prefix_iff in E as [t E]. rewrite E, drop_append. simpl. split.
    + intros [<-|[]]. eauto.
    + intros (t' & Ht & ->). left. f_equal.
      eapply append_inv_head; eauto.
  - split; [intros [] | intros (t & Ht & _)].
    rewrite Ht, prefix_append in E. discriminate.
Qed.


Lemma run_Cat a b st st' :
  In st' (regexp.run (Cat a b) st) <-> exists mid, In mid (regexp.run a st) /\ In st' (regexp.run b mid).
Proof. simpl. apply in_flat_map. Qed.

Lemma run_Alt a b st st' :
  In st' (regexp.run (Alt a b) st) <-> In st' (regexp.run a st) \/ In st' (regexp.run b st).
Proof. simpl. apply in_app_iff. Qed.

Lemma run_Opt a st st' :
  In st' (regexp.run (Opt a) st) <-> In st' (regexp.run a st) \/ st' = st.
Proof. unfold Opt. rewrite run_Alt, run_Empty. tauto. Qed.

Lemma run_Bol st st' : In st' (regexp.run Bol st) <-> fst st = true /\ st' = st.
Proof. simpl. destruct (fst st); simpl; intuition congruence. Qed.

Lemma run_Eol st st' : In st' (regexp.run Eol st) <-> snd st = "" /\ st' = st.
Proof. simpl. destruct (snd st); simpl; intuition congruence. Qed.


Lemma matches_at_iff r st : matches_at r st = true <-> exists st', In st' (regexp.run r st).
Proof.
  unfold matches_at. destruct (regexp.run r st) as [|x l]; split.
  - discriminate.
  - intros (st' & []).
  - eauto using in_eq.
  - auto.
Qed.

(** An unanchored search tries every suffix of the text. *)
Lemma search_iff r b s :
  search r b s = true <->
  exists pre rest, s = pre ++ rest /\ matches_at r (b && (pre =? ""), rest) = true.
Proof.
  revert b; induction s as [|c s IH]; intros b; cbn [search]; rewrite orb_true_iff.
  - split.
    + intros [H|H]; [|discriminate]. exists "", "". rewrite andb_true_r. auto.
    + intros (pre & rest & Hs & H). destruct pre; [|discriminate].
      simpl in Hs; subst rest. rewrite andb_true_r in H. auto.
  - rewrite IH. split.
    + intros [H|(pre & rest & -> & H)].
      * exists "", (String c s). rewrite andb_true_r. auto.
      * exists (String c pre), rest. rewrite andb_false_r. auto.
    + intros (pre & rest & Hs & H). destruct pre as [|d pre].
      * simpl in Hs; subst rest. rewrite andb_true_r in H. auto.
      * injection Hs as <- ->. right. exists pre, rest.
        rewrite andb_false_r in H. auto.
Qed.

Lemma MatchString_iff r s :
  MatchString r s = true <->
  exists pre rest st', s = pre ++ rest /\ In st' (regexp.run r (pre =? "", rest)).
Proof.
  unfold MatchString. rewrite search_iff. split.
  - intros (pre & rest & Hs & H). apply matches_at_iff in H as [st' H]. eauto 6.
  - intros (pre & rest & st' & Hs & H). exists pre, rest. split; auto.
    apply matches_at_iff. eauto.
Qed.

(** ** The static-asset filter *)








Section StaticAssets.
Context {libs : Libraries}.


End StaticAssets.



Section LinkfinderAssets.
Context {libs : Libraries}.

(** X6.  The linkfinder scan of a body applies no static-asset test.  A
    token that is not noise and not an absolute URL, and that resolves to
    a parseable, in-scope URL that is not script-like and was not seen
    before, is printed as a linkfinder record and handed to the primary
    collector, whatever its extension: also when it is one of the static
    assets that the element callback drops. *)
Theorem linkfinder_applies_no_asset_filter cr base source fs st (t : string) uReb :
  JsonOutput cr = false -> Quiet cr = false ->
  isNoiseToken t = false -> isAbsoluteURL t = false ->
  FixUrl base t <> "" -> url.Parse (FixUrl base t) = Some uReb ->
  InScope uReb (C_URLFilters cr) = true ->
  scriptLike (GetExtType (canonicalizeURL uReb)) = false ->
  mem (strings.ToLower (canonicalizeURL uReb)) (urlSet st) = false ->
  out (linkfinderToken cr base source fs st t)
  = (out st ++ if EmitFilter_OK (emit cr) "linkfinder"
               then [{| kind := "linkfinder";
                        text := "[linkfinder] - " ++ canonicalizeURL uReb |}]
               else [])%list
  /\ visits (linkfinderToken cr base source fs st t)
     = (visits st ++ [{| via := MainCollector; target := canonicalizeURL uReb |}])%list.
Proof.
  intros Hj Hq Hn Ha Hf Hp Hs Hx Hm. unfold linkfinderToken.
  rewrite Hn, Ha. apply String.eqb_neq in Hf. rewrite Hf, Hp, Hs. cbn [negb].
  rewrite Hx. unfold dup_url. rewrite (Duplicate_fresh _ _ Hm).
  unfold emitLinkfinder, linkfinderLine. rewrite Hj, Hq.
  cbn [String.eqb append negb Visit visits out with_visits].
  rewrite out_emitLine, visits_emitLine. cbn [out visits with_sets].
  split; [|reflexivity].
  destruct (EmitFilter_OK _ _); [reflexivity|now rewrite app_nil_r].
Qed.

End LinkfinderAssets.

Lemma linkfinder_applies_no_asset_filter_witness :
  MatchString disallowedExtRE "https://a.test/file.png" = true
  /\ out (linkfinderToken (libs := assetLibs) (crawler_a_test plainFlags)
            (httpsURL "a.test" "/" "") "https://a.test/" "html" initState "/file.png")
     = [{| kind := "linkfinder"; text := "[linkfinder] - https://a.test/file.png" |}]
  /\ visits (linkfinderToken (libs := assetLibs) (crawler_a_test plainFlags)
               (httpsURL "a.test" "/" "") "https://a.test/" "html" initState "/file.png")
     = [{| via := MainCollector; target := "https://a.test/file.png" |}].
Proof.
  split; [vm_compute; reflexivity|].
  apply (linkfinder_applies_no_asset_filter (libs := assetLibs) (crawler_a_test plainFlags)
           (httpsURL "a.test" "/" "") "https://a.test/" "html" initState "/file.png"
           (httpsURL "a.test" "/file.png" ""));
    try reflexivity.
  vm_compute; discriminate.
Defined.

(** ** Every line of a run *)

Section RunLines.
Context {libs : Libraries}.

Lemma crawlLine_kind cr ln :
  crawlLine cr ln -> kind ln <> "render" /\ kind ln <> "network".
Proof.
  unfold crawlLine, scanLine, kindIs, scopedHref, scopedLinkfinder, cleanedSubdomain.
  intros [H|[[[H _]|[H|[H|[[H _]|H]]]]|[[H _]|[H|H]]]]; rewrite H; split; discriminate.
Qed.

Lemma OnHTML_extends cr st e : extends (crawlLine cr) st (OnHTML cr st e).
Proof.
  unfold OnHTML.
  destruct ((Name e =? "a") || (Name e =? "link")).
  { destruct (_ =? ""); [apply extends_refl|].
    destruct (MatchString disallowedExtRE _); [apply extends_refl|].
    destruct (url.Parse _) as [abs|]; [|apply extends_refl].
    destruct (InScope abs (C_URLFilters cr)) eqn:Hs; simpl; [|apply extends_refl].
    pose proof (dup_url_out st (canonicalizeURL abs)) as Ho.
    destruct (dup_url st (canonicalizeURL abs)) as [d st1].
    simpl in Ho. destruct d; [now apply extends_same_out|].
    eapply extends_trans; [now apply extends_same_out; eauto|].
    eapply extends_trans; [|now apply extends_same_out].
    apply emitLine_extends. right; right; left. split; [reflexivity|]. eauto. }
  destruct (Name e =? "form").
  { pose proof (dup_form_out st (url.URL_String (PageURL e))) as Ho.
    destruct (dup_form st _) as [d st1].
    simpl in Ho. destruct d; [now apply extends_same_out|].
    eapply extends_trans; [now apply extends_same_out; eauto|].
    apply emitLine_extends. do 3 right. left. reflexivity. }
  destruct (Name e =? "input").
  { pose proof (dup_upload_out st (url.URL_String (PageURL e))) as Ho.
    destruct (dup_upload st _) as [d st1].
    simpl in Ho. destruct d; [now apply extends_same_out|].
    eapply extends_trans; [now apply extends_same_out; eauto|].
    apply emitLine_extends. do 4 right. reflexivity. }
  destruct (Name e =? "script"); [|apply extends_refl].
  destruct (_ =? ""); [apply extends_refl|].
  destruct (_ || _ || _); [|apply extends_refl].
  apply extends_weaken with (P := kindIs "javascript");
    [|apply feedLinkfinder_extends].
  intros ln H. right. left. right. right. left. exact H.
Qed.

Lemma url_then_scan_extends cr (o o' l : list Line) (ok : bool) (ln : Line) :
  kind ln = "url" -> Forall (scanLine cr) l ->
  o' = ((if ok then o ++ [ln] else o) ++ l)%list ->
  exists l', o' = (o ++ l')%list /\ Forall (crawlLine cr) l'.
Proof.
  intros Hk Hl ->.
  assert (Hl' : Forall (crawlLine cr) l)
    by (eapply Forall_impl; [|exact Hl]; unfold crawlLine; auto).
  destruct ok.
  - exists (ln :: l). rewrite <- app_assoc. split; auto.
    constructor; auto. now left.
  - exists l. auto.
Qed.

Lemma OnResponse_extends cr st r : extends (crawlLine cr) st (OnResponse cr st r).
Proof.
  destruct (OnResponse_out cr st r) as (l & Hl & Ho). unfold extends.
  destruct (passesLengthFilter cr (bodyLen r)).
  - eapply url_then_scan_extends; eauto. reflexivity.
  - exists []. rewrite app_nil_r. auto.
Qed.

Lemma OnError_extends cr st r : extends (crawlLine cr) st (OnError cr st r).
Proof.
  unfold extends. rewrite OnError_out.
  destruct (suppressedStatus _); [exists []; rewrite app_nil_r; auto|].
  destruct (EmitFilter_OK _ _); [|exists []; rewrite app_nil_r; auto].
  eexists; split; eauto. constructor; auto. now left.
Qed.

Lemma LinkFinder_OnResponse_extends cr st r :
  extends (crawlLine cr) st (LinkFinder_OnResponse cr st r).
Proof.
  destruct (LinkFinder_OnResponse_out cr st r) as (l & Hl & Ho). unfold extends.
  destruct (_ || _ || _); [exists []; rewrite app_nil_r; auto|].
  destruct (maxGrepBody <? _)%Z.
  - apply (url_then_scan_extends cr (out st) _ [] (EmitFilter_OK (emit cr) "url")
             (urlRecord cr r (len (Body r)))); auto.
    rewrite app_nil_r. exact Ho.
  - destruct (passesLengthFilter _ _).
    + eapply url_then_scan_extends; eauto. reflexivity.
    + exists []. rewrite app_nil_r. auto.
Qed.

Lemma render_turn_extends cr rm st :
  extends (kindIs "render") st (snd (render_turn cr rm st)).
Proof.
  unfold render_turn. destruct (budget rm <=? 0)%Z; [apply extends_refl|].
  destruct (queue rm) as [|u rest]; [apply extends_refl|].
  destruct (u =? ""); [apply extends_refl|].
  destruct (Duplicate (seenRender rm) u) as [d seen].
  destruct d; [apply extends_refl|].
  destruct (inScopeStr u (C_URLFilters cr)); simpl; [|apply extends_refl].
  apply emitLine_extends. reflexivity.
Qed.

Lemma render_network_extends cr st x reqURL :
  extends (kindIs "network") st (render_network cr st x reqURL).
Proof.
  unfold render_network. destruct (_ && _); [|apply extends_refl].
  pose proof (dup_url_out st reqURL) as Ho.
  destruct (dup_url st reqURL) as [d st1].
  simpl in Ho. destruct d; [now apply extends_same_out|].
  eapply extends_trans; [now apply extends_same_out; eauto|].
  apply extends_trans with (st2 := Visit MainCollector reqURL st1);
    [now apply extends_same_out|].
  apply emitLine_extends. reflexivity.
Qed.

Lemma step_extends cr lf w ev :
  extends (runLine cr) (crawl w) (crawl (step cr lf w ev)).
Proof.
  assert (C : forall st st', extends (crawlLine cr) st st' -> extends (runLine cr) st st')
    by (intros st st'; apply extends_weaken; unfold runLine; auto).
  destruct ev as [e|r|r|r| |x reqURL]; cbn [step crawl].
  - apply C, OnHTML_extends.
  - apply C, OnResponse_extends.
  - apply C, OnError_extends.
  - destruct lf; [apply C, LinkFinder_OnResponse_extends | apply extends_refl].
  - destruct (render w) as [rm|]; [|apply extends_refl].
    pose proof (render_turn_extends cr rm (crawl w)) as H.
    destruct (render_turn cr rm (crawl w)) as [rm' st']. cbn [crawl snd] in *.
    eapply extends_weaken; [|exact H]. unfold runLine; auto.
  - destruct (render w) as [rm|]; [|apply extends_refl].
    destruct (0 <? budget rm)%Z; [|apply extends_refl]. cbn [crawl].
    eapply extends_weaken; [|apply render_network_extends]. unfold runLine; auto.
Qed.

(** Every line a run prints is one of the above. *)
Lemma run_lines cr lf rb events :
  Forall (runLine cr) (out (crawl (run cr lf rb events))).
Proof.
  unfold run.
  assert (G : forall w, Forall (runLine cr) (out (crawl w)) ->
                Forall (runLine cr) (out (crawl (fold_left (step cr lf) events w)))).
  { induction events as [|ev events IH]; intros w Hw; simpl; auto.
    apply IH. destruct (step_extends cr lf w ev) as (l & -> & Hl).
    apply Forall_app; auto. }
  apply G. constructor.
Qed.

End RunLines.

(** ** The render budget *)

Section RenderBudget.
Context {libs : Libraries}.

Lemma linesOfKind_app k l1 l2 :
  linesOfKind k (l1 ++ l2) = (linesOfKind k l1 ++ linesOfKind k l2)%list.
Proof. apply filter_app. Qed.

Lemma linesOfKind_none k (P : Line -> Prop) l :
  (forall ln, P ln -> kind ln <> k) -> Forall P l -> linesOfKind k l = [].
Proof.
  intros HP. induction 1 as [|ln l Hln _ IH]; simpl; auto.
  destruct (String.eqb_spec (kind ln) k) as [E|_]; auto.
  now apply HP in Hln.
Qed.

Lemma renderCount_extends (P : Line -> Prop) st st' :
  (forall ln, P ln -> kind ln <> "render") ->
  extends P st st' -> renderCount st' = renderCount st.
Proof.
  intros HP (l & Ho & Hl). unfold renderCount.
  now rewrite Ho, linesOfKind_app, (linesOfKind_none _ _ _ HP Hl), app_nil_r.
Qed.

(** One turn of the loop prints at most one render line, and pays for it
    from the budget. *)
Lemma render_turn_budget cr rm st :
  (0 <= budget rm)%Z ->
  (0 <= budget (fst (render_turn cr rm st)))%Z
  /\ (renderCount (snd (render_turn cr rm st)) + budget (fst (render_turn cr rm st))
      <= renderCount st + budget rm)%Z.
Proof.
  intros Hb. unfold render_turn.
  destruct (Z.leb_spec (budget rm) 0); [simpl; lia|].
  destruct (queue rm) as [|u rest]; [simpl; lia|].
  destruct (u =? ""); [simpl; lia|].
  destruct (Duplicate (seenRender rm) u) as [d seen].
  destruct d; [simpl; lia|].
  destruct (inScopeStr u (C_URLFilters cr)); cbn [negb fst snd budget]; [|lia].
  split; [lia|]. unfold renderCount. rewrite out_emitLine.
  destruct (EmitFilter_OK _ _); [|lia].
  rewrite linesOfKind_app, length_app, Nat2Z.inj_add. simpl. lia.
Qed.

Lemma step_budget cr lf w ev :
  (0 <= budgetOf w)%Z ->
  (0 <= budgetOf (step cr lf w ev))%Z
  /\ (renderCount (crawl (step cr lf w ev)) + budgetOf (step cr lf w ev)
      <= renderCount (crawl w) + budgetOf w)%Z.
Proof.
  intros Hb.
  assert (C : forall st', extends (crawlLine cr) (crawl w) st' ->
                renderCount st' = renderCount (crawl w))
    by (intros st'; apply renderCount_extends; intros ln H; now apply crawlLine_kind in H).
  destruct ev as [e|r|r|r| |x reqURL]; cbn [step].
  - unfold budgetOf; cbn [crawl render]. rewrite (C _ (OnHTML_extends cr _ e)).
    fold (budgetOf w). lia.
  - unfold budgetOf in *; cbn [crawl render]. rewrite (C _ (OnResponse_extends cr _ r)).
    destruct (render w) as [rm|]; cbn [option_map]; [|lia].
    unfold render_OnResponse.
    destruct (budget rm <=? 0)%Z; [lia|].
    destruct (strings.Contains _ _ && _); [|lia].
    destruct (_ <? 64)%nat; cbn [budget]; lia.
  - unfold budgetOf; cbn [crawl render]. rewrite (C _ (OnError_extends cr _ r)).
    fold (budgetOf w). lia.
  - destruct lf; [|lia].
    unfold budgetOf; cbn [crawl render].
    rewrite (C _ (LinkFinder_OnResponse_extends cr _ r)). fold (budgetOf w). lia.
  - unfold budgetOf in *. destruct (render w) as [rm|] eqn:E; [|rewrite E; lia].
    pose proof (render_turn_budget cr rm (crawl w) Hb) as H.
    destruct (render_turn cr rm (crawl w)) as [rm' st']. cbn [crawl render fst snd] in *.
    exact H.
  - unfold budgetOf in *. destruct (render w) as [rm|] eqn:E; [|rewrite E; lia].
    destruct (0 <? budget rm)%Z; cbn [crawl render]; rewrite ?E; [|lia].
    assert (N : forall ln, kindIs "network" ln -> kind ln <> "render")
      by (unfold kindIs; intros ln H; rewrite H; discriminate).
    rewrite (renderCount_extends _ _ _ N (render_network_extends cr (crawl w) x reqURL)).
    lia.
Qed.

Lemma run_budget cr lf events w :
  (0 <= budgetOf w)%Z ->
  (renderCount (crawl (fold_left (step cr lf) events w))
   <= renderCount (crawl w) + budgetOf w)%Z.
Proof.
  revert w; induction events as [|ev events IH]; intros w Hb; simpl; [lia|].
  destruct (step_budget cr lf w ev Hb) as [Hb' Hc].
  specialize (IH _ Hb'). lia.
Qed.

(** C8 (amended).  With the render pass enabled and a configured budget
    [renderBudget], a run prints at most [renderBudget] render lines when
    [renderBudget] is positive, and at most 6 when it is zero or negative
    (the manager replaces such a budget by 6); with the render pass
    disabled it prints none. *)
Theorem render_lines_within_budget cr lf events :
  (forall renderBudget,
     (renderCount (crawl (run cr lf (Some renderBudget) events))
      <= if renderBudget <=? 0 then 6 else renderBudget)%Z)
  /\ renderCount (crawl (run cr lf None events)) = 0%Z.
Proof.
  split.
  - intros b. unfold run.
    pose proof (run_budget cr lf events (startRun cr (Some b))) as H.
    unfold budgetOf, startRun in H. cbn [render option_map StartRenderManager budget crawl] in H.
    change (renderCount initState) with 0%Z in H.
    change (startRun cr (Some b))
      with {| crawl := initState; render := Some (StartRenderManager cr b) |}.
    destruct (Z.leb_spec b 0); lia.
  - unfold run.
    pose proof (run_budget cr lf events (startRun cr None)) as H.
    unfold budgetOf, startRun in H. cbn [render option_map crawl] in H.
    change (renderCount initState) with 0%Z in H.
    change (startRun cr None) with {| crawl := initState; render := None |}.
    specialize (H ltac:(lia)). unfold renderCount in *. lia.
Qed.

End RenderBudget.

(** The claim as stated fails for a budget that is not positive: with
    [--render-budget 0] the start URL is rendered. *)
Lemma render_budget_zero_renders :
  out (crawl (run (libs := exampleLibs) (crawler_a_test plainFlags) true (Some 0%Z)
                [RenderTurn]))
  = [{| kind := "render"; text := "[render] - https://a.test/" |}]
  /\ (renderCount (crawl (run (libs := exampleLibs) (crawler_a_test plainFlags) true
                            (Some 0%Z) [RenderTurn])) > 0)%Z.
Proof. split; vm_compute; reflexivity. Qed.

(** ** The sub-domain cleaner *)

Lemma lower_lowerLetter (c : ascii) : strings.lower c = lowerLetter c.
Proof. destruct c as [[] [] [] [] [] [] [] []]; vm_compute; reflexivity. Qed.

Lemma ToLower_lowercase (s : string) : strings.ToLower s = lowercase s.
Proof. induction s as [|c s IH]; simpl; [|rewrite IH, lower_lowerLetter]; reflexivity. Qed.

Lemma startsWithResidue_take (s : string) :
  startsWithResidue s = mem (strings.ToLower (take 2 s)) residues.
Proof.
  destruct s as [|c [|d rest]]; [reflexivity | | ].
  - unfold mem, residues. cbn. now repeat destruct (Ascii.eqb _ _).
  - unfold startsWithResidue, isResidue. rewrite <- !lower_lowerLetter. reflexivity.
Qed.

Lemma run_residueRE (b : bool) (s : string) :
  regexp.run residueRE (b, s) =
  if startsWithResidue s then [(false, drop 2 s)] else [].
Proof.
  rewrite startsWithResidue_take.
  unfold residueRE, residues, mem.
  cbn [map Alts regexp.run fst snd String.length existsb].
  remember (strings.ToLower (take 2 s)) as t eqn:Ht. clear Ht.
  replace (b && ("20" =? "")) with false by now destruct b.
  replace (b && ("25" =? "")) with false by now destruct b.
  replace (b && ("2b" =? "")) with false by now destruct b.
  replace (b && ("2f" =? "")) with false by now destruct b.
  replace (b && ("3d" =? "")) with false by now destruct b.
  replace (b && ("3a" =? "")) with false by now destruct b.
  replace (b && ("40" =? "")) with false by now destruct b.
  change (strings.ToLower "20") with "20". change (strings.ToLower "25") with "25".
  change (strings.ToLower "2b") with "2b". change (strings.ToLower "2f") with "2f".
  change (strings.ToLower "3d") with "3d". change (strings.ToLower "3a") with "3a".
  change (strings.ToLower "40") with "40".
  repeat match goal with
         | |- context [String.eqb t ?k] =>
             destruct (String.eqb_spec t k) as [->|_]; [reflexivity|]
         end.
  reflexivity.
Qed.

Lemma startsWithResidue_shape (s : string) :
  startsWithResidue s = true ->
  exists a b rest, s = String a (String b rest) /\ isResidue a b = true.
Proof. destruct s as [|a [|b rest]]; try discriminate. simpl; eauto. Qed.

Lemma dropResidues_stop (s : string) : startsWithResidue s = false -> dropResidues s = s.
Proof. destruct s as [|a [|b rest]]; simpl; auto. now intros ->. Qed.

Lemma string_ind2 (P : string -> Prop) :
  P "" -> (forall c, P (String c "")) ->
  (forall a b rest, P rest -> P (String a (String b rest))) ->
  forall s, P s.
Proof.
  intros H0 H1 H2 s.
  assert (G : P s /\ forall c, P (String c s)); [|apply G].
  induction s as [|d s [IH1 IH2]]; split; auto.
Qed.

Lemma dropResidues_split (s : string) :
  exists pre, s = pre ++ dropResidues s /\ ResidueRun pre.
Proof.
  induction s as [| c | a b rest (pre & IH & Hr)] using string_ind2.
  - exists "". split; auto. constructor.
  - exists "". split; auto. constructor.
  - cbn [dropResidues]. destruct (isResidue a b) eqn:E.
    + exists (String a (String b pre)). simpl. rewrite <- IH. split; auto.
      now constructor.
    + exists "". split; auto. constructor.
Qed.

Lemma dropResidues_done (s : string) : startsWithResidue (dropResidues s) = false.
Proof.
  induction s as [| c | a b rest IH] using string_ind2; auto.
  cbn [dropResidues]. destruct (isResidue a b) eqn:E; auto.
Qed.

Lemma star_residue_head (fuel : nat) (b : bool) (s : string) :
  (String.length s <= fuel)%nat ->
  exists b' tl, star_run (regexp.run residueRE) fuel (b, s) = (b', dropResidues s) :: tl.
Proof.
  revert b s; induction fuel as [|k IH]; intros b s Hl.
  - destruct s; [|simpl in Hl; lia]. simpl. eauto.
  - cbn [star_run]. rewrite run_residueRE.
    destruct (startsWithResidue s) eqn:E.
    + destruct (startsWithResidue_shape _ E) as (x & y & rest & -> & Hxy).
      cbn [drop filter dropResidues]. rewrite Hxy.
      replace (shorter (false, rest) (b, String x (String y rest))) with true
        by (symmetry; apply Nat.ltb_lt; simpl; lia).
      cbn [flat_map].
      destruct (IH false rest) as (b' & tl & ->); [simpl in Hl; lia|].
      simpl. eauto.
    + simpl. rewrite (dropResidues_stop _ E). eauto.
Qed.

Lemma run_nameStripRE (s : string) :
  (startsWithResidue s = true ->
   exists b' tl, regexp.run nameStripRE (true, s) = (b', dropResidues s) :: tl)
  /\ (startsWithResidue s = false -> regexp.run nameStripRE (true, s) = []).
Proof.
  change nameStripRE with (Cat Bol (Cat residueRE (Star residueRE))).
  cbn [regexp.run fst flat_map]. rewrite run_residueRE. split; intros E; rewrite E.
  - destruct (startsWithResidue_shape _ E) as (x & y & rest & -> & Hxy).
    cbn [drop flat_map snd]. 
    destruct (star_residue_head (String.length rest) false rest (le_n _))
      as (b' & tl & ->).
    cbn [dropResidues]. rewrite Hxy. simpl. eauto.
  - reflexivity.
Qed.

Lemma find_from_nameStripRE_inside (s : string) (i : nat) :
  find_from nameStripRE false i s = None.
Proof. revert i; induction s as [|c s IH]; intros i; simpl; auto. Qed.

(** The pattern finds the whole leading run of residues, and nothing when
    the text does not start with one. *)
Lemma FindStringIndex_nameStripRE (s : string) :
  FindStringIndex nameStripRE s =
  if startsWithResidue s
  then Some (0, String.length s - String.length (dropResidues s))%nat
  else None.
Proof.
  unfold FindStringIndex. destruct (run_nameStripRE s) as [Ht Hf].
  destruct (startsWithResidue s) eqn:E.
  - destruct (Ht eq_refl) as (b' & tl & Hr).
    destruct s; cbn [find_from]; rewrite Hr; reflexivity.
  - specialize (Hf eq_refl).
    destruct s; cbn [find_from]; rewrite Hf; auto.
    apply find_from_nameStripRE_inside.
Qed.

(** The loop of [cleanName] drops exactly the leading run of residues. *)
Lemma cleanName_loop_dropResidues (s : string) :
  cleanName_loop (S (String.length s)) s = dropResidues s.
Proof.
  cbn [cleanName_loop]. rewrite FindStringIndex_nameStripRE.
  destruct (startsWithResidue s) eqn:E.
  - destruct (dropResidues_split s) as (pre & Hs & _).
    assert (Hd : drop (String.length s - String.length (dropResidues s)) s
                 = dropResidues s).
    { rewrite Hs at 1 3. rewrite length_append.
      replace (String.length pre + String.length (dropResidues s)
               - String.length (dropResidues s))%nat
        with (String.length pre) by lia.
      apply drop_append. }
    rewrite Hd.
    destruct (startsWithResidue_shape _ E) as (x & y & rest & -> & _).
    cbn [String.length cleanName_loop]. rewrite FindStringIndex_nameStripRE.
    now rewrite dropResidues_done.
  - now rewrite dropResidues_stop.
Qed.

Lemma CleanSubdomain_steps (s : string) :
  CleanSubdomain s =
  dropLeadingDot
    (strings.Trim
       (dropResidues (strings.TrimPrefix (strings.TrimSpace (strings.ToLower s)) "*."))
       "-").
Proof.
  unfold CleanSubdomain, cleanName, dropLeadingDot.
  now rewrite cleanName_loop_dropResidues.
Qed.

(** ** Regular expressions: where a match can end

    [ends r b t t']: a match of [r] that starts at the text [t] (at the
    beginning of the whole text iff [b]) can stop with [t'] left. *)

Lemma ends_Lit s b t t' : ends (Lit s) b t t' <-> t = s ++ t'.
Proof.
  unfold ends. split.
  - intros (b' & H). apply run_Lit in H as (t0 & Ht & [= _ ->]). exact Ht.
  - intros ->. eexists. apply run_Lit. cbn [fst snd]. eauto.
Qed.

Lemma ends_Class p b t t' :
  ends (Class p) b t t' <-> exists c, t = String c t' /\ p c = true.
Proof.
  unfold ends. split.
  - intros (b' & H). apply run_Class in H as (c & t0 & Ht & Hp & [= _ ->]). eauto.
  - intros (c & -> & Hp). exists false. apply run_Class. cbn [snd]. eauto.
Qed.

Lemma ends_Eol b t t' : ends Eol b t t' <-> t = "" /\ t' = "".
Proof.
  unfold ends. split.
  - intros (b' & H). apply run_Eol in H as (Ht & [= _ ->]). cbn [snd] in Ht. auto.
  - intros [-> ->]. exists b. apply run_Eol. auto.
Qed.

Lemma ends_Cat x y (X Y : string -> string -> Prop) :
  (forall b t t', ends x b t t' <-> X t t') ->
  (forall b t t', ends y b t t' <-> Y t t') ->
  forall b t t', ends (Cat x y) b t t' <-> exists tm, X t tm /\ Y tm t'.
Proof.
  intros HX HY b t t'. unfold ends. split.
  - intros (b' & H). apply run_Cat in H as ([bm tm] & H1 & H2).
    exists tm. split; [apply (HX b) | apply (HY bm)]; unfold ends; eauto.
  - intros (tm & H1 & H2). apply (HX b) in H1 as (bm & H1).
    apply (HY bm) in H2 as (b' & H2). exists b'. apply run_Cat. eauto.
Qed.

Lemma ends_Alt x y (X Y : string -> string -> Prop) :
  (forall b t t', ends x b t t' <-> X t t') ->
  (forall b t t', ends y b t t' <-> Y t t') ->
  forall b t t', ends (Alt x y) b t t' <-> X t t' \/ Y t t'.
Proof.
  intros HX HY b t t'. rewrite <- (HX b), <- (HY b). unfold ends. split.
  - intros (b' & H). apply run_Alt in H as [H|H]; eauto.
  - intros [(b' & H)|(b' & H)]; exists b'; apply run_Alt; auto.
Qed.

Lemma ends_Opt x (X : string -> string -> Prop) :
  (forall b t t', ends x b t t' <-> X t t') ->
  forall b t t', ends (Opt x) b t t' <-> X t t' \/ t = t'.
Proof.
  intros HX b t t'. rewrite <- (HX b). unfold ends. split.
  - intros (b' & H). apply run_Opt in H as [H|[= _ ->]]; eauto.
  - intros [(b' & H)| ->]; eexists; apply run_Opt; eauto.
Qed.

Lemma star_run_In f fuel st st' :
  In st' (star_run f fuel st) <->
  match fuel with
  | O => st' = st
  | S k => (exists mid, In mid (f st) /\ shorter mid st = true
                        /\ In st' (star_run f k mid))
           \/ st' = st
  end.
Proof.
  destruct fuel as [|k]; cbn [star_run].
  - simpl. intuition.
  - rewrite in_app_iff, in_flat_map. simpl. split.
    + intros [(mid & Hm & H)|[H|[]]]; auto.
      apply filter_In in Hm as [Hm Hs]. left; eauto.
    + intros [(mid & Hm & Hs & H)|H]; auto.
      left. exists mid. split; auto. apply filter_In; auto.
Qed.

Lemma ends_Star x (X : string -> string -> Prop) :
  (forall b t t', ends x b t t' <-> X t t') -> consumes X ->
  forall b t t', ends (Star x) b t t' <-> Iter X t t'.
Proof.
  intros HX HC b t t'. unfold ends. cbn [regexp.run snd].
  assert (G : forall fuel b t, (String.length t <= fuel)%nat ->
                (exists b', In (b', t') (star_run (regexp.run x) fuel (b, t)))
                <-> Iter X t t').
  { clear b t. induction fuel as [|k IH]; intros b t Hl.
    - split.
      + intros (b' & H). apply star_run_In in H. injection H as _ ->. constructor.
      + intros H. exists b. apply star_run_In.
        destruct H as [|t tm t' H1 _]; auto.
        apply HC in H1. lia.
    - split.
      + intros (b' & H). apply star_run_In in H as [([bm tm] & Hm & Hs & H)|H].
        * assert (HR : X t tm) by (apply (HX b); exists bm; exact Hm).
          apply Iter_cons with tm; auto.
          apply (IH bm). { apply HC in HR. lia. } eauto.
        * injection H as _ ->. constructor.
      + intros H. destruct H as [t|t tm t' H1 H2].
        * exists b. apply star_run_In. auto.
        * pose proof (HC _ _ H1) as Hlt.
          apply (HX b) in H1 as (bm & H1).
          apply (IH bm) in H2 as (b' & H2); [|lia].
          exists b'. apply star_run_In. left. exists (bm, tm).
          repeat split; auto. apply Nat.ltb_lt. exact Hlt. }
  apply G. lia.
Qed.

(** A pattern that starts with [^] matches a text iff the rest of the
    pattern matches a prefix of it. *)
Lemma MatchString_Bol r s :
  MatchString (Cat Bol r) s = true <-> exists t', ends r true s t'.
Proof.
  rewrite MatchString_iff. split.
  - intros (pre & rest & st' & -> & H).
    apply run_Cat in H as (mid & H1 & H2). apply run_Bol in H1 as [Hb ->].
    cbn [fst] in Hb. apply String.eqb_eq in Hb. subst pre.
    destruct st' as [b' t']. exists t', b'. exact H2.
  - intros (t' & b' & H). exists "", s, (b', t'). split; auto.
    apply run_Cat. exists (true, s). split; auto. apply run_Bol. auto.
Qed.

(** ** The scope patterns as text *)

Lemma Iter_oneOf p t t' :
  Iter (oneOf p) t t' <-> exists w, allOf p w /\ t = w ++ t'.
Proof.
  split.
  - induction 1 as [t|t tm t' (c & -> & Hc) _ (w & Hw & ->)].
    + exists "". split; reflexivity.
    + exists (String c w). split; auto. unfold allOf in *. simpl. now rewrite Hc.
  - intros (w & Hw & ->). induction w as [|c w IH]; [constructor|].
    unfold allOf in Hw. simpl in Hw. apply andb_true_iff in Hw as [Hc Hw].
    apply Iter_cons with (w ++ t'); [exists c; auto | auto].
Qed.

Lemma consumes_oneOf p : consumes (oneOf p).
Proof. intros t t' (c & -> & _). simpl. lia. Qed.

Lemma ends_PlusClass p b t t' :
  ends (Plus (Class p)) b t t' <-> exists w, w <> "" /\ allOf p w /\ t = w ++ t'.
Proof.
  unfold Plus.
  etransitivity;
    [apply (ends_Cat _ _ (oneOf p) (Iter (oneOf p)));
       [ intros; apply ends_Class
       | intros; apply ends_Star; [intros; apply ends_Class | apply consumes_oneOf] ]|].
  split.
  - intros (tm & (c & -> & Hc) & H). apply Iter_oneOf in H as (w & Hw & ->).
    exists (String c w). split; [discriminate|]. split; [|reflexivity].
    unfold allOf in *. simpl. now rewrite Hc.
  - intros (w & Hne & Hw & ->). destruct w as [|c w]; [congruence|].
    unfold allOf in Hw. simpl in Hw. apply andb_true_iff in Hw as [Hc Hw].
    exists (w ++ t'). split; [exists c; auto|]. apply Iter_oneOf. eauto.
Qed.

Lemma ends_label b t t' :
  ends (Cat (Plus (Class notDot)) (Lit ".")) b t t' <-> oneLabel t t'.
Proof.
  etransitivity;
    [apply (ends_Cat _ _
              (fun t t' => exists w, w <> "" /\ allOf notDot w /\ t = w ++ t')
              (fun t t' => t = "." ++ t'));
       [intros; apply ends_PlusClass | intros; apply ends_Lit]|].
  unfold oneLabel, isLabel. split.
  - intros (tm & (w & Hne & Hw & ->) & ->). eauto.
  - intros (l & [Hne Hw] & ->). eauto 8.
Qed.

Lemma consumes_oneLabel : consumes oneLabel.
Proof.
  intros t t' (l & [Hne _] & ->). rewrite length_append. simpl.
  destruct l; [congruence | simpl; lia].
Qed.

Lemma Iter_oneLabel t t' :
  Iter oneLabel t t' <-> exists labels, Forall isLabel labels /\ t = dotted labels ++ t'.
Proof.
  split.
  - induction 1 as [t|t tm t' (l & Hl & ->) _ (labels & Hls & ->)].
    + exists []. auto.
    + exists (l :: labels). split; auto. cbn [dotted].
      now rewrite !append_assoc.
  - intros (labels & Hls & ->). induction Hls as [|l labels Hl _ IH]; [constructor|].
    apply Iter_cons with (dotted labels ++ t'); auto.
    exists l. split; auto. cbn [dotted]. now rewrite !append_assoc.
Qed.

Lemma ends_port b t tm :
  ends (Cat (Lit ":") (Plus (Class isDigit))) b t tm <-> digitsThen t tm.
Proof.
  etransitivity;
    [apply (ends_Cat _ _ (fun t t' => t = ":" ++ t')
              (fun t t' => exists w, w <> "" /\ allOf isDigit w /\ t = w ++ t'));
       [intros; apply ends_Lit | intros; apply ends_PlusClass]|].
  unfold digitsThen. split.
  - intros (tm' & -> & (w & Hne & Hw & ->)). eauto.
  - intros (ds & Hne & Hd & ->). eauto 8.
Qed.

Lemma ends_portAndEnd b t t' : ends portAndEnd b t t' <-> portThenEnd t t'.
Proof.
  unfold portAndEnd.
  etransitivity;
    [apply (ends_Cat _ _
              (fun t tm => digitsThen t tm \/ t = tm)
              (fun tm t' => tm = "/" ++ t' \/ (tm = "" /\ t' = "")));
       [ intros; apply ends_Opt; intros; apply ends_port
       | intros;
         apply (ends_Alt _ _ (fun t t' => t = "/" ++ t') (fun t t' => t = "" /\ t' = ""));
         intros; [apply ends_Lit | apply ends_Eol] ]|].
  unfold portThenEnd, isPort, digitsThen. split.
  - intros (tm & [(ds & Hne & Hd & ->)| ->] & [-> | [-> ->]]).
    + exists (":" ++ ds). split; [right; eauto|]. left. now rewrite !append_assoc.
    + exists (":" ++ ds). split; [right; eauto|]. right.
      now rewrite !append_nil_r.
    + exists "". split; auto.
    + exists "". split; auto.
  - intros (port & [-> | (ds & -> & Hne & Hd)] & [-> | [-> ->]]).
    + exists ("/" ++ t'). auto.
    + exists "". auto.
    + exists ("/" ++ t'). split; auto. left. exists ds.
      now rewrite !append_assoc.
    + exists "". split; auto. left. exists ds. now rewrite !append_nil_r.
Qed.

Lemma ends_scheme_then (r : Regexp) (Y : string -> string -> Prop) :
  (forall b t t', ends r b t t' <-> Y t t') ->
  forall b t t',
    ends (Cat (Lit "http") (Cat (Opt (Lit "s")) (Cat (Lit "://") r))) b t t'
    <-> exists tm, schemePrefix t tm /\ Y tm t'.
Proof.
  intros HY b t t'.
  etransitivity;
    [apply (ends_Cat _ _ (fun t t' => t = "http" ++ t')
              (fun t t' => exists t1, (t = "s" ++ t1 \/ t = t1)
                                      /\ exists t2, t1 = "://" ++ t2 /\ Y t2 t'));
       [ intros; apply ends_Lit
       | intros;
         apply (ends_Cat _ _ (fun t t' => t = "s" ++ t' \/ t = t')
                  (fun t t' => exists t2, t = "://" ++ t2 /\ Y t2 t'));
         [ intros; apply (ends_Opt _ (fun t t' => t = "s" ++ t')); intros; apply ends_Lit
         | intros; apply (ends_Cat _ _ (fun t t' => t = "://" ++ t') Y);
           [intros; apply ends_Lit | exact HY] ] ]|].
  unfold schemePrefix, isScheme. split.
  - intros (t0 & -> & t1 & [-> | ->] & t2 & -> & H); exists t2; split; auto.
    + exists "https". auto.
    + exists "http". auto.
  - intros (tm & (sch & [-> | ->] & ->) & H).
    + exists ("://" ++ tm). split; auto. exists ("://" ++ tm). split; eauto.
    + exists ("s://" ++ tm). split; auto. exists ("://" ++ tm). split; eauto.
Qed.

Lemma ends_host host b t t' :
  ends (Cat (Lit host) portAndEnd) b t t' <-> hostThenEnd host t t'.
Proof.
  apply (ends_Cat _ _ (fun t t' => t = host ++ t') portThenEnd);
    intros; [apply ends_Lit | apply ends_portAndEnd].
Qed.

Lemma portThenEnd_tail (tp : string) :
  (exists t', portThenEnd tp t') <->
  exists port tail, isPort port /\ endsHost tail /\ tp = port ++ tail.
Proof.
  unfold portThenEnd, endsHost. split.
  - intros (t' & port & Hp & [-> | [-> ->]]).
    + exists port, ("/" ++ t'). eauto 6.
    + exists port, "". rewrite append_nil_r. auto.
  - intros (port & tail & Hp & [-> | (t & ->)] & ->).
    + exists "", port. rewrite append_nil_r. auto.
    + exists t, port. auto.
Qed.

(** X3.  The host-only scope pattern, read as text: a text matches exactly
    when it is [http] or [https], then [://], the host byte for byte, an
    optional colon with at least one digit, and then the end of the text
    or a slash followed by anything. *)
Lemma scopeHostOnly_iff (host s : string) :
  MatchString (scopeHostOnly host) s = true <->
  exists sch port tail,
    isScheme sch /\ isPort port /\ endsHost tail
    /\ s = sch ++ "://" ++ host ++ port ++ tail.
Proof.
  unfold scopeHostOnly.
  change (Cats [Bol; Lit "http"; Opt (Lit "s"); Lit "://"; Lit host; portAndEnd])
    with (Cat Bol (Cat (Lit "http") (Cat (Opt (Lit "s"))
                     (Cat (Lit "://") (Cat (Lit host) portAndEnd))))).
  rewrite MatchString_Bol. split.
  - intros (t' & H).
    apply (ends_scheme_then _ (hostThenEnd host) (ends_host host)) in H
      as (tm & (sch & Hsch & ->) & tp & -> & H).
    destruct (proj1 (portThenEnd_tail tp) (ex_intro _ t' H))
      as (port & tail & Hp & Ht & ->).
    exists sch, port, tail. auto.
  - intros (sch & port & tail & Hsch & Hp & Ht & ->).
    destruct (proj2 (portThenEnd_tail (port ++ tail))) as (t' & H); [eauto|].
    exists t'. apply (ends_scheme_then _ (hostThenEnd host) (ends_host host)).
    exists (host ++ port ++ tail). split; [exists sch; auto|].
    exists (port ++ tail). auto.
Qed.

Lemma ends_labels_host host b t t' :
  ends (Cat (Star (Cat (Plus (Class notDot)) (Lit "."))) (Cat (Lit host) portAndEnd))
       b t t'
  <-> labelsThenHost host t t'.
Proof.
  apply (ends_Cat _ _ (Iter oneLabel) (hostThenEnd host)); intros.
  - apply ends_Star; [intros; apply ends_label | apply consumes_oneLabel].
  - apply ends_host.
Qed.

Lemma scopeWithSubs_matches (host sch : string) (labels : list string)
    (port tail : string) :
  isScheme sch -> Forall isLabel labels -> isPort port -> endsHost tail ->
  MatchString (scopeWithSubs host)
    (sch ++ "://" ++ dotted labels ++ host ++ port ++ tail) = true.
Proof.
  intros Hsch Hls Hp Ht. unfold scopeWithSubs.
  change (Cats [Bol; Lit "http"; Opt (Lit "s"); Lit "://";
                Star (Cat (Plus (Class notDot)) (Lit ".")); Lit host; portAndEnd])
    with (Cat Bol (Cat (Lit "http") (Cat (Opt (Lit "s"))
            (Cat (Lit "://")
               (Cat (Star (Cat (Plus (Class notDot)) (Lit ".")))
                    (Cat (Lit host) portAndEnd)))))).
  apply MatchString_Bol.
  destruct (proj2 (portThenEnd_tail (port ++ tail))) as (t' & H); [eauto|].
  exists t'.
  apply (ends_scheme_then _ (labelsThenHost host) (ends_labels_host host)).
  exists (dotted labels ++ host ++ port ++ tail). split; [exists sch; auto|].
  exists (host ++ port ++ tail). split; [apply Iter_oneLabel; eauto|].
  exists (port ++ tail). auto.
Qed.

(** X4.  The pattern with sub-domains, read as text: between [://] and the
    host stands any number of dot-terminated labels. *)
Lemma scopeWithSubs_iff (host s : string) :
  MatchString (scopeWithSubs host) s = true <->
  exists sch labels port tail,
    isScheme sch /\ Forall isLabel labels /\ isPort port /\ endsHost tail
    /\ s = sch ++ "://" ++ dotted labels ++ host ++ port ++ tail.
Proof.
  unfold scopeWithSubs.
  change (Cats [Bol; Lit "http"; Opt (Lit "s"); Lit "://";
                Star (Cat (Plus (Class notDot)) (Lit ".")); Lit host; portAndEnd])
    with (Cat Bol (Cat (Lit "http") (Cat (Opt (Lit "s"))
            (Cat (Lit "://")
               (Cat (Star (Cat (Plus (Class notDot)) (Lit ".")))
                    (Cat (Lit host) portAndEnd)))))).
  rewrite MatchString_Bol. split.
  - intros (t' & H).
    apply (ends_scheme_then _ (labelsThenHost host) (ends_labels_host host)) in H
      as (tm & (sch & Hsch & ->) & tl & Hl & tp & -> & H).
    apply Iter_oneLabel in Hl as (labels & Hls & ->).
    destruct (proj1 (portThenEnd_tail tp) (ex_intro _ t' H))
      as (port & tail & Hp & Ht & ->).
    exists sch, labels, port, tail. auto.
  - intros (sch & labels & port & tail & Hsch & Hls & Hp & Ht & ->).
    destruct (proj2 (portThenEnd_tail (port ++ tail))) as (t' & H); [eauto|].
    exists t'.
    apply (ends_scheme_then _ (labelsThenHost host) (ends_labels_host host)).
    exists (dotted labels ++ host ++ port ++ tail). split; [exists sch; auto|].
    exists (host ++ port ++ tail). split; [apply Iter_oneLabel; eauto|].
    exists (port ++ tail). auto.
Qed.

(** ** Scope of a bare-domain target *)

Lemma crawler_example_com_built :
  normalizeTarget (libs := exampleLibs) "example.com"
  = (httpsURL "example.com" "" "", Some {| Domain := "example.com"; AllowSubs := true |})
  /\ NewCrawler (libs := exampleLibs) (httpsURL "example.com" "" "") plainFlags
       (Some {| Domain := "example.com"; AllowSubs := true |})
     = Some crawler_example_com.
Proof. split; vm_compute; reflexivity. Qed.

(** C1 (the code breaks the claim).  With sub-domains allowed the scope
    pattern accepts the URL [https://evil.com/a.example.com]: the two
    "labels" [[^.]+\.] it reads are [evil.] and [com/a.], the second of
    which runs out of the host into the path.  The host of the URL is
    [evil.com], which is neither the scope host nor a sub-domain of it
    (the host test of the redirect policy rejects it), and the anchor
    callback prints and requests the URL as in scope. *)
Theorem scope_accepts_foreign_host :
  url.Parse "https://evil.com/a.example.com"
  = Some (httpsURL "evil.com" "/a.example.com" "")
  /\ url.URL_Hostname (httpsURL "evil.com" "/a.example.com" "") = "evil.com"
  /\ InScope (httpsURL "evil.com" "/a.example.com" "") (C_URLFilters crawler_example_com)
     = true
  /\ sameHost "evil.com" "example.com" true = false
  /\ OnHTML (libs := exampleLibs) crawler_example_com initState
       (link "https://evil.com/a.example.com")
     = {| subSet := []; awsSet := []; jsSet := [];
          urlSet := ["https://evil.com/a.example.com"];
          formSet := []; uploadFormSet := [];
          out := [{| kind := "href"; text := "[href] - https://evil.com/a.example.com" |}];
          file := [];
          visits := [{| via := MainCollector;
                        target := "https://evil.com/a.example.com" |}] |}.
Proof. repeat split; vm_compute; reflexivity. Qed.

Section BareDomain.
Context {libs : Libraries}.

Lemma normalizeTarget_bare raw u so :
  normalizeTarget raw = (u, Some so) ->
  strings.Contains (strings.TrimSpace raw) "://" = false
  /\ url.Parse ("https://" ++ strings.TrimSpace raw) = Some u
  /\ AllowSubs so = true
  /\ Domain so = (if GetDomain u =? "" then url.Host u else GetDomain u).
Proof.
  unfold normalizeTarget. destruct (_ =? ""); [discriminate|].
  destruct (strings.Contains _ "://").
  - destruct (url.Parse _); discriminate.
  - destruct (url.Parse _) as [u'|]; [|discriminate].
    intros [= <- <-]. auto.
Qed.

(** The filters of a crawler built for a scope override without
    whitelist flags: the one scope pattern of the override. *)
Lemma NewCrawler_override_filters u fl so cr :
  NewCrawler u fl (Some so) = Some cr ->
  flag_whitelist fl = None -> flag_whitelist_domain fl = "" ->
  C_URLFilters cr = [scopeRE (AllowSubs so) (Domain so)]
  /\ LinkFinderCollector_URLFilters cr = [scopeRE (AllowSubs so) (Domain so)].
Proof.
  unfold NewCrawler. destruct (GetDomain u =? ""); [discriminate|].
  intros [= <-] Hw Hd. cbn [C_URLFilters LinkFinderCollector_URLFilters].
  unfold primaryFilters, linkFinderFilters. rewrite Hw, Hd. auto.
Qed.

(** What the scope test does give for a target written as a bare domain
    (and no whitelist flag): the scope is the one pattern
    [^https?://([^.]+\.)*<apex>(:port)?(/|$)], and every line of kind href
    or linkfinder carries the canonical form of a URL whose text matched
    that pattern when it was checked.  That is a statement about the text
    of the URL, not about its host. *)
Lemma bare_domain_scoped_lines raw fl u so cr lf rb events :
  normalizeTarget raw = (u, Some so) ->
  NewCrawler u fl (Some so) = Some cr ->
  flag_whitelist fl = None -> flag_whitelist_domain fl = "" ->
  C_URLFilters cr = [scopeWithSubs (Domain so)]
  /\ forall ln,
       In ln (out (crawl (run cr lf rb events))) ->
       kind ln = "href" \/ kind ln = "linkfinder" ->
       exists abs,
         MatchString (scopeWithSubs (Domain so)) (url.URL_String abs) = true
         /\ (text ln = formatRecord cr ("[href] - " ++ canonicalizeURL abs)
                         (mkOutput (Input cr) "body" "href" (canonicalizeURL abs))
             \/ exists source, text ln = linkfinderLine cr source (canonicalizeURL abs)).
Proof.
  intros Hn Hc Hw Hd.
  destruct (normalizeTarget_bare _ _ _ Hn) as (_ & _ & Hsubs & _).
  destruct (NewCrawler_override_filters _ _ _ _ Hc Hw Hd) as [Hf _].
  rewrite Hsubs in Hf. cbn [scopeRE] in Hf. split; auto.
  intros ln Hin Hk.
  pose proof (run_lines cr lf rb events) as F. rewrite Forall_forall in F.
  specialize (F _ Hin).
  assert (S : forall abs, InScope abs (C_URLFilters cr) = true ->
                MatchString (scopeWithSubs (Domain so)) (url.URL_String abs) = true).
  { intros abs. rewrite Hf. unfold InScope. cbn [existsb]. now rewrite orb_false_r. }
  unfold runLine, crawlLine, scanLine, kindIs, scopedHref, scopedLinkfinder,
    cleanedSubdomain in F.
  destruct F as [[H|[[[H _]|[H|[H|[[H (abs & src & Hs & Ht)]|H]]]]
                     |[[H (abs & Hs & Ht)]|[H|H]]]]|[H|H]];
    try (destruct Hk as [Hk|Hk]; rewrite Hk in H; discriminate).
  - exists abs. split; eauto.
  - exists abs. split; auto.
Qed.

End BareDomain.

(** Lines of kind javascript are printed for every script asset, whatever
    its host, and only the request is scoped ("always emit JS/asset URLs;
    only visit when in-scope"): the run of the target [example.com] prints
    the script of another host and requests nothing. *)
Lemma bare_domain_prints_foreign_script :
  out (crawl (run (libs := exampleLibs) crawler_example_com true None
                [HTMLEvent (script "https://cdn.other.net/app.js")]))
  = [{| kind := "javascript"; text := "[javascript] - https://cdn.other.net/app.js" |}]
  /\ option_map url.URL_Hostname (url.Parse "https://cdn.other.net/app.js")
     = Some "cdn.other.net"
  /\ sameHost "cdn.other.net" "example.com" true = false
  /\ visits (crawl (run (libs := exampleLibs) crawler_example_com true None
                      [HTMLEvent (script "https://cdn.other.net/app.js")])) = [].
Proof. repeat split; vm_compute; reflexivity. Qed.

(** C2 (the code breaks the claim).  The target [example.com], written as
    a bare domain, is normalised to the start URL [https://example.com]
    with the scope "example.com and its sub-domains", for which
    [NewCrawler] builds the crawler above.  A page of the run that links
    to [https://evil.com/a.example.com] makes the run print the href
    record of that URL and hand it to the collector.  The host of the
    URL is [evil.com]: it is not [example.com] and does not end in
    [.example.com]. *)
Theorem bare_domain_run_prints_foreign_host :
  normalizeTarget (libs := exampleLibs) "example.com"
  = (httpsURL "example.com" "" "", Some {| Domain := "example.com"; AllowSubs := true |})
  /\ NewCrawler (libs := exampleLibs) (httpsURL "example.com" "" "") plainFlags
       (Some {| Domain := "example.com"; AllowSubs := true |})
     = Some crawler_example_com
  /\ out (crawl (run (libs := exampleLibs) crawler_example_com true None
                   [HTMLEvent (link "https://evil.com/a.example.com")]))
     = [{| kind := "href"; text := "[href] - https://evil.com/a.example.com" |}]
  /\ visits (crawl (run (libs := exampleLibs) crawler_example_com true None
                      [HTMLEvent (link "https://evil.com/a.example.com")]))
     = [{| via := MainCollector; target := "https://evil.com/a.example.com" |}]
  /\ option_map url.URL_Hostname (url.Parse "https://evil.com/a.example.com")
     = Some "evil.com"
  /\ ("evil.com" =? "example.com") = false
  /\ strings.HasSuffix "evil.com" ".example.com" = false.
Proof. repeat split; vm_compute; reflexivity. Qed.

(** * Invariants of a run

    A property of the state that the four primitive updates keep (a line
    printed by [emitLine], a raw line written to the file in quiet mode, a
    scoped request queued by [Visit], a deduper updated) is kept by every
    callback, and so holds after every run. *)

Section Preservation.
Context {libs : Libraries}.
Variable cr : Crawler.
Variable Inv : State -> Prop.
Hypothesis Inv_emit : forall st k line, Inv st -> Inv (emitLine cr st k line).
Hypothesis Inv_write :
  raw cr = true -> Quiet cr = true ->
  forall st msg, Inv st -> Inv (WriteToFile cr st msg).
Hypothesis Inv_visit :
  forall st c u,
    scopedRequest cr {| via := c; target := u |} -> Inv st -> Inv (Visit c u st).
Hypothesis Inv_sets : forall st a b c d e f, Inv st -> Inv (with_sets st a b c d e f).

Lemma Inv_dup_js st s : Inv st -> Inv (snd (dup_js st s)).
Proof. intros H. unfold dup_js. destruct (Duplicate _ _). now apply Inv_sets. Qed.

Lemma Inv_dup_url st s : Inv st -> Inv (snd (dup_url st s)).
Proof. intros H. unfold dup_url. destruct (Duplicate _ _). now apply Inv_sets. Qed.

Lemma Inv_dup_sub st s : Inv st -> Inv (snd (dup_sub st s)).
Proof. intros H. unfold dup_sub. destruct (Duplicate _ _). now apply Inv_sets. Qed.

Lemma Inv_dup_aws st s : Inv st -> Inv (snd (dup_aws st s)).
Proof. intros H. unfold dup_aws. destruct (Duplicate _ _). now apply Inv_sets. Qed.

Lemma Inv_dup_form st s : Inv st -> Inv (snd (dup_form st s)).
Proof. intros H. unfold dup_form. destruct (Duplicate _ _). now apply Inv_sets. Qed.

Lemma Inv_dup_upload st s : Inv st -> Inv (snd (dup_upload st s)).
Proof. intros H. unfold dup_upload. destruct (Duplicate _ _). now apply Inv_sets. Qed.

Lemma Inv_fold {A} (f : State -> A -> State) (l : list A) :
  (forall st x, Inv st -> Inv (f st x)) ->
  forall st, Inv st -> Inv (fold_left f l st).
Proof. intros Hf. induction l as [|x l IH]; intros st H; simpl; auto. Qed.

Lemma Inv_feedLinkfinder st js ot src : Inv st -> Inv (feedLinkfinder cr st js ot src).
Proof.
  intros H. unfold feedLinkfinder.
  pose proof (Inv_dup_js st js H) as H1. destruct (dup_js st js) as [d st1].
  cbn [snd] in H1. destruct d; auto.
  destruct (url.Parse js) as [abs|]; auto.
  destruct (InScope abs (C_URLFilters cr)) eqn:Hs; cbn [negb]; auto.
  apply Inv_visit; [left; exists abs; split; auto|].
  destruct (strings.Contains _ _) eqn:Hc; auto.
  apply Inv_visit; auto. left; exists abs; split; auto.
Qed.

Lemma Inv_emitLinkfinder st source u :
  scopedRequest cr {| via := MainCollector; target := u |} ->
  Inv st -> Inv (emitLinkfinder cr st source u).
Proof.
  intros Hq H. unfold emitLinkfinder. apply Inv_visit; auto. destruct (negb _); auto.
Qed.

Lemma Inv_linkfinderToken base source fs st t :
  Inv st -> Inv (linkfinderToken cr base source fs st t).
Proof.
  intros H. unfold linkfinderToken.
  destruct (isNoiseToken t); auto.
  destruct (isAbsoluteURL t).
  - destruct (url.Parse t) as [uAbs|]; auto.
    destruct (InScope uAbs (C_URLFilters cr)) eqn:Hs; cbn [negb]; auto.
    pose proof (Inv_dup_url st (canonicalizeURL uAbs) H) as H1.
    destruct (dup_url st _) as [d st1]. cbn [snd] in H1.
    destruct d; auto. apply Inv_emitLinkfinder; auto. left; exists uAbs; auto.
  - destruct (_ =? ""); auto.
    destruct (url.Parse _) as [uReb|]; auto.
    destruct (InScope uReb (C_URLFilters cr)) eqn:Hs; cbn [negb]; auto.
    destruct (scriptLike _); [now apply Inv_feedLinkfinder|].
    pose proof (Inv_dup_url st (canonicalizeURL uReb) H) as H1.
    destruct (dup_url st _) as [d st1]. cbn [snd] in H1.
    destruct d; auto. apply Inv_emitLinkfinder; auto. left; exists uReb; auto.
Qed.

Lemma Inv_findSubdomains st resp : Inv st -> Inv (findSubdomains cr st resp).
Proof.
  unfold findSubdomains. apply Inv_fold. clear st. intros st sub H.
  unfold findSubdomains_one.
  pose proof (Inv_dup_sub st sub H) as H1. destruct (dup_sub st sub) as [d st1].
  cbn [snd] in H1. destruct d; auto.
  destruct (JsonOutput cr); [destruct (MarshalToString _); auto|].
  destruct (negb _); auto.
Qed.

Lemma Inv_findAWSS3 st resp : Inv st -> Inv (findAWSS3 cr st resp).
Proof.
  unfold findAWSS3. apply Inv_fold. clear st. intros st e H.
  unfold findAWSS3_one.
  pose proof (Inv_dup_aws st e H) as H1. destruct (dup_aws st e) as [d st1].
  cbn [snd] in H1. destruct d; auto.
Qed.

Lemma Inv_emitRaw st respStr : Inv st -> Inv (emitRaw cr st respStr).
Proof.
  intros H. unfold emitRaw. destruct (raw cr) eqn:Hr; auto.
  destruct (Quiet cr) eqn:Hq; cbn [negb]; auto.
Qed.

Lemma Inv_emitURL st status n u : Inv st -> Inv (emitURL cr st status n u).
Proof. intros H. unfold emitURL. auto. Qed.

Lemma Inv_OnResponse st r : Inv st -> Inv (OnResponse cr st r).
Proof.
  intros H. unfold OnResponse.
  destruct (passesLengthFilter _ _); auto.
  destruct (_ && _); [|now apply Inv_emitURL].
  apply Inv_emitRaw.
  match goal with
  | |- Inv (if ?b then _ else _) => destruct b
  end.
  - apply Inv_fold; [intros; now apply Inv_linkfinderToken|].
    now apply Inv_findAWSS3, Inv_findSubdomains, Inv_emitURL.
  - now apply Inv_findAWSS3, Inv_findSubdomains, Inv_emitURL.
Qed.

Lemma Inv_OnError st r : Inv st -> Inv (OnError cr st r).
Proof.
  intros H. unfold OnError. destruct (_ || _ || _ || _); auto using Inv_emitURL.
Qed.

Lemma Inv_LinkFinder_OnResponse st r : Inv st -> Inv (LinkFinder_OnResponse cr st r).
Proof.
  intros H. unfold LinkFinder_OnResponse.
  destruct (_ || _ || _); auto.
  destruct (maxGrepBody <? _)%Z; [now apply Inv_emitURL|].
  destruct (passesLengthFilter _ _); auto.
  destruct (InScope _ _); [|now apply Inv_emitURL].
  apply Inv_emitRaw. apply Inv_fold; [intros; now apply Inv_linkfinderToken|].
  now apply Inv_findAWSS3, Inv_findSubdomains, Inv_emitURL.
Qed.

Lemma Inv_OnHTML st e : Inv st -> Inv (OnHTML cr st e).
Proof.
  intros H. unfold OnHTML.
  destruct (_ || _).
  { destruct (_ =? ""); auto.
    destruct (MatchString _ _); auto.
    destruct (url.Parse _) as [abs|]; auto.
    destruct (InScope abs (C_URLFilters cr)) eqn:Hs; cbn [negb]; auto.
    pose proof (Inv_dup_url st (canonicalizeURL abs) H) as H1.
    destruct (dup_url st _) as [d st1]. cbn [snd] in H1. destruct d; auto.
    apply Inv_visit; auto. left; exists abs; auto. }
  destruct (Name e =? "form").
  { pose proof (Inv_dup_form st (url.URL_String (PageURL e)) H) as H1.
    destruct (dup_form st _) as [d st1]. cbn [snd] in H1. destruct d; auto. }
  destruct (Name e =? "input").
  { pose proof (Inv_dup_upload st (url.URL_String (PageURL e)) H) as H1.
    destruct (dup_upload st _) as [d st1]. cbn [snd] in H1. destruct d; auto. }
  destruct (Name e =? "script"); auto.
  destruct (_ =? ""); auto.
  destruct (_ || _ || _); auto using Inv_feedLinkfinder.
Qed.

Lemma Inv_render_turn rm st : Inv st -> Inv (snd (render_turn cr rm st)).
Proof.
  intros H. unfold render_turn.
  destruct (budget rm <=? 0)%Z; auto.
  destruct (queue rm) as [|u rest]; auto.
  destruct (u =? ""); auto.
  destruct (Duplicate _ _) as [d seen]. destruct d; auto.
  destruct (negb _); cbn [snd]; auto.
Qed.

Lemma Inv_render_network st x reqURL : Inv st -> Inv (render_network cr st x reqURL).
Proof.
  intros H. unfold render_network.
  destruct (x && inScopeStr reqURL (C_URLFilters cr)) eqn:E; auto.
  apply andb_true_iff in E as [_ E].
  pose proof (Inv_dup_url st reqURL H) as H1.
  destruct (dup_url st _) as [d st1]. cbn [snd] in H1. destruct d; auto.
  apply Inv_emit, Inv_visit; auto. right; auto.
Qed.

Lemma Inv_step lf w ev : Inv (crawl w) -> Inv (crawl (step cr lf w ev)).
Proof.
  intros H. destruct ev as [e|r|r|r| |x reqURL]; cbn [step crawl].
  - now apply Inv_OnHTML.
  - now apply Inv_OnResponse.
  - now apply Inv_OnError.
  - destruct lf; auto. now apply Inv_LinkFinder_OnResponse.
  - destruct (render w) as [rm|]; auto.
    pose proof (Inv_render_turn rm (crawl w) H) as H1.
    destruct (render_turn cr rm (crawl w)) as [rm' st']. exact H1.
  - destruct (render w) as [rm|]; auto.
    destruct (0 <? budget rm)%Z; auto. now apply Inv_render_network.
Qed.

Lemma Inv_run lf rb events : Inv initState -> Inv (crawl (run cr lf rb events)).
Proof.
  intros H. unfold run.
  assert (G : forall w, Inv (crawl w) -> Inv (crawl (fold_left (step cr lf) events w))).
  { induction events as [|ev events IH]; intros w Hw; simpl; auto.
    apply IH. now apply Inv_step. }
  apply G. exact H.
Qed.

End Preservation.

(** ** Labels and keys *)

Section LabelsAndKeys.
Context {libs : Libraries}.

(** X5.  The emit filter is asked about the key a line is emitted under,
    not about the label it shows.  A script-like URL that the linkfinder
    scan finds is printed by [feedLinkfinder] with the label [linkfinder]
    under the key [javascript]: whether the line appears depends on the
    filter's answer for [javascript] alone.  So [--exclude-types
    linkfinder] does not remove it, and [--exclude-types javascript]
    does. *)
Theorem linkfinder_assets_filtered_as_javascript cr st js src abs :
  JsonOutput cr = false -> Quiet cr = false ->
  mem (strings.ToLower js) (jsSet st) = false ->
  url.Parse js = Some abs ->
  out (feedLinkfinder cr st js "linkfinder" src)
  = (out st ++ if EmitFilter_OK (emit cr) "javascript"
               then [{| kind := "javascript";
                        text := "[linkfinder] - " ++ canonicalizeURL abs |}]
               else [])%list.
Proof.
  intros Hj Hq Hm Hp.
  destruct (feedLinkfinder_fresh cr st js "linkfinder" src abs Hm Hp) as (Ho & _).
  rewrite Ho. unfold jsRecord, formatRecord. now rewrite Hj, Hq.
Qed.

End LabelsAndKeys.

Lemma linkfinder_assets_filtered_as_javascript_witness :
  out (feedLinkfinder (libs := exampleLibs) (crawler_a_test (excludeFlags "linkfinder"))
         initState "https://a.test/app.js" "linkfinder" "html")
  = [{| kind := "javascript"; text := "[linkfinder] - https://a.test/app.js" |}]
  /\ out (feedLinkfinder (libs := exampleLibs) (crawler_a_test (excludeFlags "javascript"))
            initState "https://a.test/app.js" "linkfinder" "html")
     = [].
Proof.
  split.
  - apply (linkfinder_assets_filtered_as_javascript (libs := exampleLibs)
             (crawler_a_test (excludeFlags "linkfinder")) initState
             "https://a.test/app.js" "html" (httpsURL "a.test" "/app.js" ""));
      reflexivity.
  - apply (linkfinder_assets_filtered_as_javascript (libs := exampleLibs)
             (crawler_a_test (excludeFlags "javascript")) initState
             "https://a.test/app.js" "html" (httpsURL "a.test" "/app.js" ""));
      reflexivity.
Defined.

Section RunInvariants.
Context {libs : Libraries}.

(** X7.  Every request that the callbacks of a run queue is for the canonical
    form of a URL that passed the scope filters, for the un-minified
    counterpart of such a URL (JS collector), or for a network URL of the
    render pass that passed the filters. *)
Theorem queued_requests_are_scoped cr lf rb events :
  Forall (scopedRequest cr) (visits (crawl (run cr lf rb events))).
Proof.
  apply (Inv_run cr (fun st => Forall (scopedRequest cr) (visits st))).
  - intros st k line H. now rewrite visits_emitLine.
  - intros _ _ st msg H. now rewrite visits_WriteToFile.
  - intros st c u Hq H. cbn. apply Forall_app; split; auto.
  - intros st a b c d e f H. exact H.
  - constructor.
Qed.

End RunInvariants.

(** * The element callback and the dedupers *)

Section Dedupe.
Context {libs : Libraries}.

Lemma sets_emitLine cr st k line :
  urlSet (emitLine cr st k line) = urlSet st
  /\ formSet (emitLine cr st k line) = formSet st
  /\ uploadFormSet (emitLine cr st k line) = uploadFormSet st.
Proof.
  unfold emitLine, WriteToFile.
  destruct (EmitFilter_OK _ _), (hasOutput cr); cbn; auto.
Qed.

Lemma dup_url_seen st s :
  mem (strings.ToLower s) (urlSet st) = true -> dup_url st s = (true, st).
Proof.
  intros H. unfold dup_url. rewrite (Duplicate_seen _ _ H). now rewrite with_sets_same.
Qed.

Lemma dup_form_seen st s :
  mem (strings.ToLower s) (formSet st) = true -> dup_form st s = (true, st).
Proof.
  intros H. unfold dup_form. rewrite (Duplicate_seen _ _ H). now rewrite with_sets_same.
Qed.

Lemma dup_upload_seen st s :
  mem (strings.ToLower s) (uploadFormSet st) = true -> dup_upload st s = (true, st).
Proof.
  intros H. unfold dup_upload. rewrite (Duplicate_seen _ _ H). now rewrite with_sets_same.
Qed.

(** X8.  Handling the same element a second time changes nothing: the
    dedupers of [OnHTML] (by canonical URL for [a] and [link], by page for
    [form] and [input], by raw URL for [script]) make the callback
    idempotent. *)
Theorem OnHTML_idempotent cr st e :
  OnHTML cr (OnHTML cr st e) e = OnHTML cr st e.
Proof.
  remember (OnHTML cr st e) as R eqn:HR. unfold OnHTML in *.
  destruct (_ || _).
  { destruct (_ =? ""); [now subst|].
    destruct (MatchString _ _); [now subst|].
    destruct (url.Parse _) as [abs|]; [|now subst].
    destruct (negb _); [now subst|].
    destruct (mem (strings.ToLower (canonicalizeURL abs)) (urlSet st)) eqn:Hm.
    - rewrite (dup_url_seen _ _ Hm) in HR. subst R. now rewrite (dup_url_seen _ _ Hm).
    - unfold dup_url in HR. rewrite (Duplicate_fresh _ _ Hm) in HR.
      rewrite dup_url_seen; [reflexivity|]. subst R. cbn [Visit with_visits urlSet].
      rewrite (proj1 (sets_emitLine _ _ _ _)). apply mem_cons_eq. }
  destruct (Name e =? "form").
  { destruct (mem (strings.ToLower (url.URL_String (PageURL e))) (formSet st)) eqn:Hm.
    - rewrite (dup_form_seen _ _ Hm) in HR. subst R. now rewrite (dup_form_seen _ _ Hm).
    - unfold dup_form in HR. rewrite (Duplicate_fresh _ _ Hm) in HR.
      rewrite dup_form_seen; [reflexivity|]. subst R.
      rewrite (proj1 (proj2 (sets_emitLine _ _ _ _))). apply mem_cons_eq. }
  destruct (Name e =? "input").
  { destruct (mem (strings.ToLower (url.URL_String (PageURL e))) (uploadFormSet st)) eqn:Hm.
    - rewrite (dup_upload_seen _ _ Hm) in HR. subst R. now rewrite (dup_upload_seen _ _ Hm).
    - unfold dup_upload in HR. rewrite (Duplicate_fresh _ _ Hm) in HR.
      rewrite dup_upload_seen; [reflexivity|]. subst R.
      rewrite (proj2 (proj2 (sets_emitLine _ _ _ _))). apply mem_cons_eq. }
  destruct (Name e =? "script"); [|now subst].
  destruct (_ =? ""); [now subst|].
  destruct (_ || _ || _); [|now subst].
  subst R. apply feedLinkfinder_duplicate, feedLinkfinder_jsSet.
Qed.

End Dedupe.

(** * Helpers *)

Lemma mem_In (k : string) (l : list string) : mem k l = true <-> In k l.
Proof.
  unfold mem. rewrite existsb_exists. split.
  - intros (x & Hx & E). apply String.eqb_eq in E. now subst.
  - intros H. exists k. split; auto. apply String.eqb_refl.
Qed.

Lemma mem_false (k : string) (l : list string) : mem k l = false <-> ~ In k l.
Proof.
  rewrite <- mem_In. destruct (mem k l); split; intros; congruence.
Qed.

Lemma Unique_from_In (seen l : list string) (x : string) :
  In x (Unique_from seen l) <-> In x l /\ ~ In x seen.
Proof.
  revert seen; induction l as [|y l IH]; intros seen; simpl; [tauto|].
  destruct (mem y seen) eqn:E.
  - rewrite IH. apply mem_In in E. split; [tauto|].
    intros [[->|H] Hn]; tauto.
  - apply mem_false in E. simpl. rewrite IH. simpl.
    destruct (string_dec y x) as [->|Hne]; tauto.
Qed.

Lemma Unique_from_NoDup (seen l : list string) : NoDup (Unique_from seen l).
Proof.
  revert seen; induction l as [|y l IH]; intros seen; simpl; [constructor|].
  destruct (mem y seen); auto.
  constructor; auto. rewrite Unique_from_In. simpl. tauto.
Qed.

Lemma Unique_from_filter (s1 s2 l : list string) :
  Unique_from (s1 ++ s2) l = Unique_from s1 (filter (fun y => negb (mem y s2)) l).
Proof.
  revert s1; induction l as [|y l IH]; intros s1; simpl; auto.
  assert (E : mem y (s1 ++ s2) = mem y s1 || mem y s2)
    by (unfold mem; apply existsb_app).
  rewrite E. destruct (mem y s2); simpl.
  - rewrite orb_true_r. apply IH.
  - rewrite orb_false_r. destruct (mem y s1); [apply IH|].
    f_equal. apply (IH (y :: s1)).
Qed.

Lemma Unique_from_fixed (seen l : list string) :
  NoDup l -> (forall x, In x l -> ~ In x seen) -> Unique_from seen l = l.
Proof.
  revert seen; induction l as [|y l IH]; intros seen Hn Hs; simpl; auto.
  inversion Hn as [|? ? Hy Hl]; subst.
  replace (mem y seen) with false
    by (symmetry; apply mem_false, Hs; now left).
  f_equal. apply IH; auto.
  intros x Hx [<-|Hin]; [contradiction|]. apply (Hs x); simpl; auto.
Qed.

(** X9.  [Unique] keeps the first occurrence of every string, in order: the
    result has no duplicates and the same elements; its head is the head
    of the input and the rest is [Unique] of the input without that
    string; a list without duplicates is returned as it is, so [Unique]
    is idempotent. *)
Theorem Unique_keeps_first_occurrences (l : list string) :
  NoDup (Unique l)
  /\ (forall x, In x (Unique l) <-> In x l)
  /\ (forall x, Unique (x :: l) = x :: Unique (filter (fun y => negb (y =? x)) l))
  /\ Unique (Unique l) = Unique l.
Proof.
  unfold Unique. split; [apply Unique_from_NoDup|]. split; [|split].
  - intros x. rewrite Unique_from_In. simpl. tauto.
  - intros x. simpl. f_equal.
    transitivity (Unique_from ([] ++ [x]) l); [reflexivity|].
    rewrite Unique_from_filter. f_equal. apply filter_ext.
    intros y. unfold mem. simpl. now rewrite orb_false_r.
  - apply Unique_from_fixed; [apply Unique_from_NoDup | auto].
Qed.

Lemma contains_In (ii : list Z) (j : Z) : contains ii j = true <-> In j ii.
Proof.
  induction ii as [|v ii IH]; simpl; [split; [discriminate | tauto]|].
  destruct (Z.eqb_spec v j) as [->|Hne]; [tauto|].
  rewrite IH. split; [tauto|]. intros [H|H]; [contradiction | exact H].
Qed.

(** X10.  The length filter rejects a body length exactly when the length is
    listed in [--filter-length]; an empty list rejects nothing. *)
Theorem passesLengthFilter_iff (cr : Crawler) (n : Z) :
  passesLengthFilter cr n = false <-> In n (filterLengthSlice cr).
Proof.
  unfold passesLengthFilter. destruct (filterLengthSlice cr) as [|v l] eqn:E.
  - split; [discriminate | intros []].
  - rewrite negb_false_iff. apply contains_In.
Qed.

Lemma newlineRE_replace_clean (b : bool) (s : string) :
  allOf (fun c => negb (isNewlineByte c)) (newlineRE_replace b s).
Proof.
  unfold allOf. revert b; induction s as [|c s IH]; intros b; simpl; auto.
  fold (isNewlineByte c). destruct (isNewlineByte c) eqn:E.
  - destruct b; simpl; auto.
  - simpl. rewrite E. simpl. apply IH.
Qed.

Lemma newlineRE_replace_fixed (s : string) :
  allOf (fun c => negb (isNewlineByte c)) s -> newlineRE_replace false s = s.
Proof.
  unfold allOf. induction s as [|c s IH]; simpl; auto.
  fold (isNewlineByte c). intros H. apply andb_true_iff in H as [Hc Hs].
  apply negb_true_iff in Hc. rewrite Hc. f_equal. auto.
Qed.

Section LinkFinderTokens.
Context {libs : Libraries}.

(** X11.  The tokens [LinkFinder] returns: no token twice, none empty, none
    with a tab, a carriage return or a line feed in it. *)
Theorem LinkFinder_tokens (source : string) :
  NoDup (LinkFinder source)
  /\ forall t, In t (LinkFinder source) ->
       t <> "" /\ allOf (fun c => negb (isNewlineByte c)) t.
Proof.
  unfold LinkFinder. split; [apply Unique_from_NoDup|].
  intros t Ht. apply Unique_from_In in Ht as [Ht _].
  apply in_flat_map in Ht as (m & _ & Hm).
  destruct (FilterNewLines (nth 1 m "") =? "") eqn:E; [destruct Hm|].
  destruct Hm as [<-|[]]. split.
  - now apply String.eqb_neq.
  - apply newlineRE_replace_clean.
Qed.

End LinkFinderTokens.

Lemma Ext_from_plain (w best : string) :
  allOf notDotOrSlash w -> Ext_from w best = best.
Proof.
  unfold allOf. revert best; induction w as [|c w IH]; intros best; simpl; auto.
  intros H. apply andb_true_iff in H as [Hc Hw]. unfold notDotOrSlash in Hc.
  apply andb_true_iff in Hc as [Hd Hs]. apply negb_true_iff in Hd, Hs.
  rewrite Hs, Hd. auto.
Qed.

Lemma Ext_from_noslash (w best : string) :
  allOf notDotOrSlash w -> forall pre, Ext_from (pre ++ "/" ++ w) best = "".
Proof.
  intros Hw pre. revert best; induction pre as [|c pre IH]; intros best; simpl.
  - now apply Ext_from_plain.
  - destruct (Ascii.eqb c "/"); [apply IH|]. destruct (Ascii.eqb c "."); apply IH.
Qed.

Lemma Ext_from_dot (w best : string) :
  allOf notDotOrSlash w -> forall pre, Ext_from (pre ++ "." ++ w) best = "." ++ w.
Proof.
  intros Hw pre. revert best; induction pre as [|c pre IH]; intros best; simpl.
  - now apply Ext_from_plain.
  - destruct (Ascii.eqb c "/"); [apply IH|]. destruct (Ascii.eqb c "."); apply IH.
Qed.

(** X12.  [GetExtType]: the extension of a URL is the text from the last dot
    of the last element of its path; the query and the fragment play no
    part, and a path whose last element has no dot has no extension. *)
Theorem GetExtType_last_element (rawUrl : string) (u : url.URL) (pre w : string) :
  url.Parse rawUrl = Some u ->
  allOf notDotOrSlash w ->
  (url.Path u = pre ++ "." ++ w -> GetExtType rawUrl = "." ++ w)
  /\ (url.Path u = pre ++ "/" ++ w -> GetExtType rawUrl = "")
  /\ (url.Path u = w -> GetExtType rawUrl = "").
Proof.
  intros Hp Hw. unfold GetExtType, path_Ext. rewrite Hp.
  split; [|split]; intros ->.
  - now apply Ext_from_dot.
  - now apply Ext_from_noslash.
  - now apply Ext_from_plain.
Qed.

Lemma GetExtType_last_element_witness :
  GetExtType "https://a.test/static/v1.2/app.min.js?v=3.css#top" = ".js".
Proof.
  apply (proj1 (GetExtType_last_element
                  "https://a.test/static/v1.2/app.min.js?v=3.css#top"
                  {| url.Scheme := "https"; url.Opaque := ""; url.User := None;
                     url.Host := "a.test"; url.Path := "/static/v1.2/app.min.js";
                     url.RawPath := ""; url.OmitHost := false; url.ForceQuery := false;
                     url.RawQuery := "v=3.css"; url.Fragment := "top";
                     url.RawFragment := "" |}
                  "/static/v1.2/app.min" "js" ltac:(vm_compute; reflexivity) eq_refl)).
  reflexivity.
Defined.

(** ** Trimming *)

Lemma rev_onto_app (s acc : string) : rev_onto s acc = srev s ++ acc.
Proof.
  unfold srev. revert acc; induction s as [|c s IH]; intros acc; simpl; auto.
  rewrite IH, (IH (String c "")), append_assoc. reflexivity.
Qed.

Lemma srev_cons (c : ascii) (s : string) : srev (String c s) = srev s ++ String c "".
Proof. unfold srev at 1. simpl. apply rev_onto_app. Qed.

Lemma srev_app (a b : string) : srev (a ++ b) = srev b ++ srev a.
Proof.
  induction a as [|c a IH]; simpl.
  - now rewrite append_nil_r.
  - now rewrite !srev_cons, IH, append_assoc.
Qed.

Lemma srev_involutive (s : string) : srev (srev s) = s.
Proof.
  induction s as [|c s IH]; auto.
  rewrite srev_cons, srev_app, IH. reflexivity.
Qed.

Lemma TrimLeftFunc_split (f : ascii -> bool) (s : string) :
  exists p, s = p ++ strings.TrimLeftFunc f s /\ allOf f p.
Proof.
  induction s as [|c s (p & Hp & Hf)]; simpl.
  - exists "". split; reflexivity.
  - destruct (f c) eqn:E.
    + exists (String c p). split; [simpl; now f_equal|].
      unfold allOf in *. simpl. now rewrite E.
    + exists "". split; reflexivity.
Qed.

Lemma TrimLeftFunc_head (f : ascii -> bool) (s : string) :
  strings.TrimLeftFunc f s = ""
  \/ exists c r, strings.TrimLeftFunc f s = String c r /\ f c = false.
Proof.
  induction s as [|c s IH]; simpl; auto.
  destruct (f c) eqn:E; eauto.
Qed.

(** What a trimmed string looks like: empty, or with a first and a last
    byte outside the trimmed class. *)
Lemma TrimFunc_shape (f : ascii -> bool) (s : string) :
  strings.TrimFunc f s = ""
  \/ exists c r a d,
       strings.TrimFunc f s = String c r /\ f c = false
       /\ String c r = a ++ String d "" /\ f d = false.
Proof.
  unfold strings.TrimFunc, strings.TrimRightFunc.
  set (v := strings.TrimLeftFunc f s).
  destruct (TrimLeftFunc_head f (srev v)) as [E|(d & r & E & Hd)].
  - left. now rewrite E.
  - right. rewrite E.
    destruct (TrimLeftFunc_split f (srev v)) as (p & Hp & _). rewrite E in Hp.
    assert (Hv : v = (srev r ++ String d "") ++ srev p).
    { rewrite <- (srev_involutive v), Hp, srev_app, srev_cons. reflexivity. }
    destruct (TrimLeftFunc_head f s) as [E0|(c & r0 & E0 & Hc)]; fold v in E0.
    + rewrite E0 in Hv. destruct (srev r); discriminate.
    + rewrite E0 in Hv. rewrite srev_cons.
      destruct (srev r ++ String d "") as [|c' u] eqn:Eu;
        [destruct (srev r); discriminate|].
      simpl in Hv. injection Hv as Hcc _. subst c'.
      exists c, u, (srev r), d. auto.
Qed.

Lemma TrimFunc_fixed (f : ascii -> bool) (c d : ascii) (r a : string) :
  f c = false -> String c r = a ++ String d "" -> f d = false ->
  strings.TrimFunc f (String c r) = String c r.
Proof.
  intros Hc E Hd. unfold strings.TrimFunc, strings.TrimRightFunc.
  cbn [strings.TrimLeftFunc]. rewrite Hc, E, srev_app.
  cbn [srev rev_onto append strings.TrimLeftFunc]. rewrite Hd.
  change (String d (srev a)) with (srev (String d "") ++ srev a).
  rewrite <- srev_app. apply srev_involutive.
Qed.

Lemma TrimFunc_idempotent (f : ascii -> bool) (s : string) :
  strings.TrimFunc f (strings.TrimFunc f s) = strings.TrimFunc f s.
Proof.
  destruct (TrimFunc_shape f s) as [->|(c & r & a & d & -> & Hc & E & Hd)].
  - reflexivity.
  - eapply TrimFunc_fixed; eauto.
Qed.

Lemma isNewlineByte_isSpace (c : ascii) :
  isNewlineByte c = true -> strings.isSpace c = true.
Proof.
  unfold isNewlineByte, byte_in. simpl. rewrite !orb_true_iff.
  intros [H|[H|[H|H]]]; try discriminate; apply Ascii.eqb_eq in H; now subst.
Qed.

Lemma newlineRE_replace_last (b : bool) (a : string) (d : ascii) :
  isNewlineByte d = false ->
  newlineRE_replace b (a ++ String d "") = newlineRE_replace b a ++ String d "".
Proof.
  intros Hd. revert b; induction a as [|c a IH]; intros b; simpl.
  - fold (isNewlineByte d). now rewrite Hd.
  - fold (isNewlineByte c). destruct (isNewlineByte c); [destruct b|]; simpl;
      now rewrite IH.
Qed.

(** X13.  [FilterNewLines] gives a text without tabs, carriage returns and line
    feeds that is trimmed of white space, and it changes no such text:
    applying it twice is applying it once. *)
Theorem FilterNewLines_idempotent (s : string) :
  allOf (fun c => negb (isNewlineByte c)) (FilterNewLines s)
  /\ strings.TrimSpace (FilterNewLines s) = FilterNewLines s
  /\ FilterNewLines (FilterNewLines s) = FilterNewLines s.
Proof.
  assert (C : allOf (fun c => negb (isNewlineByte c)) (FilterNewLines s))
    by apply newlineRE_replace_clean.
  assert (T : strings.TrimSpace (FilterNewLines s) = FilterNewLines s).
  { unfold FilterNewLines, strings.TrimSpace.
    destruct (TrimFunc_shape strings.isSpace s) as [->|(c & r & a & d & -> & Hc & E & Hd)];
      [reflexivity|].
    assert (Nc : isNewlineByte c = false).
    { destruct (isNewlineByte c) eqn:N; auto.
      apply isNewlineByte_isSpace in N. congruence. }
    assert (Nd : isNewlineByte d = false).
    { destruct (isNewlineByte d) eqn:N; auto.
      apply isNewlineByte_isSpace in N. congruence. }
    assert (E1 : newlineRE_replace false (String c r)
                 = String c (newlineRE_replace false r)).
    { simpl. fold (isNewlineByte c). now rewrite Nc. }
    assert (E2 : newlineRE_replace false (String c r)
                 = newlineRE_replace false a ++ String d "").
    { rewrite E. now apply newlineRE_replace_last. }
    rewrite E1. eapply TrimFunc_fixed; eauto. rewrite <- E1. exact E2. }
  repeat split; auto.
  unfold FilterNewLines at 1. rewrite T. now apply newlineRE_replace_fixed.
Qed.

(** ** The emit filter *)

Lemma addKeys_In (csv : string) (set : list string) (k : string) :
  In k (addKeys csv set) <-> In k set \/ listed csv k.
Proof.
  unfold addKeys, listed. revert set.
  induction (strings.Split csv ",") as [|p l IH]; intros set; simpl.
  - split; [auto|]. intros [H|(_ & p & [] & _)]; exact H.
  - rewrite IH. clear IH. destruct (emitKey p =? "") eqn:E; simpl.
    + apply String.eqb_eq in E. split.
      * intros [H|(Hk & q & Hq & Hkq)]; eauto 7.
      * intros [H|(Hk & q & [<-|Hq] & Hkq)]; eauto 7. congruence.
    + apply String.eqb_neq in E. split.
      * intros [[<-|H]|(Hk & q & Hq & Hkq)]; eauto 7.
      * intros [H|(Hk & q & [<-|Hq] & Hkq)]; eauto 7.
Qed.

Lemma EmitFilter_OK_listed (includeCSV excludeCSV kind : string) :
  EmitFilter_OK (NewEmitFilter includeCSV excludeCSV) kind = true
  <-> ~ listed excludeCSV (strings.ToLower kind)
      /\ (strings.TrimSpace includeCSV = ""
          \/ listed includeCSV (strings.ToLower kind)).
Proof.
  unfold EmitFilter_OK, NewEmitFilter. cbn [deny allowAll allow].
  assert (D : mem (strings.ToLower kind) (addKeys excludeCSV []) = true
              <-> listed excludeCSV (strings.ToLower kind)).
  { rewrite mem_In, addKeys_In. simpl. tauto. }
  destruct (mem _ (addKeys excludeCSV [])).
  - split; [discriminate|]. intros [H _]. exfalso. apply H, D. reflexivity.
  - assert (Hn : ~ listed excludeCSV (strings.ToLower kind))
      by (intros H; apply D in H; discriminate).
    destruct (String.eqb_spec (strings.TrimSpace includeCSV) "") as [E|E].
    + tauto.
    + rewrite mem_In, addKeys_In. simpl. tauto.
Qed.

(** X14.  What [--types] and [--exclude-types] mean: a kind is printed exactly
    when its lower-cased name is not listed in the exclusions and either
    the inclusion flag is blank or lists it.  Exclusion wins over
    inclusion, and with both flags empty every kind is printed. *)
Theorem NewEmitFilter_OK (includeCSV excludeCSV kind : string) :
  (EmitFilter_OK (NewEmitFilter includeCSV excludeCSV) kind = true
   <-> ~ listed excludeCSV (strings.ToLower kind)
       /\ (strings.TrimSpace includeCSV = ""
           \/ listed includeCSV (strings.ToLower kind)))
  /\ EmitFilter_OK (NewEmitFilter "" "") kind = true.
Proof.
  split; [apply EmitFilter_OK_listed|].
  apply EmitFilter_OK_listed. split; [|now left].
  intros (Hne & p & [<-|[]] & Hp). now apply Hne.
Qed.

(** X15.  An inclusion flag that is not blank but lists no key (a lone comma,
    say) switches every kind off. *)
Theorem NewEmitFilter_no_keys (includeCSV excludeCSV : string) :
  strings.TrimSpace includeCSV <> "" ->
  (forall p, In p (strings.Split includeCSV ",") -> emitKey p = "") ->
  forall kind, EmitFilter_OK (NewEmitFilter includeCSV excludeCSV) kind = false.
Proof.
  intros Hb Hk kind.
  destruct (EmitFilter_OK _ kind) eqn:E; auto.
  apply EmitFilter_OK_listed in E as [_ [E|(Hne & p & Hp & Hkp)]]; [contradiction|].
  rewrite (Hk p Hp) in Hkp. congruence.
Qed.

Lemma NewEmitFilter_no_keys_witness :
  EmitFilter_OK (NewEmitFilter " , " "") "url" = false.
Proof.
  apply (NewEmitFilter_no_keys " , " "").
  - vm_compute; discriminate.
  - intros p [<-|[<-|[]]]; reflexivity.
Defined.

(** ** Noise tokens *)

Lemma mimeRE_iff (s : string) : MatchString mimeRE s = true <-> mimeLike s.
Proof.
  unfold mimeRE, mimeLike.
  change (Cats [Bol; Class isAlpha; Star (Class mimeChar); Lit "/";
                Plus (Class mimeChar); Eol])
    with (Cat Bol (Cat (Class isAlpha) (Cat (Star (Class mimeChar))
            (Cat (Lit "/") (Cat (Plus (Class mimeChar)) Eol))))).
  rewrite MatchString_Bol.
  assert (E1 : forall b t t',
             ends (Cat (Plus (Class mimeChar)) Eol) b t t'
             <-> exists tm, (exists w, w <> "" /\ allOf mimeChar w /\ t = w ++ tm)
                            /\ (tm = "" /\ t' = "")).
  { apply (ends_Cat _ _ (fun t tm => exists w, w <> "" /\ allOf mimeChar w /\ t = w ++ tm)
                        (fun t t' => t = "" /\ t' = "")); intros.
    - apply ends_PlusClass.
    - apply ends_Eol. }
  assert (E2 : forall b t t',
             ends (Cat (Lit "/") (Cat (Plus (Class mimeChar)) Eol)) b t t'
             <-> exists tm, t = "/" ++ tm
                            /\ exists tm', (exists w, w <> "" /\ allOf mimeChar w
                                                      /\ tm = w ++ tm')
                                           /\ (tm' = "" /\ t' = "")).
  { apply (ends_Cat _ _ (fun t tm => t = "/" ++ tm)
                        (fun t t' => exists tm', (exists w, w <> "" /\ allOf mimeChar w
                                                            /\ t = w ++ tm')
                                                 /\ (tm' = "" /\ t' = ""))); intros.
    - apply ends_Lit.
    - apply E1. }
  assert (E3 : forall b t t',
             ends (Cat (Star (Class mimeChar))
                       (Cat (Lit "/") (Cat (Plus (Class mimeChar)) Eol))) b t t'
             <-> exists tm, Iter (oneOf mimeChar) t tm
                            /\ exists tm1, tm = "/" ++ tm1
                                 /\ exists tm', (exists w, w <> "" /\ allOf mimeChar w
                                                           /\ tm1 = w ++ tm')
                                                /\ (tm' = "" /\ t' = "")).
  { apply (ends_Cat _ _ (Iter (oneOf mimeChar))
                        (fun t t' => exists tm1, t = "/" ++ tm1
                                      /\ exists tm', (exists w, w <> "" /\ allOf mimeChar w
                                                                /\ tm1 = w ++ tm')
                                                     /\ (tm' = "" /\ t' = ""))); intros.
    - apply ends_Star; [intros; apply ends_Class | apply consumes_oneOf].
    - apply E2. }
  assert (E4 : forall b t t',
             ends (Cat (Class isAlpha)
                       (Cat (Star (Class mimeChar))
                            (Cat (Lit "/") (Cat (Plus (Class mimeChar)) Eol)))) b t t'
             <-> exists t0, oneOf isAlpha t t0
                   /\ exists tm, Iter (oneOf mimeChar) t0 tm
                        /\ exists tm1, tm = "/" ++ tm1
                             /\ exists tm', (exists w, w <> "" /\ allOf mimeChar w
                                                       /\ tm1 = w ++ tm')
                                            /\ (tm' = "" /\ t' = "")).
  { apply (ends_Cat _ _ (oneOf isAlpha)
             (fun t t' => exists tm, Iter (oneOf mimeChar) t tm
                          /\ exists tm1, tm = "/" ++ tm1
                               /\ exists tm', (exists w, w <> "" /\ allOf mimeChar w
                                                         /\ tm1 = w ++ tm')
                                              /\ (tm' = "" /\ t' = ""))); intros.
    - apply ends_Class.
    - apply E3. }
  split.
  - intros (t' & H). apply E4 in H
      as (t0 & (a & -> & Ha) & tm & Hi & tm1 & -> & tm' & (w & Hw & Hm & ->) & -> & _).
    apply Iter_oneOf in Hi as (w1 & H1 & ->).
    exists a, w1, w. rewrite append_nil_r. auto.
  - intros (a & w1 & w2 & -> & Ha & H1 & Hn & H2).
    exists "". apply E4. exists (w1 ++ "/" ++ w2). split; [exists a; auto|].
    exists ("/" ++ w2). split; [apply Iter_oneOf; eauto|].
    exists w2. split; auto. exists "". split; auto.
    exists w2. rewrite append_nil_r. auto.
Qed.

Section NoiseTokens.
Context {libs : Libraries}.

(** X16.  A token of the shape of a MIME type is noise, and the linkfinder
    step drops it.  The shape is also that of a relative path of two
    segments such as [api/users]: such paths are never reported. *)
Theorem mime_like_tokens_are_dropped cr base source feedSource st (t : string) :
  mimeLike (strings.TrimSpace t) ->
  isNoiseToken t = true
  /\ linkfinderToken cr base source feedSource st t = st.
Proof.
  intros H. assert (N : isNoiseToken t = true).
  { unfold isNoiseToken. apply mimeRE_iff in H. rewrite H.
    now destruct (_ =? ""). }
  split; auto. unfold linkfinderToken. now rewrite N.
Qed.

End NoiseTokens.

Lemma mime_like_tokens_are_dropped_witness :
  isNoiseToken "api/users" = true
  /\ linkfinderToken (libs := exampleLibs) (crawler_a_test plainFlags)
       (httpsURL "a.test" "/" "") "https://a.test/" "html" initState "api/users"
     = initState.
Proof.
  apply (mime_like_tokens_are_dropped (libs := exampleLibs)).
  exists "a"%char, "pi", "users". repeat split; try reflexivity. discriminate.
Defined.

(** ** Decoding *)

Lemma unescape_decode_length (mode : url.encoding) (n : nat) (s : string) :
  (String.length s <= n)%nat ->
  (String.length (url.unescape_decode mode s) <= String.length s)%nat.
Proof.
  revert s; induction n as [|n IH]; intros s Hn.
  - destruct s; simpl in *; lia.
  - destruct s as [|c rest]; simpl; [lia|]. simpl in Hn.
    destruct (Ascii.eqb c "%").
    + destruct rest as [|a [|b rest']].
      * simpl. lia.
      * specialize (IH (String a "") ltac:(simpl in *; lia)).
        cbn [String.length] in *. lia.
      * specialize (IH rest' ltac:(simpl in *; lia)).
        cbn [String.length] in *. lia.
    + specialize (IH rest ltac:(lia)).
      destruct (Ascii.eqb c "+" && _); simpl; lia.
Qed.

Lemma unescape_plain (s : string) :
  allOf plainByte s -> url.QueryUnescape s = Some s.
Proof.
  unfold url.QueryUnescape, url.unescape, allOf.
  intros H.
  assert (G : url.unescape_ok url.encodeQueryComponent s = true
              /\ url.unescape_decode url.encodeQueryComponent s = s).
  { induction s as [|c s IH]; simpl; auto.
    simpl in H. apply andb_true_iff in H as [Hc Hs].
    unfold plainByte in Hc. rewrite !andb_true_iff, !negb_true_iff in Hc.
    destruct Hc as [[Hp Hplus] _]. rewrite Hp, Hplus.
    destruct (IH Hs) as [-> ->]. auto. }
  destruct G as [-> ->]. reflexivity.
Qed.

Lemma decodeReplacer_length (skip : nat) (s : string) :
  (String.length (decodeReplacer_skip skip s) <= String.length s)%nat.
Proof.
  revert skip; induction s as [|c s IH]; intros skip; [simpl; lia|].
  cbn [decodeReplacer_skip]. destruct skip as [|k].
  - destruct (String.prefix escapedSlash _);
      [|destruct (String.prefix escapedAmp _)]; simpl;
      match goal with |- context [decodeReplacer_skip ?k s] => specialize (IH k) end; lia.
  - specialize (IH k). simpl. lia.
Qed.

Lemma decodeReplacer_plain (s : string) :
  allOf plainByte s -> decodeReplacer_skip 0 s = s.
Proof.
  unfold allOf. induction s as [|c s IH]; [reflexivity|].
  intros H. simpl in H. apply andb_true_iff in H as [Hc Hs].
  unfold plainByte in Hc. rewrite !andb_true_iff, !negb_true_iff in Hc.
  destruct Hc as [_ Hb].
  apply Ascii.eqb_neq in Hb.
  cbn [decodeReplacer_skip]. unfold escapedSlash, escapedAmp.
  cbn [String.prefix]. destruct (ascii_dec "092" c) as [E|_]; [now subst|].
  now rewrite IH.
Qed.

(** X17.  [DecodeChars] never makes a text longer (so the length that the
    response callbacks report and filter on, the decoded one, is at most
    the length of the body), and it leaves a text without percent signs,
    plus signs and backslashes as it is. *)
Theorem DecodeChars_shrinks (s : string) :
  (len (DecodeChars s) <= len s)%Z
  /\ (allOf plainByte s -> DecodeChars s = s).
Proof.
  split.
  - unfold DecodeChars, decodeReplacer_Replace, len.
    apply inj_le. etransitivity; [apply decodeReplacer_length|].
    unfold url.QueryUnescape, url.unescape.
    destruct (url.unescape_ok _ _); [|lia].
    now apply (unescape_decode_length _ (String.length s)).
  - intros H. unfold DecodeChars, decodeReplacer_Replace.
    rewrite (unescape_plain _ H). now apply decodeReplacer_plain.
Qed.

Lemma DecodeChars_shrinks_witness :
  DecodeChars "https://a.test/docs" = "https://a.test/docs".
Proof. apply (proj2 (DecodeChars_shrinks "https://a.test/docs")). reflexivity. Defined.

(** ** Witnesses for the response callbacks *)

Lemma length_filter_respected_witness :
  out (OnResponse (libs := exampleLibs) (crawler_a_test (lengthFlags [4%Z])) initState
         response5xx) = out initState
  /\ ((len (Body response5xx) <= maxGrepBody)%Z ->
      out (LinkFinder_OnResponse (libs := exampleLibs) (crawler_a_test (lengthFlags [4%Z]))
             initState response5xx) = out initState).
Proof.
  apply (length_filter_respected (libs := exampleLibs)
           (crawler_a_test (lengthFlags [4%Z])) initState response5xx).
  reflexivity.
Defined.

Lemma status_suppression_witness :
  OnError (libs := exampleLibs) (crawler_a_test plainFlags) initState response5xx
  = initState.
Proof.
  apply (proj1 (status_suppression (libs := exampleLibs)
                  (crawler_a_test plainFlags) initState response5xx)).
  reflexivity.
Defined.

(** * Scope set-up *)

Section ScopePrecedence.
Context {libs : Libraries}.

(** X18.  Where the scope of a crawler comes from, in order of precedence:
    [--whitelist-domain], then [--whitelist], then the override of a
    bare-domain target, then the default (the apex with sub-domains when
    the start host is the apex or [--subs] is set, the start host alone
    otherwise).  With both whitelist flags the primary collector keeps the
    domain pattern only, the JS collector both. *)
Theorem NewCrawler_scope_precedence siteU fl so cr :
  NewCrawler siteU fl so = Some cr ->
  (flag_whitelist_domain fl <> "" ->
   C_URLFilters cr = [scopeHostOnly (flag_whitelist_domain fl)]
   /\ LinkFinderCollector_URLFilters cr
      = (match flag_whitelist fl with Some w => [w] | None => [] end
         ++ [scopeHostOnly (flag_whitelist_domain fl)])%list)
  /\ (flag_whitelist_domain fl = "" ->
      forall w, flag_whitelist fl = Some w ->
      C_URLFilters cr = [w] /\ LinkFinderCollector_URLFilters cr = [w])
  /\ (flag_whitelist_domain fl = "" -> flag_whitelist fl = None ->
      LinkFinderCollector_URLFilters cr = C_URLFilters cr
      /\ C_URLFilters cr =
         match so with
         | Some o => [scopeRE (AllowSubs o) (Domain o)]
         | None =>
             if strings.EqualFold (url.URL_Hostname siteU) (domain cr) || flag_subs fl
             then [scopeWithSubs (domain cr)]
             else [scopeHostOnly (url.URL_Hostname siteU)]
         end).
Proof.
  unfold NewCrawler. destruct (GetDomain siteU =? ""); [discriminate|].
  intros [= <-].
  cbn [C_URLFilters LinkFinderCollector_URLFilters domain].
  unfold primaryFilters, linkFinderFilters.
  split; [|split].
  - intros Hd. apply String.eqb_neq in Hd. rewrite Hd. cbn [negb]. split; auto.
    destruct (flag_whitelist fl); destruct so; reflexivity.
  - intros Hd w Hw. rewrite Hd, Hw. cbn. destruct so; auto.
  - intros Hd Hw. rewrite Hd, Hw. cbn.
    destruct so as [o|]; [auto|].
    destruct (strings.EqualFold _ _); cbn; [auto|].
    destruct (flag_subs fl); auto.
Qed.

End ScopePrecedence.

Lemma NewCrawler_scope_precedence_witness :
  LinkFinderCollector_URLFilters (crawler_a_test plainFlags)
  = C_URLFilters (crawler_a_test plainFlags)
  /\ C_URLFilters (crawler_a_test plainFlags) = [scopeWithSubs "a.test"].
Proof.
  exact (proj2 (proj2 (NewCrawler_scope_precedence (libs := exampleLibs)
                         (httpsURL "a.test" "/" "") plainFlags None
                         (crawler_a_test plainFlags)
                         (crawler_a_test_is_NewCrawler plainFlags eq_refl eq_refl eq_refl)))
           eq_refl eq_refl).
Defined.

(** * Findings are reported once *)

Section Findings.
Context {libs : Libraries}.

Lemma dup_sub_seen st s :
  mem (strings.ToLower s) (subSet st) = true -> dup_sub st s = (true, st).
Proof.
  intros H. unfold dup_sub. rewrite (Duplicate_seen _ _ H). now rewrite with_sets_same.
Qed.

Lemma dup_aws_seen st s :
  mem (strings.ToLower s) (awsSet st) = true -> dup_aws st s = (true, st).
Proof.
  intros H. unfold dup_aws. rewrite (Duplicate_seen _ _ H). now rewrite with_sets_same.
Qed.

Lemma subSet_emitLine cr st k line :
  subSet (emitLine cr st k line) = subSet st
  /\ awsSet (emitLine cr st k line) = awsSet st.
Proof.
  unfold emitLine, WriteToFile.
  destruct (EmitFilter_OK _ _), (hasOutput cr); cbn; auto.
Qed.

(** One step of the loops: the finding is in the deduper afterwards, and
    what was there stays. *)
Lemma findSubdomains_one_subSet cr st sub :
  mem (strings.ToLower sub) (subSet (findSubdomains_one cr st sub)) = true
  /\ forall k, mem k (subSet st) = true ->
               mem k (subSet (findSubdomains_one cr st sub)) = true.
Proof.
  unfold findSubdomains_one.
  destruct (mem (strings.ToLower sub) (subSet st)) eqn:Hm.
  - rewrite (dup_sub_seen _ _ Hm). auto.
  - unfold dup_sub. rewrite (Duplicate_fresh _ _ Hm).
    set (st1 := with_sets st _ _ _ _ _ _).
    assert (G : forall st', subSet st' = strings.ToLower sub :: subSet st ->
                mem (strings.ToLower sub) (subSet st') = true
                /\ forall k, mem k (subSet st) = true -> mem k (subSet st') = true).
    { intros st' ->. split; [apply mem_cons_eq|].
      intros k Hk. unfold mem in *. simpl. now rewrite Hk, orb_true_r. }
    apply G.
    destruct (JsonOutput cr); [destruct (MarshalToString _)|destruct (negb _)];
      rewrite ?(proj1 (subSet_emitLine _ _ _ _)); reflexivity.
Qed.

Lemma findAWSS3_one_awsSet cr st e :
  mem (strings.ToLower e) (awsSet (findAWSS3_one cr st e)) = true
  /\ forall k, mem k (awsSet st) = true ->
               mem k (awsSet (findAWSS3_one cr st e)) = true.
Proof.
  unfold findAWSS3_one.
  destruct (mem (strings.ToLower e) (awsSet st)) eqn:Hm.
  - rewrite (dup_aws_seen _ _ Hm). auto.
  - unfold dup_aws. rewrite (Duplicate_fresh _ _ Hm).
    rewrite (proj2 (subSet_emitLine _ _ _ _)). cbn [awsSet with_sets].
    split; [apply mem_cons_eq|].
    intros k Hk. unfold mem in *. simpl. now rewrite Hk, orb_true_r.
Qed.

(** A loop over findings whose step stores its finding and does nothing
    for a stored one: after the loop every finding is stored, and running
    the loop again changes nothing. *)
Lemma fold_left_seen (f : State -> string -> State) (set : State -> StringFilter) :
  (forall st x, mem (strings.ToLower x) (set (f st x)) = true
                /\ forall k, mem k (set st) = true -> mem k (set (f st x)) = true) ->
  (forall st x, mem (strings.ToLower x) (set st) = true -> f st x = st) ->
  forall l st, fold_left f l (fold_left f l st) = fold_left f l st.
Proof.
  intros Hstore Hseen l.
  assert (K : forall l st k, mem k (set st) = true ->
                mem k (set (fold_left f l st)) = true).
  { induction l0 as [|x l0 IH]; intros st k Hk; simpl; auto.
    apply IH. now apply (proj2 (Hstore st x)). }
  assert (A : forall l st x, In x l ->
                mem (strings.ToLower x) (set (fold_left f l st)) = true).
  { induction l0 as [|y l0 IH]; intros st x []; simpl.
    - subst. apply K. apply (proj1 (Hstore st x)).
    - now apply IH. }
  assert (C : forall l st, (forall x, In x l -> mem (strings.ToLower x) (set st) = true) ->
                fold_left f l st = st).
  { induction l0 as [|y l0 IH]; intros st H; simpl; auto.
    rewrite (Hseen st y) by (apply H; now left). apply IH.
    intros x Hx. apply H. now right. }
  intros st. apply C. intros x Hx. now apply A.
Qed.

(** X19.  Scanning the same body a second time reports nothing more: every
    sub-domain and every S3 bucket is reported once. *)
Theorem findings_reported_once cr st resp :
  findSubdomains cr (findSubdomains cr st resp) resp = findSubdomains cr st resp
  /\ findAWSS3 cr (findAWSS3 cr st resp) resp = findAWSS3 cr st resp.
Proof.
  split.
  - unfold findSubdomains. apply (fold_left_seen _ subSet).
    + intros; apply findSubdomains_one_subSet.
    + intros st0 x H. unfold findSubdomains_one. now rewrite (dup_sub_seen _ _ H).
  - unfold findAWSS3. apply (fold_left_seen _ awsSet).
    + intros; apply findAWSS3_one_awsSet.
    + intros st0 x H. unfold findAWSS3_one. now rewrite (dup_aws_seen _ _ H).
Qed.

End Findings.

(** * A URL text is rendered once *)

Section RenderOnce.
Context {libs : Libraries}.

Lemma renderKeys_extends (P : Line -> Prop) st st' :
  (forall ln, P ln -> kind ln <> "render") ->
  extends P st st' -> renderKeys (out st') = renderKeys (out st).
Proof.
  intros HP (l & Ho & Hl). unfold renderKeys.
  now rewrite Ho, linesOfKind_app, (linesOfKind_none _ _ _ HP Hl), app_nil_r.
Qed.

Lemma NoDup_snoc {A} (l : list A) (x : A) : NoDup l -> ~ In x l -> NoDup (l ++ [x]).
Proof.
  induction 1 as [|y l Hy Hl IH]; intros Hx; simpl.
  - constructor; [intros []|constructor].
  - constructor.
    + rewrite in_app_iff. simpl. intros [H|[H|[]]]; [contradiction|].
      subst. apply Hx. now left.
    + apply IH. intros H. apply Hx. now right.
Qed.

Lemma seenRender_OnResponse rm r : seenRender (render_OnResponse rm r) = seenRender rm.
Proof.
  unfold render_OnResponse. destruct (_ <=? _)%Z; auto.
  destruct (_ && _); auto. now destruct (_ <? _)%nat.
Qed.

Lemma renderedOnce_same w w' :
  renderKeys (out (crawl w')) = renderKeys (out (crawl w)) ->
  match render w, render w' with
  | Some rm, Some rm' => seenRender rm' = seenRender rm
  | None, None => True
  | _, _ => False
  end ->
  renderedOnce w -> renderedOnce w'.
Proof.
  unfold renderedOnce. intros -> Hr [Hn Hs]. split; auto.
  destruct (render w) as [rm|], (render w') as [rm'|]; try contradiction; auto.
  now rewrite Hr.
Qed.

Lemma render_turn_once cr rm st :
  renderedOnce {| crawl := st; render := Some rm |} ->
  renderedOnce {| crawl := snd (render_turn cr rm st);
                  render := Some (fst (render_turn cr rm st)) |}.
Proof.
  intros J. unfold render_turn.
  destruct (budget rm <=? 0)%Z; [exact J|].
  destruct (queue rm) as [|u rest]; [exact J|].
  destruct (u =? ""); [revert J; apply renderedOnce_same; reflexivity|].
  destruct (mem (strings.ToLower u) (seenRender rm)) eqn:Hm.
  { rewrite (Duplicate_seen _ _ Hm). revert J; apply renderedOnce_same; reflexivity. }
  rewrite (Duplicate_fresh _ _ Hm).
  assert (K : forall k, mem k (seenRender rm) = true ->
                mem k (strings.ToLower u :: seenRender rm) = true)
    by (intros k Hk; unfold mem in *; simpl; now rewrite Hk, orb_true_r).
  destruct J as [Hn Hs]. cbn [crawl render] in Hn, Hs.
  destruct (negb _); cbn [fst snd]; unfold renderedOnce; cbn [crawl render].
  { split; auto. intros k Hk. destruct (Hs k Hk) as (u' & -> & Hu'). eauto. }
  rewrite out_emitLine. destruct (EmitFilter_OK _ _).
  - assert (E : renderKeys (out st ++ [{| kind := "render"; text := "[render] - " ++ u |}])
                = (renderKeys (out st) ++ [strings.ToLower ("[render] - " ++ u)])%list)
      by (unfold renderKeys; rewrite linesOfKind_app, map_app; reflexivity).
    rewrite E. clear E. split.
    + apply NoDup_snoc; auto. intros Hin.
      destruct (Hs _ Hin) as (u' & E & Hu').
      rewrite !ToLower_append in E. apply append_inv_head in E.
      rewrite E in Hm. congruence.
    + intros k Hk. apply in_app_iff in Hk as [Hk|[<-|[]]].
      * destruct (Hs k Hk) as (u' & -> & Hu'). exists u'. split; auto.
      * exists u. split; auto. apply mem_cons_eq.
  - split; auto. intros k Hk. destruct (Hs k Hk) as (u' & -> & Hu'). eauto.
Qed.

Lemma step_once cr lf w ev : renderedOnce w -> renderedOnce (step cr lf w ev).
Proof.
  intros J.
  assert (C : forall st', extends (crawlLine cr) (crawl w) st' ->
                renderKeys (out st') = renderKeys (out (crawl w)))
    by (intros st'; apply renderKeys_extends; intros ln H; now apply crawlLine_kind in H).
  destruct ev as [e|r|r|r| |x reqURL]; cbn [step].
  - revert J. apply renderedOnce_same; cbn [crawl render].
    + apply C, OnHTML_extends.
    + now destruct (render w).
  - revert J. apply renderedOnce_same; cbn [crawl render].
    + apply C, OnResponse_extends.
    + destruct (render w); cbn; auto. apply seenRender_OnResponse.
  - revert J. apply renderedOnce_same; cbn [crawl render].
    + apply C, OnError_extends.
    + now destruct (render w).
  - destruct lf; auto.
    revert J. apply renderedOnce_same; cbn [crawl render].
    + apply C, LinkFinder_OnResponse_extends.
    + now destruct (render w).
  - destruct (render w) as [rm|] eqn:E; auto.
    pose proof (render_turn_once cr rm (crawl w)) as H.
    destruct (render_turn cr rm (crawl w)) as [rm' st']. cbn [fst snd] in H.
    apply H. destruct w as [st0 r0]. cbn [crawl render] in *. now subst.
  - destruct (render w) as [rm|] eqn:E; auto.
    destruct (0 <? budget rm)%Z; auto.
    revert J. apply renderedOnce_same; cbn [crawl render].
    + apply (renderKeys_extends (kindIs "network")).
      * unfold kindIs. intros ln H. rewrite H. discriminate.
      * apply render_network_extends.
    + now rewrite E.
Qed.

(** X20.  The render loop never prints the same URL text twice in a run:
    the render lines are pairwise different strings, even when letter
    case is ignored.  The deduper of the render manager keys on the text
    as it was queued, so this is a statement about texts, not about
    pages: two spellings of one page are two keys. *)
Theorem render_lines_are_distinct cr lf rb events :
  NoDup (renderKeys (out (crawl (run cr lf rb events)))).
Proof.
  assert (G : forall w, renderedOnce w ->
                renderedOnce (fold_left (step cr lf) events w)).
  { induction events as [|ev events IH]; intros w Hw; simpl; auto.
    apply IH. now apply step_once. }
  apply G. unfold renderedOnce, startRun. cbn [crawl render out initState].
  split; [constructor|]. destruct rb; cbn; [intros k []|reflexivity].
Qed.

End RenderOnce.

(** * The length filter flag *)

Lemma string_last (s : string) :
  s <> "" -> exists a d, s = a ++ String d "".
Proof.
  induction s as [|c s IH]; [congruence|]. intros _.
  destruct s as [|c' s'].
  - exists "", c. reflexivity.
  - destruct IH as (a & d & E); [discriminate|].
    exists (String c a), d. simpl. now rewrite <- E.
Qed.

Lemma allOf_app (p : ascii -> bool) (a b : string) :
  allOf p (a ++ b) <-> allOf p a /\ allOf p b.
Proof.
  unfold allOf. induction a as [|c a IH]; simpl.
  - tauto.
  - rewrite !andb_true_iff, IH. tauto.
Qed.

Lemma signOrDigit_not_space (c : ascii) :
  signOrDigit c = true -> strings.isSpace c = false.
Proof.
  unfold signOrDigit, strings.isSpace, isDigit, in_range.
  rewrite !orb_true_iff, !andb_true_iff, !N.leb_le. intros H.
  apply orb_false_iff. split.
  - apply andb_false_iff.
    destruct (N.leb_spec (N_of_ascii c) (N_of_ascii "013")) as [L|L]; [|now right].
    exfalso. change (N_of_ascii "013") with 13%N in L.
    destruct H as [[H|H]|[H _]].
    + apply Ascii.eqb_eq in H. subst. apply L. reflexivity.
    + apply Ascii.eqb_eq in H. subst. apply L. reflexivity.
    + change (N_of_ascii "0") with 48%N in H. lia.
  - apply Ascii.eqb_neq. intros ->. destruct H as [[H|H]|[H _]]; try discriminate.
    change (N_of_ascii "0") with 48%N in H. change (N_of_ascii " ") with 32%N in H. lia.
Qed.

Lemma TrimSpace_signs_digits (s : string) :
  allOf signOrDigit s -> strings.TrimSpace s = s.
Proof.
  intros H. destruct s as [|c r]; [reflexivity|].
  destruct (string_last (String c r)) as (a & d & E); [discriminate|].
  unfold strings.TrimSpace. apply (TrimFunc_fixed _ c d r a); auto.
  - apply signOrDigit_not_space. unfold allOf in H. simpl in H.
    now apply andb_true_iff in H.
  - apply signOrDigit_not_space. rewrite E in H. apply allOf_app in H as [_ H].
    unfold allOf in H. simpl in H. now apply andb_true_iff in H.
Qed.

Lemma digitsOf_run (ds rest : string) :
  allOf isDigit ds ->
  rest = "" \/ (exists c r, rest = String c r /\ isDigit c = false) ->
  digitsOf (ds ++ rest) = ds.
Proof.
  unfold allOf. induction ds as [|c ds IH]; simpl; intros Hd Hr.
  - destruct Hr as [->|(c & r & -> & Hc)]; simpl; [reflexivity | now rewrite Hc].
  - apply andb_true_iff in Hd as [Hc Hd]. rewrite Hc. f_equal. auto.
Qed.

Lemma Split_no_sep (cur s : string) :
  allOf (fun c => negb (Ascii.eqb c ",")) s ->
  strings.Split_skip "," 0 cur s = [srev cur ++ s].
Proof.
  unfold allOf. revert cur; induction s as [|c s IH]; intros cur H.
  - simpl. now rewrite append_nil_r.
  - simpl in H. apply andb_true_iff in H as [Hc Hs]. apply negb_true_iff in Hc.
    cbn [strings.Split_skip String.prefix].
    destruct (ascii_dec "," c) as [<-|_]; [discriminate|].
    rewrite (IH _ Hs), srev_cons, append_assoc. reflexivity.
Qed.

Lemma isSign_signOrDigit (c : ascii) :
  signOrDigit c = true <-> isSign c = true \/ isDigit c = true.
Proof. unfold signOrDigit, isSign. now rewrite orb_true_iff. Qed.

(** X21.  [strconvAtoiSafe] accepts signs anywhere in its text and then reads
    the first number only: a piece of [--filter-length] made of a number,
    a sign and more signs and digits is read as that number, and what
    follows the sign is dropped without an error. *)
Theorem strconvAtoiSafe_reads_first_number (ds rest : string) :
  ds <> "" -> allOf isDigit ds -> (decimal 0 ds < 2 ^ 63)%Z ->
  allOf signOrDigit rest ->
  rest = "" \/ (exists c r, rest = String c r /\ isSign c = true) ->
  strconvAtoiSafe (ds ++ rest) = Some (decimal 0 ds)
  /\ parseFilterLength (ds ++ rest) = [decimal 0 ds].
Proof.
  intros Hne Hd Hv Hr Hs.
  assert (Hall : allOf signOrDigit (ds ++ rest)).
  { apply allOf_app. split; auto. unfold allOf in *.
    apply forallb_forall. intros c Hc.
    rewrite forallb_forall in Hd. apply isSign_signOrDigit. right. auto. }
  assert (Hpos : forall acc s, (0 <= acc)%Z -> allOf isDigit s -> (0 <= decimal acc s)%Z).
  { intros acc s; revert acc. unfold allOf.
    induction s as [|c s IH]; intros acc Ha Hs'; cbn [decimal]; auto.
    simpl in Hs'. apply andb_true_iff in Hs' as [Hc Hs'].
    apply IH; auto. unfold digitValue. unfold isDigit, in_range in Hc.
    apply andb_true_iff in Hc as [Hc _]. apply N.leb_le in Hc.
    change (N_of_ascii "0") with 48%N in Hc. lia. }
  assert (A : strconvAtoiSafe (ds ++ rest) = Some (decimal 0 ds)).
  { unfold strconvAtoiSafe. rewrite (TrimSpace_signs_digits _ Hall).
    unfold allOf in Hall. rewrite Hall. unfold Sscanf_d.
    destruct ds as [|c ds']; [congruence|]. cbn [append].
    assert (Hc : isDigit c = true)
      by (unfold allOf in Hd; simpl in Hd; now apply andb_true_iff in Hd).
    assert (Hp : Ascii.eqb c "+" = false)
      by (apply Ascii.eqb_neq; intros ->; discriminate).
    assert (Hm : Ascii.eqb c "-" = false)
      by (apply Ascii.eqb_neq; intros ->; discriminate).
    rewrite Hp, Hm.
    change (String c (ds' ++ rest)) with (String c ds' ++ rest).
    rewrite digitsOf_run; auto.
    - cbn [String.eqb]. specialize (Hpos 0%Z (String c ds') ltac:(lia) Hd).
      replace (- 2 ^ 63 <=? decimal 0 (String c ds'))%Z with true
        by (symmetry; apply Z.leb_le; lia).
      replace (decimal 0 (String c ds') <? 2 ^ 63)%Z with true
        by (symmetry; apply Z.ltb_lt; lia).
      reflexivity.
    - destruct Hs as [->|(c0 & r & -> & Hc0)]; auto. right. exists c0, r. split; auto.
      unfold isSign in Hc0. apply orb_true_iff in Hc0 as [H|H];
        apply Ascii.eqb_eq in H; subst; reflexivity. }
  split; auto. unfold parseFilterLength.
  destruct ds as [|c ds']; [congruence|]. cbn [append String.eqb].
  change (String c (ds' ++ rest)) with (String c ds' ++ rest).
  unfold strings.Split. rewrite Split_no_sep.
  - change (srev "" ++ String c ds' ++ rest) with (String c ds' ++ rest).
    cbn [flat_map]. rewrite A. reflexivity.
  - unfold allOf in *. apply forallb_forall. intros x Hx.
    rewrite forallb_forall in Hall. specialize (Hall x Hx).
    apply negb_true_iff, Ascii.eqb_neq. intros ->. discriminate.
Qed.

Lemma strconvAtoiSafe_reads_first_number_witness :
  strconvAtoiSafe ("100" ++ "-200") = Some (decimal 0 "100")
  /\ parseFilterLength ("100" ++ "-200") = [decimal 0 "100"].
Proof.
  apply (strconvAtoiSafe_reads_first_number "100" "-200").
  - discriminate.
  - reflexivity.
  - reflexivity.
  - reflexivity.
  - right. exists "-"%char, "200". split; reflexivity.
Defined.

(** * Other sources, redirects, bare domains *)

Section OtherSources.
Context {libs : Libraries}.

(** X22.  The lines of the other sources go past the emit filter: with
    [--include-other-source] every non-blank URL is printed, whatever
    [--types] and [--exclude-types] say, where [emitLine] would print
    nothing for a kind that the filter rejects; and the URL is queued
    for the primary collector, trimmed, with no scope test. *)
Theorem other_sources_bypass_emit_filter cr st (u0 : string) :
  strings.TrimSpace u0 <> "" ->
  let u := strings.TrimSpace u0 in
  let line := formatRecord cr ("[other-sources] - " ++ u)
                (mkOutput (Input cr) "other-sources" "url" u) in
  out (otherSource_one cr true st u0)
  = (out st ++ [{| kind := "other-sources"; text := line |}])%list
  /\ out (otherSource_one cr false st u0) = out st
  /\ (forall inc, visits (otherSource_one cr inc st u0)
                  = (visits st ++ [{| via := MainCollector; target := u |}])%list)
  /\ (EmitFilter_OK (emit cr) "other-sources" = false ->
      out (emitLine cr st "other-sources" line) = out st).
Proof.
  intros Hne u line. subst u line. apply String.eqb_neq in Hne.
  unfold otherSource_one. rewrite Hne.
  repeat split.
  - cbn [Visit with_visits out]. now rewrite out_WriteToFile.
  - intros inc. destruct inc; cbn [Visit with_visits visits]; auto.
    now rewrite visits_WriteToFile.
  - intros H. now rewrite out_emitLine, H.
Qed.

End OtherSources.

Lemma other_sources_bypass_emit_filter_witness :
  out (otherSource_one (libs := exampleLibs) (crawler_a_test hrefOnlyFlags) true initState
         " https://a.test/old ")
  = [{| kind := "other-sources"; text := "[other-sources] - https://a.test/old" |}]
  /\ out (emitLine (crawler_a_test hrefOnlyFlags) initState "other-sources"
            "[other-sources] - https://a.test/old") = [].
Proof.
  destruct (other_sources_bypass_emit_filter (libs := exampleLibs)
              (crawler_a_test hrefOnlyFlags) initState " https://a.test/old ")
    as (H1 & _ & _ & H4); [vm_compute; discriminate|].
  split; [exact H1 | apply H4; reflexivity].
Defined.

Lemma eqb_length (a b : string) : (a =? b) = true -> String.length a = String.length b.
Proof. intros H. apply String.eqb_eq in H. now subst. Qed.

(** X23.  The redirect policy of [--no-redirect] compares hosts with the start
    host, not with the scope: when the start host is a sub-domain of the
    apex, a redirect to the apex is refused although the apex and the
    start host are both in the scope with sub-domains. *)
Theorem redirect_policy_refuses_apex (label apex : string) (allowSubs : bool) :
  sameHost apex (label ++ "." ++ apex) allowSubs = false
  /\ MatchString (scopeWithSubs apex) ("https://" ++ apex ++ "/") = true
  /\ (isLabel label ->
      MatchString (scopeWithSubs apex) ("https://" ++ label ++ "." ++ apex ++ "/") = true).
Proof.
  split; [|split].
  - unfold sameHost. apply orb_false_iff. split.
    + destruct (apex =? label ++ "." ++ apex) eqn:E; auto.
      apply eqb_length in E. rewrite !length_append in E. simpl in E. lia.
    + apply andb_false_iff. right. unfold strings.HasSuffix.
      apply andb_false_iff. left. apply Nat.leb_gt.
      rewrite !length_append. simpl. lia.
  - apply (scopeWithSubs_matches apex "https" [] "" "/").
    + now right.
    + constructor.
    + now left.
    + right. now exists "".
  - intros Hl.
    replace ("https://" ++ label ++ "." ++ apex ++ "/")
      with ("https" ++ "://" ++ dotted [label] ++ apex ++ "" ++ "/")
      by (simpl; now rewrite !append_assoc).
    apply scopeWithSubs_matches.
    + now right.
    + constructor; auto.
    + now left.
    + right. now exists "".
Qed.

Lemma redirect_policy_refuses_apex_witness :
  MatchString (scopeWithSubs "example.com") ("https://" ++ "www" ++ "." ++ "example.com" ++ "/")
  = true.
Proof.
  apply (proj2 (proj2 (redirect_policy_refuses_apex "www" "example.com" true))).
  split; [discriminate | reflexivity].
Defined.

Section TargetsAndResponses.
Context {libs : Libraries}.

(** X24.  Whenever a crawler is built for a bare-domain target, the scope
    override is the registrable domain (eTLD+1) of the start host with
    sub-domains allowed, and it is the crawler's own domain: the fallback
    of [normalizeTarget] to the raw host never reaches a crawler, because
    [NewCrawler] gives up when the registrable domain is unknown. *)
Theorem bare_domain_scope_is_apex raw fl u so cr :
  normalizeTarget raw = (u, Some so) ->
  NewCrawler u fl (Some so) = Some cr ->
  Domain so = domain cr /\ AllowSubs so = true
  /\ domain cr = GetDomain u /\ domain cr <> ""
  /\ site cr = u /\ Input cr = url.URL_String u.
Proof.
  intros Hn Hc.
  destruct (normalizeTarget_bare _ _ _ Hn) as (_ & _ & Hsubs & Hd).
  unfold NewCrawler in Hc. destruct (GetDomain u =? "") eqn:E; [discriminate|].
  injection Hc as <-. cbn [domain site Input]. rewrite Hd.
  apply String.eqb_neq in E. repeat split; auto.
Qed.

(** X25.  A response that is not HTML (its content type is set and names
    neither [text/html] nor [application/xhtml]) is scanned for
    sub-domains and buckets only: the primary response callback prints no
    linkfinder and no javascript line for it and queues no request. *)
Theorem non_html_response_gives_no_links cr st r :
  let ct := strings.ToLower (ContentType r) in
  strings.Contains ct "text/html" = false ->
  strings.Contains ct "application/xhtml" = false ->
  ct <> "" ->
  extends grepLine st (OnResponse cr st r)
  /\ visits (OnResponse cr st r) = visits st.
Proof.
  intros ct H1 H2 H3. apply String.eqb_neq in H3.
  assert (V1 : forall s body, visits (findSubdomains cr s body) = visits s).
  { intros s body. unfold findSubdomains.
    generalize (GetSubdomains body (domain cr)). intros l. revert s.
    induction l as [|x l IH]; intros s; simpl; auto. rewrite IH.
    unfold findSubdomains_one, dup_sub. destruct (Duplicate _ _) as [d f].
    destruct d; auto.
    destruct (JsonOutput cr); [destruct (MarshalToString _)|destruct (negb _)];
      now rewrite ?visits_emitLine. }
  assert (V2 : forall s body, visits (findAWSS3 cr s body) = visits s).
  { intros s body. unfold findAWSS3.
    generalize (GetAWSS3 body). intros l. revert s.
    induction l as [|x l IH]; intros s; simpl; auto. rewrite IH.
    unfold findAWSS3_one, dup_aws. destruct (Duplicate _ _) as [d f].
    destruct d; auto. now rewrite visits_emitLine. }
  assert (V3 : forall s body, visits (emitRaw cr s body) = visits s).
  { intros s body. unfold emitRaw. destruct (raw cr); auto.
    destruct (negb _); [apply visits_emitLine | apply visits_WriteToFile]. }
  assert (U : forall s a b c, extends grepLine s (emitURL cr s a b c)).
  { intros. apply emitLine_extends. now left. }
  unfold OnResponse. fold ct. rewrite H1, H2, H3. cbn [orb].
  destruct (passesLengthFilter _ _); [|split; [apply extends_refl | reflexivity]].
  destruct (_ && _).
  - split.
    + eapply extends_trans; [apply U|].
      eapply extends_trans;
        [apply extends_weaken with (P := cleanedSubdomain cr);
           [|apply findSubdomains_extends]|].
      { intros ln [Hk _]. right; left. exact Hk. }
      eapply extends_trans;
        [apply extends_weaken with (P := kindIs "aws"); [|apply findAWSS3_extends]|].
      { intros ln Hk. right; right; left. exact Hk. }
      apply extends_weaken with (P := kindIs "raw"); [|apply emitRaw_extends].
      intros ln Hk. right; right; right. exact Hk.
    + rewrite V3, V2, V1. unfold emitURL. apply visits_emitLine.
  - split; [apply U|]. unfold emitURL. apply visits_emitLine.
Qed.

End TargetsAndResponses.

Lemma bare_domain_scope_is_apex_witness :
  Domain {| Domain := "example.com"; AllowSubs := true |} = domain crawler_example_com
  /\ AllowSubs {| Domain := "example.com"; AllowSubs := true |} = true
  /\ domain crawler_example_com
     = GetDomain (libs := exampleLibs) (httpsURL "example.com" "" "")
  /\ domain crawler_example_com <> ""
  /\ site crawler_example_com = httpsURL "example.com" "" ""
  /\ Input crawler_example_com = url.URL_String (httpsURL "example.com" "" "").
Proof.
  exact (bare_domain_scope_is_apex (libs := exampleLibs) "example.com" plainFlags
           (httpsURL "example.com" "" "")
           {| Domain := "example.com"; AllowSubs := true |} crawler_example_com
           (proj1 crawler_example_com_built) (proj2 crawler_example_com_built)).
Defined.

Lemma non_html_response_gives_no_links_witness :
  visits (OnResponse (libs := exampleLibs) (crawler_a_test plainFlags) initState response5xx)
  = visits initState.
Proof.
  apply (non_html_response_gives_no_links (libs := exampleLibs)
           (crawler_a_test plainFlags) initState response5xx);
    [reflexivity | reflexivity | discriminate].
Defined.

(** * Robots *)

Lemma shorter_tail (b b' : bool) (c : ascii) (t : string) :
  shorter (b', t) (b, String c t) = true.
Proof. unfold shorter. apply Nat.ltb_lt. simpl. lia. Qed.

Lemma star_class_step (p : ascii -> bool) (k : nat) (b : bool) (c : ascii) (t : string) :
  p c = true ->
  star_run (regexp.run (Class p)) (S k) (b, String c t)
  = (star_run (regexp.run (Class p)) k (false, t) ++ [(b, String c t)])%list.
Proof.
  intros Hc. cbn [star_run regexp.run snd]. rewrite Hc. cbn [filter].
  rewrite shorter_tail. cbn [flat_map]. now rewrite app_nil_r.
Qed.

Lemma star_class_stop (p : ascii -> bool) (fuel : nat) (b : bool) (t : string) :
  t = "" \/ (exists c r, t = String c r /\ p c = false) ->
  star_run (regexp.run (Class p)) fuel (b, t) = [(b, t)].
Proof.
  intros H. destruct fuel as [|k]; [reflexivity|].
  cbn [star_run regexp.run snd].
  destruct H as [->|(c & r & -> & Hc)]; [reflexivity|]. now rewrite Hc.
Qed.

Lemma star_space_head (ws rest : string) :
  allOf isReSpace ws ->
  rest = "" \/ (exists c r, rest = String c r /\ isReSpace c = false) ->
  forall fuel b, (String.length (ws ++ rest) <= fuel)%nat ->
    exists b' tl,
      star_run (regexp.run (Class isReSpace)) fuel (b, ws ++ rest) = (b', rest) :: tl.
Proof.
  unfold allOf. intros Hws Hr. induction ws as [|c ws IH]; intros fuel b Hf.
  - cbn [append]. rewrite star_class_stop; eauto.
  - simpl in Hws. apply andb_true_iff in Hws as [Hc Hws].
    destruct fuel as [|k]; [simpl in Hf; lia|].
    cbn [append]. rewrite star_class_step; auto.
    destruct (IH Hws k false) as (b' & tl & ->); [simpl in Hf; lia|].
    cbn [app]. eauto.
Qed.

Lemma robotsTail_none (b : bool) (t : string) :
  allowAt t = false -> regexp.run robotsTail (b, t) = [].
Proof.
  unfold allowAt. intros H.
  change (regexp.run robotsTail (b, t))
    with (flat_map (regexp.run (Star (Class isReSpace)))
            (regexp.run (LitFold "llow:") (b, t))).
  assert (E1 : regexp.run (LitFold "llow:") (b, t) = []).
  { cbn [regexp.run snd fst].
    change (String.length "llow:") with 5%nat.
    change (strings.ToLower "llow:") with "llow:". now rewrite H. }
  now rewrite E1.
Qed.

Lemma robotsTail_head (b : bool) (kw ws rest : string) :
  strings.ToLower kw = "llow:" ->
  allOf isReSpace ws ->
  rest = "" \/ (exists c r, rest = String c r /\ isReSpace c = false) ->
  exists b' tl, regexp.run robotsTail (b, kw ++ ws ++ rest) = (b', rest) :: tl.
Proof.
  intros Hk Hws Hr.
  assert (Hl : String.length kw = 5%nat) by (rewrite <- ToLower_length, Hk; reflexivity).
  assert (E1 : regexp.run (LitFold "llow:") (b, kw ++ ws ++ rest)
               = [(b && false, ws ++ rest)]).
  { cbn [regexp.run snd fst].
    change (String.length "llow:") with 5%nat.
    change (strings.ToLower "llow:") with "llow:".
    rewrite <- Hl, take_append, drop_append, Hk. reflexivity. }
  change (regexp.run robotsTail (b, kw ++ ws ++ rest))
    with (flat_map (regexp.run (Star (Class isReSpace)))
            (regexp.run (LitFold "llow:") (b, kw ++ ws ++ rest))).
  rewrite E1. cbn [flat_map]. rewrite app_nil_r.
  change (regexp.run (Star (Class isReSpace)) (b && false, ws ++ rest))
    with (star_run (regexp.run (Class isReSpace)) (String.length (ws ++ rest))
            (b && false, ws ++ rest)).
  apply star_space_head; auto.
Qed.

Lemma noAllow_head (t : string) : noAllow t = true -> allowAt t = false.
Proof.
  intros H. destruct t; cbn [noAllow] in H; apply andb_true_iff in H as [H _];
    now apply negb_true_iff in H.
Qed.

Lemma noAllow_tail (c : ascii) (t : string) : noAllow (String c t) = true -> noAllow t = true.
Proof. cbn [noAllow]. intros H. now apply andb_true_iff in H as [_ H]. Qed.

Lemma dot_star_none (t : string) :
  noAllow t = true ->
  forall fuel b,
    flat_map (regexp.run robotsTail) (star_run (regexp.run (Class notNewline)) fuel (b, t))
    = [].
Proof.
  intros Hn fuel. revert t Hn. induction fuel as [|k IH]; intros t Hn b.
  - cbn [star_run flat_map]. rewrite app_nil_r. now apply robotsTail_none, noAllow_head.
  - pose proof (noAllow_head _ Hn) as Ha.
    destruct t as [|c t'].
    + rewrite star_class_stop by auto. cbn [flat_map]. rewrite app_nil_r.
      now apply robotsTail_none.
    + destruct (notNewline c) eqn:Hc.
      * rewrite star_class_step by auto. rewrite flat_map_app. cbn [flat_map].
        rewrite app_nil_r, (robotsTail_none _ _ Ha), app_nil_r.
        apply IH. now apply noAllow_tail in Hn.
      * rewrite star_class_stop by eauto. cbn [flat_map]. rewrite app_nil_r.
        now apply robotsTail_none.
Qed.

Lemma dot_star_head (pre occ rest : string) :
  allOf notNewline pre ->
  (forall b, exists b' tl, regexp.run robotsTail (b, occ) = (b', rest) :: tl) ->
  noAllow (drop 1 occ) = true -> occ <> "" ->
  forall fuel b, (String.length (pre ++ occ) <= fuel)%nat ->
    exists b' tl,
      flat_map (regexp.run robotsTail)
        (star_run (regexp.run (Class notNewline)) fuel (b, pre ++ occ))
      = (b', rest) :: tl.
Proof.
  unfold allOf. intros Hp Hocc Hn Hne.
  induction pre as [|c pre IH]; intros fuel b Hf.
  - cbn [append]. destruct occ as [|c occ']; [congruence|]. cbn [drop] in Hn.
    destruct fuel as [|k]; [simpl in Hf; lia|].
    destruct (notNewline c) eqn:Hc.
    + rewrite star_class_step by auto. rewrite flat_map_app.
      rewrite (dot_star_none _ Hn). cbn [flat_map app]. rewrite app_nil_r.
      apply Hocc.
    + rewrite star_class_stop by eauto. cbn [flat_map]. rewrite app_nil_r.
      apply Hocc.
  - simpl in Hp. apply andb_true_iff in Hp as [Hc Hp].
    destruct fuel as [|k]; [simpl in Hf; lia|].
    cbn [append]. rewrite star_class_step by auto. rewrite flat_map_app.
    destruct (IH Hp k false) as (b' & tl & ->); [simpl in Hf; lia|].
    simpl. eauto.
Qed.

Lemma allowAt_prefix (s : string) :
  allowAt s = true -> String.prefix "llow:" (strings.ToLower s) = true.
Proof.
  unfold allowAt. intros H. apply String.eqb_eq in H.
  rewrite <- (take_drop 5 s), ToLower_append, H. apply prefix_append.
Qed.

Lemma noAllow_of_Contains (t : string) :
  strings.Contains (strings.ToLower t) "llow:" = false -> noAllow t = true.
Proof.
  unfold strings.Contains. induction t as [|c t IH]; intros H.
  - reflexivity.
  - cbn [noAllow]. rewrite Index_unfold in H.
    destruct (String.prefix "llow:" (strings.ToLower (String c t))) eqn:E;
      [discriminate|].
    apply andb_true_iff. split.
    + apply negb_true_iff. destruct (allowAt (String c t)) eqn:A; auto.
      apply allowAt_prefix in A. congruence.
    + apply IH. cbn [strings.ToLower] in H.
      destruct (strings.Index (strings.ToLower t) "llow:"); [discriminate | reflexivity].
Qed.

Lemma allowAt_space (c : ascii) (t : string) :
  isReSpace c = true -> allowAt (String c t) = false.
Proof.
  unfold isReSpace, byte_in. simpl. rewrite !orb_true_iff.
  intros [H|[H|[H|[H|[H|H]]]]]; try discriminate;
    apply Ascii.eqb_eq in H; subst; reflexivity.
Qed.

Lemma noAllow_spaces (ws rest : string) :
  allOf isReSpace ws -> noAllow rest = true -> noAllow (ws ++ rest) = true.
Proof.
  unfold allOf. intros Hws Hr. induction ws as [|c ws IH]; [exact Hr|].
  simpl in Hws. apply andb_true_iff in Hws as [Hc Hws].
  cbn [append noAllow]. rewrite (allowAt_space _ _ Hc). simpl. auto.
Qed.

Lemma noAllow_keyword (kw tail : string) :
  strings.ToLower kw = "llow:" -> noAllow tail = true ->
  noAllow (drop 1 (kw ++ tail)) = true.
Proof.
  intros Hk Ht.
  destruct kw as [|c1 [|c2 [|c3 [|c4 [|c5 [|c6 kw]]]]]]; try discriminate.
  cbn [strings.ToLower] in Hk. injection Hk as H1 H2 H3 H4 H5.
  cbn [append drop noAllow].
  assert (A : forall x r, strings.lower x <> "l"%char -> allowAt (String x r) = false).
  { intros x r Hx. unfold allowAt. cbn [take strings.ToLower String.eqb].
    apply Ascii.eqb_neq in Hx. now rewrite Hx. }
  assert (A2 : forall r, allowAt (String c2 (String c3 r)) = false).
  { intros r. unfold allowAt. cbn [take strings.ToLower String.eqb].
    rewrite H2, H3. reflexivity. }
  rewrite A2, !A, Ht; try reflexivity; congruence.
Qed.

Lemma find_from_none (t : string) :
  noAllow t = true ->
  forall b i, find_from allowDisallowStripRE b i t = None.
Proof.
  change allowDisallowStripRE with (Cat (Star (Class notNewline)) robotsTail).
  induction t as [|c t IH]; intros Hn b i; cbn [find_from regexp.run snd].
  - rewrite (dot_star_none _ Hn). reflexivity.
  - rewrite (dot_star_none _ Hn). apply IH. now apply noAllow_tail in Hn.
Qed.

(** The pattern with its greedy [.*] cuts a line after its last keyword:
    what is left is the text after the last [llow:] (in any letter case)
    and the white space that follows it. *)
Lemma strip_after_last_keyword (pre kw ws rest : string) :
  allOf notNewline pre ->
  strings.ToLower kw = "llow:" ->
  allOf isReSpace ws ->
  rest = "" \/ (exists c r, rest = String c r /\ isReSpace c = false) ->
  strings.Contains (strings.ToLower rest) "llow:" = false ->
  ReplaceAllString_empty allowDisallowStripRE (pre ++ kw ++ ws ++ rest) = rest.
Proof.
  intros Hp Hk Hws Hr Hc.
  assert (Hn : noAllow rest = true) by now apply noAllow_of_Contains.
  assert (Hl : String.length kw = 5%nat) by (rewrite <- ToLower_length, Hk; reflexivity).
  unfold ReplaceAllString_empty. cbn [removeAll].
  change allowDisallowStripRE with (Cat (Star (Class notNewline)) robotsTail).
  unfold find_from at 1.
  destruct (dot_star_head pre (kw ++ ws ++ rest) rest Hp) with
    (fuel := String.length (pre ++ kw ++ ws ++ rest)) (b := true)
    as (b' & tl & E); auto.
  - intros b. now apply robotsTail_head.
  - apply noAllow_keyword; auto. now apply noAllow_spaces.
  - destruct kw; [discriminate | discriminate].
  - assert (E' : regexp.run (Cat (Star (Class notNewline)) robotsTail)
                   (true, pre ++ kw ++ ws ++ rest) = (b', rest) :: tl) by exact E.
    destruct (pre ++ kw ++ ws ++ rest) as [|c0 line0] eqn:EL.
    + destruct pre, kw; discriminate.
    + rewrite E'. rewrite <- EL.
      assert (Hlen : (String.length (pre ++ kw ++ ws ++ rest) - String.length rest
                      = String.length (pre ++ kw ++ ws))%nat)
        by (rewrite !length_append; lia).
      cbn [Nat.add]. rewrite Hlen.
      replace (0 <? String.length (pre ++ kw ++ ws))%nat with true
        by (symmetry; apply Nat.ltb_lt; rewrite !length_append; lia).
      cbn [take append].
      replace (pre ++ kw ++ ws ++ rest) with ((pre ++ kw ++ ws) ++ rest)
        by (now rewrite !append_assoc).
      rewrite drop_append.
      destruct (String.length ((pre ++ kw ++ ws) ++ rest)) as [|k]; [reflexivity|].
      cbn [removeAll].
      change (Cat (Star (Class notNewline)) robotsTail) with allowDisallowStripRE.
      now rewrite find_from_none.
Qed.

Section Robots.
Context {libs : Libraries}.

(** X26.  A line of robots.txt is read after its last [Allow:] or
    [Disallow:] (any letter case; the pattern only asks for [llow:]): the
    text after that keyword and the white space behind it is trimmed and
    resolved against the start URL; unless it resolves to nothing, a
    robots line is printed for it and the URL is handed to the primary
    collector, with no scope test and no deduper in between. *)
Theorem robots_line_reads_last_directive cr st (pre kw ws rest : string) :
  allOf notNewline pre ->
  strings.ToLower kw = "llow:" ->
  allOf isReSpace ws ->
  rest = "" \/ (exists c r, rest = String c r /\ isReSpace c = false) ->
  strings.Contains (strings.ToLower rest) "llow:" = false ->
  let u := FixUrl (site cr) (strings.TrimSpace rest) in
  robots_line cr st (pre ++ kw ++ ws ++ rest)
  = if u =? "" then st
    else Visit MainCollector u
           (emitLine cr st "robots"
              (formatRecord cr ("[robots] - " ++ u)
                 (mkOutput (Input cr) "robots" "url" u))).
Proof.
  intros Hp Hk Hws Hr Hc u. unfold robots_line.
  rewrite (strip_after_last_keyword _ _ _ _ Hp Hk Hws Hr Hc).
  replace (strings.Contains (strings.ToLower (pre ++ kw ++ ws ++ rest)) "llow:")
    with true; [reflexivity|].
  symmetry. apply Contains_iff.
  exists (strings.ToLower pre), (strings.ToLower (ws ++ rest)).
  now rewrite !ToLower_append, Hk.
Qed.

End Robots.

Lemma robots_line_reads_last_directive_witness :
  robots_line (libs := exampleLibs) (crawler_a_test plainFlags) initState
    ("Allow: /public # not Disa" ++ "LLOW:" ++ " " ++ "https://a.test/admin")
  = Visit MainCollector "https://a.test/admin"
      (emitLine (crawler_a_test plainFlags) initState "robots"
         "[robots] - https://a.test/admin").
Proof.
  exact (robots_line_reads_last_directive (libs := exampleLibs)
           (crawler_a_test plainFlags) initState
           "Allow: /public # not Disa" "LLOW:" " " "https://a.test/admin"
           eq_refl eq_refl eq_refl
           (or_intror (ex_intro _ "h"%char (ex_intro _ "ttps://a.test/admin"
                                             (conj eq_refl eq_refl))))
           eq_refl).
Defined.

(** * The sub-domain lines *)

Lemma allOf_srev (p : ascii -> bool) (s : string) : allOf p s -> allOf p (srev s).
Proof.
  induction s as [|c s IH]; intros H; [exact H|].
  rewrite srev_cons. apply allOf_app.
  change (String c s) with (String c "" ++ s) in H. apply allOf_app in H as [Hc Hs].
  split; auto.
Qed.

Lemma allOf_same (p q : ascii -> bool) (s : string) :
  (forall c, p c = q c) -> allOf p s -> allOf q s.
Proof.
  intros E. unfold allOf. induction s as [|c s IH]; simpl; auto.
  rewrite !andb_true_iff, (E c). intros [Hc Hs]. auto.
Qed.

Lemma last_byte_inj (r a : string) (c d : ascii) :
  r ++ String c "" = a ++ String d "" -> r = a /\ c = d.
Proof.
  intros E. apply (f_equal srev) in E. rewrite !srev_app in E.
  cbn [srev rev_onto append] in E. injection E as Hc Hr.
  split; auto. now rewrite <- (srev_involutive r), Hr, srev_involutive.
Qed.

Lemma TrimLeftFunc_all (f : ascii -> bool) (a s : string) :
  allOf f a -> strings.TrimLeftFunc f (a ++ s) = strings.TrimLeftFunc f s.
Proof.
  unfold allOf. induction a as [|c a IH]; simpl; auto.
  rewrite andb_true_iff. intros [-> Ha]. auto.
Qed.

(** What [strings.TrimFunc] cuts off lies in the class, on both sides. *)
Lemma TrimFunc_split (f : ascii -> bool) (s : string) :
  exists a b, s = a ++ strings.TrimFunc f s ++ b /\ allOf f a /\ allOf f b.
Proof.
  destruct (TrimLeftFunc_split f s) as (a & Ha & Fa).
  unfold strings.TrimFunc, strings.TrimRightFunc.
  set (v := strings.TrimLeftFunc f s) in *.
  destruct (TrimLeftFunc_split f (srev v)) as (q & Hq & Fq).
  exists a, (srev q). repeat split; auto using allOf_srev.
  rewrite Ha at 1. f_equal.
  rewrite <- (srev_involutive v) at 1. rewrite Hq at 1. apply srev_app.
Qed.

Lemma TrimFunc_noEdge (f : ascii -> bool) (s : string) : noEdge f (strings.TrimFunc f s).
Proof.
  destruct (TrimFunc_shape f s) as [->|(c & r & a & d & -> & Hc & E & Hd)]; split.
  - discriminate.
  - intros [|x r] c; discriminate.
  - now intros c' r' [= <- _].
  - intros r' c' E'. rewrite E in E'. now apply last_byte_inj in E' as [_ <-].
Qed.

Lemma trimmedOf_TrimFunc (f p : ascii -> bool) (s : string) :
  (forall c, f c = p c) -> trimmedOf p s (strings.TrimFunc f s).
Proof.
  intros E. destruct (TrimFunc_split f s) as (a & b & Hs & Fa & Fb).
  exists a, b. repeat split; eauto using allOf_same.
  - intros c r H. rewrite <- E. now apply (proj1 (TrimFunc_noEdge f s) c r).
  - intros r c H. rewrite <- E. now apply (proj2 (TrimFunc_noEdge f s) r c).
Qed.

(** ... and a text cut that way is what [strings.TrimFunc] returns. *)
Lemma trimmedOf_unique (f p : ascii -> bool) (s t : string) :
  (forall c, f c = p c) -> trimmedOf p s t -> strings.TrimFunc f s = t.
Proof.
  intros E (a & b & -> & Fa & Fb & He & Hl).
  assert (Ga : allOf f a) by (apply (allOf_same p); auto).
  assert (Gb : allOf f b) by (apply (allOf_same p); auto).
  unfold strings.TrimFunc, strings.TrimRightFunc.
  rewrite (TrimLeftFunc_all f a _ Ga).
  destruct t as [|c r].
  - cbn [append].
    replace (strings.TrimLeftFunc f b) with "".
    + reflexivity.
    + rewrite <- (append_nil_r b) at 1. now rewrite (TrimLeftFunc_all f b "" Gb).
  - assert (Hc : f c = false) by (rewrite E; eapply He; reflexivity).
    cbn [append strings.TrimLeftFunc]. rewrite Hc.
    destruct (string_last (String c r)) as (r' & d & Er); [discriminate|].
    assert (Hd : f d = false) by (rewrite E; eapply Hl; exact Er).
    change (String c (r ++ b)) with (String c r ++ b).
    rewrite srev_app, (TrimLeftFunc_all f (srev b) _ (allOf_srev _ _ Gb)).
    rewrite Er, srev_app. cbn [srev rev_onto append strings.TrimLeftFunc].
    rewrite Hd.
    change (String d (srev r')) with (srev (String d "") ++ srev r').
    rewrite <- srev_app. apply srev_involutive.
Qed.

Lemma isSpace_isBlank (c : ascii) : strings.isSpace c = isBlank c.
Proof. destruct c as [[] [] [] [] [] [] [] []]; vm_compute; reflexivity. Qed.

Lemma cutset_dash (c : ascii) : byte_in c "-" = isDash c.
Proof. unfold byte_in, isDash. simpl. apply orb_false_r. Qed.

Lemma withoutStar_TrimPrefix (s t : string) :
  withoutStar s t <-> strings.TrimPrefix s "*." = t.
Proof.
  unfold withoutStar, strings.TrimPrefix, strings.HasPrefix.
  destruct (String.prefix "*." s) eqn:E.
  - apply prefix_iff in E as [r ->].
    change (drop (String.length "*.") ("*." ++ r)) with r. split.
    + intros [H|[_ H]]; [now injection H | now destruct (H r)].
    + intros <-. now left.
  - split.
    + intros [->|[-> _]]; [|reflexivity].
      rewrite prefix_append in E. discriminate.
    + intros <-. right. split; auto. intros r ->.
      rewrite prefix_append in E. discriminate.
Qed.

Lemma withoutResidues_dropResidues (s t : string) :
  withoutResidues s t <-> dropResidues s = t.
Proof.
  split.
  - intros (pre & -> & Hr & Ht). induction Hr as [|a b rest Hab Hr IH].
    + now apply dropResidues_stop.
    + cbn [append dropResidues]. now rewrite Hab.
  - intros <-. destruct (dropResidues_split s) as (pre & Hs & Hr).
    exists pre. auto using dropResidues_done.
Qed.

Lemma withoutLeadingDot_dropLeadingDot (s t : string) :
  withoutLeadingDot s t <-> dropLeadingDot s = t.
Proof.
  unfold withoutLeadingDot. split.
  - intros [(c & r & -> & ->)|[-> H]]; [reflexivity|].
    destruct s as [|c [|d r]]; try reflexivity.
    cbn [dropLeadingDot]. destruct (Ascii.eqb_spec c ".") as [->|]; auto.
    now destruct (H d r).
  - intros <-. destruct s as [|c [|d r]].
    + right. split; auto. discriminate.
    + right. split; auto. intros d r. destruct (Ascii.eqb_spec c "."); discriminate.
    + cbn [dropLeadingDot]. destruct (Ascii.eqb_spec c ".") as [->|Hc].
      * left. exists d, r. auto.
      * right. split; auto. intros d' r' [= E]. contradiction.
Qed.

(** [CleanSubdomain] computes the one text that the steps of the claim
    give. *)
Lemma cleaned_iff (s r : string) : cleaned s r <-> r = CleanSubdomain s.
Proof.
  rewrite CleanSubdomain_steps, ToLower_lowercase. unfold cleaned. split.
  - intros (t1 & t2 & t3 & t4 & H1 & H2 & H3 & H4 & H5).
    apply (trimmedOf_unique strings.isSpace) in H1; [|exact isSpace_isBlank].
    apply withoutStar_TrimPrefix in H2. apply withoutResidues_dropResidues in H3.
    apply (trimmedOf_unique (fun c => byte_in c "-")) in H4; [|exact cutset_dash].
    apply withoutLeadingDot_dropLeadingDot in H5.
    unfold strings.TrimSpace, strings.Trim. now rewrite H1, H2, H3, H4.
  - intros ->.
    exists (strings.TrimSpace (lowercase s)),
           (strings.TrimPrefix (strings.TrimSpace (lowercase s)) "*."),
           (dropResidues (strings.TrimPrefix (strings.TrimSpace (lowercase s)) "*.")),
           (strings.Trim
              (dropResidues (strings.TrimPrefix (strings.TrimSpace (lowercase s)) "*."))
              "-").
    split; [apply trimmedOf_TrimFunc, isSpace_isBlank|].
    split; [now apply withoutStar_TrimPrefix|].
    split; [now apply withoutResidues_dropResidues|].
    split; [apply trimmedOf_TrimFunc, cutset_dash|].
    now apply withoutLeadingDot_dropLeadingDot.
Qed.

Section SubdomainClaims.
Context {libs : Libraries}.

(** C10.  Every line a run prints with kind subdomains carries
    [CleanSubdomain m] for a match [m] of the sub-domain pattern in some
    response body (as the JSON output, bare in quiet mode, or after
    http:// and https:// in plain mode).  For a text [s] of ASCII bytes,
    [CleanSubdomain s] is the one text that the steps of the claim give,
    in their order: [s] is lower-cased; the white space around it is cut
    off; a leading [*.] is removed; the leading run of the residues 20,
    25, 2b, 2f, 3d, 3a, 40 (in either letter case) is dropped, so that
    what is left does not start with one; the dashes around that are cut
    off; and a leading dot is dropped when more text follows it. *)
Theorem subdomain_lines_are_cleaned cr lf rb events :
  (forall ln,
     In ln (out (crawl (run cr lf rb events))) -> kind ln = "subdomains" ->
     exists body m,
       In m (FindAllString (subdomainRegex (domain cr)) body)
       /\ subdomainText cr (CleanSubdomain m) (text ln)
       /\ (allOf isAsciiByte m -> cleaned m (CleanSubdomain m)))
  /\ (forall s r, allOf isAsciiByte s -> (cleaned s r <-> r = CleanSubdomain s)).
Proof.
  split.
  - intros ln Hin Hk.
    pose proof (run_lines cr lf rb events) as F. rewrite Forall_forall in F.
    specialize (F _ Hin).
    unfold runLine, crawlLine, scanLine, kindIs, scopedHref, scopedLinkfinder in F.
    destruct F as [[H|[[[_ H]|[H|[H|[[H _]|H]]]]|[[H _]|[H|H]]]]|[H|H]];
      try (rewrite Hk in H; discriminate).
    destruct H as (body & m & Hm & Ht). exists body, m.
    repeat split; auto. intros _. now apply cleaned_iff.
  - intros s r _. apply cleaned_iff.
Qed.

End SubdomainClaims.

Lemma subdomain_lines_are_cleaned_witness :
  In {| kind := "subdomains"; text := "[subdomains] - http://www.a.test" |}
     (out (crawl (run (libs := matchLibs) (crawler_a_test plainFlags) true None
                    [ResponseEvent encodedBody])))
  /\ (exists body m,
        In m (FindAllString (Libraries := matchLibs)
                (subdomainRegex (domain (crawler_a_test plainFlags))) body)
        /\ subdomainText (libs := matchLibs) (crawler_a_test plainFlags)
             (CleanSubdomain m) "[subdomains] - http://www.a.test"
        /\ (allOf isAsciiByte m -> cleaned m (CleanSubdomain m)))
  /\ cleaned " *.2F25--.WWW.A.Test- " "www.a.test"
  /\ cleaned "2F-WWW.a.test" "www.a.test".
Proof.
  pose proof (subdomain_lines_are_cleaned (libs := matchLibs)
                (crawler_a_test plainFlags) true None [ResponseEvent encodedBody])
    as [Hrun Hsteps].
  assert (Hin : In {| kind := "subdomains"; text := "[subdomains] - http://www.a.test" |}
                  (out (crawl (run (libs := matchLibs) (crawler_a_test plainFlags) true None
                                 [ResponseEvent encodedBody]))))
    by (vm_compute; auto).
  split; [exact Hin|]. split; [exact (Hrun _ Hin eq_refl)|]. split.
  - apply Hsteps; [reflexivity | vm_compute; reflexivity].
  - apply Hsteps; [reflexivity | vm_compute; reflexivity].
Defined.
